(** * ScreenClip: the compositing engine and the free-tier bookkeeping

    A shallow embedding of [src/utils/freebie.ts], [src/utils/canvas.ts],
    of the fill presets and the handlers of
    [src/components/ScreenshotEditor.tsx], and of the handlers of
    [src/components/TemplateSelector.tsx].

    Conventions of the embedding.
    - A JavaScript [number] that the quota code counts with is an
      integer, [Infinity], [-Infinity] or [NaN] ([number] below).  The
      integers are the mathematical ones: [number_add], [String_of_number]
      and [parseInt10] are those of JavaScript on the safe integers, from
      [-(2^53 - 1)] to [2^53 - 1], beyond which a double skips integers
      and [String] changes its notation.  A count of exports lives in
      that range, and the properties of a count that is raised assume it
      ([Quota.safe]).
    - A [number] of the compositing code is a rational ([Q]).  [Canvas]
      computes with the exact rationals: it is the program up to the
      rounding of its doubles, and the program itself where the values
      are whole numbers and halves, as those of the hardcoded frames
      are.  [Double] computes the fitting of the image with the rounding
      of the program, and the properties that rounding decides are
      stated there.
    - A quotient by zero is 0 in [Q] where JavaScript gives an infinity
      or [NaN]: every property of a quotient assumes a positive divisor,
      and the other properties do not depend on the value of a quotient.
    - A size assigned to a canvas is kept as it is assigned; a browser
      truncates it to a whole number.  The properties of the size of a
      canvas are about the size that the code assigns.
    - A colour is a string that the canvas accepts as a CSS colour, as
      the colours of the templates are.
    - A JavaScript string is a [string] whose characters are code units
      below 256.
    - [localStorage] is a finite map from keys to strings.
    - A function that reads or writes the browser state is a state
      transformer [Browser -> A * Browser]. *)

From stdpp Require Import gmap strings pretty.
From Stdlib Require Import Ascii String ZArith QArith Qminmax Qround Qpower Lia Lqa.

Local Open Scope Z_scope.

(** ** JavaScript values used by the quota code *)

Inductive number : Type :=
| Int (z : Z)
| Infinity
| NegInfinity
| NaN.

(** [a + b]: exact on the integers, as JavaScript is on the safe ones. *)
Definition number_add (a b : number) : number :=
  match a, b with
  | NaN, _ | _, NaN => NaN
  | Infinity, NegInfinity | NegInfinity, Infinity => NaN
  | Infinity, _ | _, Infinity => Infinity
  | NegInfinity, _ | _, NegInfinity => NegInfinity
  | Int x, Int y => Int (x + y)
  end.

Definition number_neg (a : number) : number :=
  match a with
  | Int x => Int (- x)
  | Infinity => NegInfinity
  | NegInfinity => Infinity
  | NaN => NaN
  end.

Definition number_sub (a b : number) : number := number_add a (number_neg b).

(** [a >= b] of JavaScript: false as soon as one side is [NaN]. *)
Definition number_ge (a b : number) : bool :=
  match a, b with
  | NaN, _ | _, NaN => false
  | Infinity, _ => true
  | _, NegInfinity => true
  | NegInfinity, _ => false
  | _, Infinity => false
  | Int x, Int y => bool_decide (y <= x)
  end.

(** [a > b] of JavaScript: false as soon as one side is [NaN]. *)
Definition number_gt (a b : number) : bool :=
  match a, b with
  | NaN, _ | _, NaN => false
  | Infinity, Infinity => false
  | Infinity, _ => true
  | NegInfinity, _ => false
  | _, NegInfinity => true
  | _, Infinity => false
  | Int x, Int y => bool_decide (y < x)
  end.

(** [Math.max(a, b)]. *)
Definition Math_max (a b : number) : number :=
  match a, b with
  | NaN, _ | _, NaN => NaN
  | Infinity, _ | _, Infinity => Infinity
  | NegInfinity, c | c, NegInfinity => c
  | Int x, Int y => Int (Z.max x y)
  end.

(** [String(n)]: the decimal digits of an integer, which is what
    JavaScript writes for an integer below [10^21]. *)
Definition String_of_number (n : number) : string :=
  match n with
  | Int z => pretty z
  | Infinity => "Infinity"
  | NegInfinity => "-Infinity"
  | NaN => "NaN"
  end.

(** The white space that [trim] and [parseInt] skip, among the code units
    below 256: TAB, LF, VT, FF, CR, SPACE and NBSP. *)
Definition is_white_space (c : ascii) : bool :=
  let n := nat_of_ascii c in
  orb (andb (Nat.leb 9 n) (Nat.leb n 13)) (orb (Nat.eqb n 32) (Nat.eqb n 160)).

Fixpoint skip_white_space (s : string) : string :=
  match s with
  | String c r => if is_white_space c then skip_white_space r else s
  | EmptyString => EmptyString
  end.

Definition digit_of (c : ascii) : option Z :=
  let n := nat_of_ascii c in
  if andb (Nat.leb 48 n) (Nat.leb n 57) then Some (Z.of_nat n - 48) else None.

(** The longest prefix of decimal digits, read from the left with the
    value [acc] of the digits already seen; [seen] tells whether there was
    one. *)
Fixpoint parse_digits (s : string) (seen : bool) (acc : Z) : option Z :=
  match s with
  | String c r =>
      match digit_of c with
      | Some d => parse_digits r true (10 * acc + d)
      | None => if seen then Some acc else None
      end
  | EmptyString => if seen then Some acc else None
  end.

(** [parseInt(s, 10)]: leading white space, an optional sign, then the
    longest run of decimal digits; [NaN] when there is no digit.  The
    value is the integer that the digits denote, which is the one
    JavaScript returns when it is a safe integer. *)
Definition parseInt10 (s : string) : number :=
  match skip_white_space s with
  | String "-" r =>
      match parse_digits r false 0 with Some z => Int (- z) | None => NaN end
  | String "+" r =>
      match parse_digits r false 0 with Some z => Int z | None => NaN end
  | r =>
      match parse_digits r false 0 with Some z => Int z | None => NaN end
  end.

(** [s.padStart(2, '0')]. *)
Definition padStart2 (s : string) : string :=
  match String.length s with
  | O => "00"
  | S O => String "0" s
  | _ => s
  end.

(** ** [src/utils/freebie.ts] *)

Module Freebie.

Definition USES : string := "screenclip_uses".
Definition RESET_DATE : string := "screenclip_reset_date".
Definition PAID : string := "screenclip_paid".
Definition CUSTOMER_ID : string := "screenclip_customer_id".
Definition SUBSCRIPTION_ID : string := "screenclip_subscription_id".
Definition LAST_VERIFIED : string := "screenclip_last_verified".

Definition FREE_LIMIT : number := Int 3.

(** What [new Date()] gives: the year and the month index, 0 to 11. *)
Record Date : Type := { getFullYear : Z; getMonth : Z }.

(** The browser as the module sees it: whether [window] is defined (it is
    not on the server), the local storage, and the clock. *)
Record Browser : Type := {
  window_defined : bool;
  localStorage : gmap string string;
  now : Date
}.

Definition setItem (k v : string) (b : Browser) : Browser :=
  {| window_defined := window_defined b;
     localStorage := <[k := v]> (localStorage b);
     now := now b |}.

Definition removeItem (k : string) (b : Browser) : Browser :=
  {| window_defined := window_defined b;
     localStorage := delete k (localStorage b);
     now := now b |}.

Definition getItem (k : string) (b : Browser) : option string :=
  localStorage b !! k.

Definition getCurrentMonth (b : Browser) : string :=
  pretty (getFullYear (now b)) +:+ "-" +:+
  padStart2 (pretty (getMonth (now b) + 1)).

Definition isPaidUser (b : Browser) : bool * Browser :=
  if negb (window_defined b) then (false, b)
  else (bool_decide (getItem PAID b = Some "true"), b).

Definition getUsageCount (b : Browser) : number * Browser :=
  if negb (window_defined b) then (Int 0, b)
  else
    let resetDate := getItem RESET_DATE b in
    let currentMonth := getCurrentMonth b in
    if bool_decide (resetDate = Some currentMonth) then
      match getItem USES b with
      | Some uses =>
          if bool_decide (uses = "") then (Int 0, b) else (parseInt10 uses, b)
      | None => (Int 0, b)
      end
    else
      let b1 := setItem RESET_DATE currentMonth b in
      let b2 := setItem USES "0" b1 in
      (Int 0, b2).

Definition hasHitFreeLimit (b : Browser) : bool * Browser :=
  let (paid, b1) := isPaidUser b in
  if paid then (false, b1)
  else
    let (count, b2) := getUsageCount b1 in
    (number_ge count FREE_LIMIT, b2).

Definition incrementUsage (b : Browser) : Browser :=
  if negb (window_defined b) then b
  else
    let (currentCount, b1) := getUsageCount b in
    setItem USES (String_of_number (number_add currentCount (Int 1))) b1.

(** [markAsPaid(customerId?, subscriptionId?)]: an absent or empty
    argument is falsy and stores nothing. *)
Definition markAsPaid (customerId subscriptionId : option string)
    (b : Browser) : Browser :=
  if negb (window_defined b) then b
  else
    let b1 := setItem PAID "true" b in
    let b2 :=
      match customerId with
      | Some c => if bool_decide (c = "") then b1 else setItem CUSTOMER_ID c b1
      | None => b1
      end in
    match subscriptionId with
    | Some s => if bool_decide (s = "") then b2 else setItem SUBSCRIPTION_ID s b2
    | None => b2
    end.

Definition revokePaid (b : Browser) : Browser :=
  if negb (window_defined b) then b
  else
    removeItem LAST_VERIFIED
      (removeItem SUBSCRIPTION_ID (removeItem CUSTOMER_ID (removeItem PAID b))).

Definition getRemainingExports (b : Browser) : number * Browser :=
  let (paid, b1) := isPaidUser b in
  if paid then (Infinity, b1)
  else
    let (count, b2) := getUsageCount b1 in
    (Math_max (Int 0) (number_sub FREE_LIMIT count), b2).

Definition getSubscriptionId (b : Browser) : option string :=
  if negb (window_defined b) then None else getItem SUBSCRIPTION_ID b.

Definition getCustomerId (b : Browser) : option string :=
  if negb (window_defined b) then None else getItem CUSTOMER_ID b.

(** [isVerificationCached] and [updateVerificationCache] read the clock
    in milliseconds, [Date.now()], which is the argument [dateNow]. *)
Definition isVerificationCached (dateNow : Z) (b : Browser) : bool :=
  if negb (window_defined b) then false
  else
    match getItem LAST_VERIFIED b with
    | Some lastVerified =>
        if bool_decide (lastVerified = "") then false
        else
          let oneHourAgo := dateNow - (60 * 60 * 1000) in
          number_gt (parseInt10 lastVerified) (Int oneHourAgo)
    | None => false
    end.

Definition updateVerificationCache (dateNow : Z) (b : Browser) : Browser :=
  if negb (window_defined b) then b
  else setItem LAST_VERIFIED (String_of_number (Int dateNow)) b.

End Freebie.


(** ** [src/utils/canvas.ts] *)

Module Canvas.

Local Open Scope Q_scope.

Record ImageTransform : Type := { scale : Q; x : Q; y : Q }.

(** An [HTMLImageElement] that has loaded: where its pixels come from and
    its size. *)
Record HTMLImageElement : Type := {
  src : string;
  image_width : Q;
  image_height : Q
}.

Record Screen : Type := {
  screen_x : Q;
  screen_y : Q;
  screen_width : Q;
  screen_height : Q
}.

Record Size : Type := { width : Q; height : Q }.

Record DeviceFrameTemplate : Type := {
  frame : string;
  mask : string;
  screen : Screen;
  frameSize : Size
}.

Record DeviceFrame : Type := {
  image : HTMLImageElement;
  template : DeviceFrameTemplate
}.

(** [config: any]: the fields that the code reads or writes.  An absent
    [device] or [orientation] is [None]. *)
Record Config : Type := {
  device : option string;
  orientation : option string;
  colors : list string;
  angle : Q;
  color : string;
  _realScreenDimensions : option Size
}.

Record Template : Type := {
  id : string;
  name : string;
  type : string;
  config : Config
}.

(** [template.config._realScreenDimensions = { width, height }] *)
Definition set_realScreenDimensions (w h : Q) (t : Template) : Template :=
  {| id := id t; name := name t; type := type t;
     config :=
       {| device := device (config t);
          orientation := orientation (config t);
          colors := colors (config t);
          angle := angle (config t);
          color := color (config t);
          _realScreenDimensions := Some {| width := w; height := h |} |} |}.

(** *** The drawing surface *)

(** What [fillStyle] and [strokeStyle] hold.  [AngleGradient w h a] is
    [createLinearGradient(0, 0, w * cos(a * PI / 180), h * sin(a * PI / 180))],
    whose cosine and sine are left to the rasteriser. *)
Inductive Style : Type :=
| Color (c : string)
| LinearGradient (x0 y0 x1 y1 : Q) (stops : list (Q * string))
| AngleGradient (w h a : Q) (stops : list (Q * string)).

(** The part of the 2D context state that the code assigns. *)
Record Context2D : Type := {
  fillStyle : Style;
  strokeStyle : Style;
  lineWidth : Q;
  lineJoin : string;
  font : string;
  textAlign : string;
  shadowColor : string;
  shadowBlur : Q;
  shadowOffsetY : Q
}.

(** The state of a context that has just been created or reset. *)
Definition default_context : Context2D :=
  {| fillStyle := Color "#000000";
     strokeStyle := Color "#000000";
     lineWidth := 1;
     lineJoin := "miter";
     font := "10px sans-serif";
     textAlign := "start";
     shadowColor := "rgba(0, 0, 0, 0)";
     shadowBlur := 0;
     shadowOffsetY := 0 |}.

(** A rounded rectangle used as clipping path. *)
Record RoundRect : Type := {
  clip_x : Q; clip_y : Q; clip_width : Q; clip_height : Q; clip_radius : Q
}.

(** What a drawing call paints.  The three procedural frames stand for
    the bodies of [drawPhoneFrame], [drawMacBookFrame] and
    [drawBrowserFrame], and [ScreenReflection] for the glass effect that
    ends [drawImageInPhone]: each paints a fixed sequence of shapes that
    depends on its arguments only. *)
Inductive Shape : Type :=
| FillRect (x y w h : Q)
| DrawImage (img : HTMLImageElement) (x y w h : Q)
| FillText (text : string) (x y : Q)
| StrokeText (text : string) (x y : Q)
| PhoneFrame (centerX centerY w h : Q) (orientation : string)
| MacBookFrame (centerX centerY w h : Q)
| BrowserFrame (x y w h : Q)
| ScreenReflection (x y w h : Q).

(** One drawing call: the context state it was made in, the clipping path
    in force, the centre of the clockwise quarter-turn in force (for the
    landscape frame), and the shape. *)
Record Paint : Type := {
  paint_state : Context2D;
  paint_clip : option RoundRect;
  paint_rotate : option (Q * Q);
  paint_shape : Shape
}.

(** An [HTMLCanvasElement]: its size, whether [getContext("2d")] gives a
    context, the state of that context, and what has been painted since
    the bitmap was last cleared. *)
Record HTMLCanvasElement : Type := {
  canvas_width : Q;
  canvas_height : Q;
  has_context : bool;
  ctx : Context2D;
  painted : list Paint
}.

(** [canvas.width = w]: assigning a dimension clears the bitmap and resets
    the context.  The size is kept as it is assigned; a browser truncates
    it to a whole number, and replaces one above [2^31 - 1] by the
    default size. *)
Definition set_width (w : Q) (c : HTMLCanvasElement) : HTMLCanvasElement :=
  {| canvas_width := w; canvas_height := canvas_height c;
     has_context := has_context c; ctx := default_context; painted := [] |}.

Definition set_height (h : Q) (c : HTMLCanvasElement) : HTMLCanvasElement :=
  {| canvas_width := canvas_width c; canvas_height := h;
     has_context := has_context c; ctx := default_context; painted := [] |}.

Definition with_ctx (f : Context2D -> Context2D) (c : HTMLCanvasElement)
  : HTMLCanvasElement :=
  {| canvas_width := canvas_width c; canvas_height := canvas_height c;
     has_context := has_context c; ctx := f (ctx c); painted := painted c |}.

Definition set_fillStyle (v : Style) : HTMLCanvasElement -> HTMLCanvasElement :=
  with_ctx (fun s =>
    {| fillStyle := v; strokeStyle := strokeStyle s; lineWidth := lineWidth s;
       lineJoin := lineJoin s; font := font s; textAlign := textAlign s;
       shadowColor := shadowColor s; shadowBlur := shadowBlur s;
       shadowOffsetY := shadowOffsetY s |}).

Definition set_strokeStyle (v : Style) : HTMLCanvasElement -> HTMLCanvasElement :=
  with_ctx (fun s =>
    {| fillStyle := fillStyle s; strokeStyle := v; lineWidth := lineWidth s;
       lineJoin := lineJoin s; font := font s; textAlign := textAlign s;
       shadowColor := shadowColor s; shadowBlur := shadowBlur s;
       shadowOffsetY := shadowOffsetY s |}).

Definition set_lineWidth (v : Q) : HTMLCanvasElement -> HTMLCanvasElement :=
  with_ctx (fun s =>
    {| fillStyle := fillStyle s; strokeStyle := strokeStyle s; lineWidth := v;
       lineJoin := lineJoin s; font := font s; textAlign := textAlign s;
       shadowColor := shadowColor s; shadowBlur := shadowBlur s;
       shadowOffsetY := shadowOffsetY s |}).

Definition set_lineJoin (v : string) : HTMLCanvasElement -> HTMLCanvasElement :=
  with_ctx (fun s =>
    {| fillStyle := fillStyle s; strokeStyle := strokeStyle s;
       lineWidth := lineWidth s; lineJoin := v; font := font s;
       textAlign := textAlign s; shadowColor := shadowColor s;
       shadowBlur := shadowBlur s; shadowOffsetY := shadowOffsetY s |}).

Definition set_font (v : string) : HTMLCanvasElement -> HTMLCanvasElement :=
  with_ctx (fun s =>
    {| fillStyle := fillStyle s; strokeStyle := strokeStyle s;
       lineWidth := lineWidth s; lineJoin := lineJoin s; font := v;
       textAlign := textAlign s; shadowColor := shadowColor s;
       shadowBlur := shadowBlur s; shadowOffsetY := shadowOffsetY s |}).

Definition set_textAlign (v : string) : HTMLCanvasElement -> HTMLCanvasElement :=
  with_ctx (fun s =>
    {| fillStyle := fillStyle s; strokeStyle := strokeStyle s;
       lineWidth := lineWidth s; lineJoin := lineJoin s; font := font s;
       textAlign := v; shadowColor := shadowColor s;
       shadowBlur := shadowBlur s; shadowOffsetY := shadowOffsetY s |}).

Definition set_shadowColor (v : string) : HTMLCanvasElement -> HTMLCanvasElement :=
  with_ctx (fun s =>
    {| fillStyle := fillStyle s; strokeStyle := strokeStyle s;
       lineWidth := lineWidth s; lineJoin := lineJoin s; font := font s;
       textAlign := textAlign s; shadowColor := v;
       shadowBlur := shadowBlur s; shadowOffsetY := shadowOffsetY s |}).

Definition set_shadowBlur (v : Q) : HTMLCanvasElement -> HTMLCanvasElement :=
  with_ctx (fun s =>
    {| fillStyle := fillStyle s; strokeStyle := strokeStyle s;
       lineWidth := lineWidth s; lineJoin := lineJoin s; font := font s;
       textAlign := textAlign s; shadowColor := shadowColor s;
       shadowBlur := v; shadowOffsetY := shadowOffsetY s |}).

Definition set_shadowOffsetY (v : Q) : HTMLCanvasElement -> HTMLCanvasElement :=
  with_ctx (fun s =>
    {| fillStyle := fillStyle s; strokeStyle := strokeStyle s;
       lineWidth := lineWidth s; lineJoin := lineJoin s; font := font s;
       textAlign := textAlign s; shadowColor := shadowColor s;
       shadowBlur := shadowBlur s; shadowOffsetY := v |}).

(** [ctx.restore()] back to the state that [ctx.save()] kept. *)
Definition restore (saved : Context2D) : HTMLCanvasElement -> HTMLCanvasElement :=
  with_ctx (fun _ => saved).

(** A drawing call, under a clipping path and a rotation or none. *)
Definition paint (clip : option RoundRect) (rot : option (Q * Q)) (s : Shape)
    (c : HTMLCanvasElement) : HTMLCanvasElement :=
  {| canvas_width := canvas_width c; canvas_height := canvas_height c;
     has_context := has_context c; ctx := ctx c;
     painted := painted c ++
       [ {| paint_state := ctx c; paint_clip := clip; paint_rotate := rot;
            paint_shape := s |} ] |}.

(** *** Loading a device frame *)

(** How an [async] function ends. *)
Inductive Promise (A : Type) : Type :=
| Resolved (a : A)
| Rejected.
Arguments Resolved {A} a.
Arguments Rejected {A}.

(** How a block of statements ends: normally, or by a thrown exception. *)
Inductive Completion (A : Type) : Type :=
| Normal (a : A)
| Throw.
Arguments Normal {A} a.
Arguments Throw {A}.

(** What [fetch(url)] followed by [response.json()] can give: a rejected
    fetch, a response that is not [ok], a body that is not JSON, or the
    descriptor. *)
Inductive Response : Type :=
| FetchRejects
| NotOk
| JsonRejects
| Json (t : DeviceFrameTemplate).

(** The outside world of the loader: what the server answers for a URL,
    and whether the bitmap at a path decodes ([None]: [onerror]). *)
Record Network : Type := {
  fetch : string -> Response;
  load_image : string -> option HTMLImageElement
}.

(** [s.replace(pat, rep)] with a string pattern: the first occurrence. *)
Fixpoint replace (pat rep s : string) : string :=
  if String.prefix pat s then
    rep +:+ String.substring (String.length pat)
              (String.length s - String.length pat) s
  else
    match s with
    | EmptyString => EmptyString
    | String c r => String c (replace pat rep r)
    end.

(** The [try] block of [loadDeviceFrame]. *)
Definition loadDeviceFrame_try (net : Network)
    (deviceFrameCache : gmap string DeviceFrame) (framePath : string)
  : Completion (option DeviceFrame * gmap string DeviceFrame) :=
  match fetch net (replace ".png" ".json" framePath) with
  | FetchRejects => Throw
  | NotOk => Normal (None, deviceFrameCache)
  | JsonRejects => Throw
  | Json t =>
      match load_image net framePath with
      | None => Throw
      | Some img =>
          let df := {| image := img; template := t |} in
          Normal (Some df, <[framePath := df]> deviceFrameCache)
      end
  end.

Definition loadDeviceFrame (net : Network)
    (deviceFrameCache : gmap string DeviceFrame) (framePath : string)
  : Promise (option DeviceFrame) * gmap string DeviceFrame :=
  match deviceFrameCache !! framePath with
  | Some df => (Resolved (Some df), deviceFrameCache)
  | None =>
      match loadDeviceFrame_try net deviceFrameCache framePath with
      | Normal (r, cache) => (Resolved r, cache)
      | Throw => (Resolved None, deviceFrameCache)
      end
  end.

(** *** Drawing *)

Definition stop (n : nat) (index : nat) (c : string) : Q * string :=
  (inject_Z (Z.of_nat index) / inject_Z (Z.of_nat n - 1), c).

(** [drawBackground].  With exactly one colour the only stop is at
    [0 / 0], which [addColorStop] refuses by throwing.  The colours are
    CSS colours: [addColorStop] also throws for a string that is none. *)
Definition drawBackground (t : Template) (c : HTMLCanvasElement)
  : Completion HTMLCanvasElement :=
  let fill c :=
    paint None None (FillRect 0 0 (canvas_width c) (canvas_height c)) c in
  if bool_decide (type t = "gradient") then
    let n := List.length (colors (config t)) in
    if bool_decide (n = 1%nat) then Throw
    else
      let gradient :=
        AngleGradient (canvas_width c) (canvas_height c) (angle (config t))
          (imap (stop n) (colors (config t))) in
      Normal (fill (set_fillStyle gradient c))
  else if bool_decide (type t = "solid") then
    Normal (fill (set_fillStyle (Color (color (config t))) c))
  else
    let gradient :=
      LinearGradient 0 0 (canvas_width c) (canvas_height c)
        [(0, "#667eea"); (1, "#764ba2")] in
    Normal (fill (set_fillStyle gradient c)).

(** [drawBrowserFrame]: the frame, then the context state that the body
    leaves behind. *)
Definition drawBrowserFrame (x y width height : Q) (c : HTMLCanvasElement)
  : HTMLCanvasElement :=
  let c := paint None None (BrowserFrame x y width height) c in
  let c := set_fillStyle (Color "#5a5a5a") c in
  let c := set_font "12px sans-serif" c in
  let c := set_strokeStyle (Color "rgba(255, 255, 255, 0.05)") c in
  set_lineWidth 1 c.

Definition drawPhoneFrame (centerX centerY width height : Q)
    (orientation : string) (c : HTMLCanvasElement) : HTMLCanvasElement :=
  let c := paint None None (PhoneFrame centerX centerY width height orientation) c in
  let c := set_strokeStyle (Color "rgba(20, 20, 20, 0.8)") c in
  let c := set_lineWidth 1.5 c in
  set_fillStyle (Color "#5a5a5a") c.

Definition drawMacBookFrame (centerX centerY width height : Q)
    (c : HTMLCanvasElement) : HTMLCanvasElement :=
  let c := paint None None (MacBookFrame centerX centerY width height) c in
  let c := set_fillStyle (Color "rgba(0,0,0,0.25)") c in
  let c := set_strokeStyle (Color "rgba(0,0,0,0.15)") c in
  set_lineWidth 1 c.

(** The rectangle that the user image is drawn into, around the centre
    of the screen: the lines "Calculate scaled image dimensions" and
    "Calculate position with transform offset" that the three
    [drawImageIn...] functions share, in exact arithmetic and for an
    image of positive width and height.  [Double.scaledImage] has the
    same lines with the rounding of the program. *)
Definition scaledImage (img : HTMLImageElement)
    (screenWidth screenHeight : Q) (transform : ImageTransform)
    (screenCenterX screenCenterY : Q) : Screen :=
  let baseScale :=
    Qmin (screenWidth / image_width img) (screenHeight / image_height img) in
  let finalScale := baseScale * scale transform in
  let scaledWidth := image_width img * finalScale in
  let scaledHeight := image_height img * finalScale in
  let imageCenterX := screenCenterX + x transform in
  let imageCenterY := screenCenterY + y transform in
  let imageX := imageCenterX - scaledWidth / 2 in
  let imageY := imageCenterY - scaledHeight / 2 in
  {| screen_x := imageX; screen_y := imageY;
     screen_width := scaledWidth; screen_height := scaledHeight |}.

Definition drawScaled (clip : option RoundRect) (img : HTMLImageElement)
    (r : Screen) : HTMLCanvasElement -> HTMLCanvasElement :=
  paint clip None
    (DrawImage img (screen_x r) (screen_y r) (screen_width r) (screen_height r)).

Definition roundRect (x y w h radius : Q) : option RoundRect :=
  Some {| clip_x := x; clip_y := y; clip_width := w; clip_height := h;
          clip_radius := radius |}.

Definition drawImageInDeviceScreen (img : HTMLImageElement)
    (screenX screenY screenWidth screenHeight : Q) (transform : ImageTransform)
    (cornerRadius : Q) (c : HTMLCanvasElement) : HTMLCanvasElement :=
  let saved := ctx c in
  let clip := roundRect screenX screenY screenWidth screenHeight cornerRadius in
  let c := set_fillStyle (Color "#ffffff") c in
  let c := paint clip None (FillRect screenX screenY screenWidth screenHeight) c in
  let c :=
    drawScaled clip img
      (scaledImage img screenWidth screenHeight transform
         (screenX + screenWidth / 2) (screenY + screenHeight / 2)) c in
  restore saved c.

Definition drawImageInPhoneReal (img : HTMLImageElement)
    (screenX screenY screenWidth screenHeight : Q) (transform : ImageTransform)
    (orientation : string) (c : HTMLCanvasElement) : HTMLCanvasElement :=
  let screenCornerRadius := 37 in
  let saved := ctx c in
  let clip :=
    roundRect screenX screenY screenWidth screenHeight screenCornerRadius in
  let c := set_fillStyle (Color "#ffffff") c in
  let c := paint clip None (FillRect screenX screenY screenWidth screenHeight) c in
  let c :=
    drawScaled clip img
      (scaledImage img screenWidth screenHeight transform
         (screenX + screenWidth / 2) (screenY + screenHeight / 2)) c in
  restore saved c.

Definition drawImageInPhone (img : HTMLImageElement)
    (centerX centerY phoneWidth phoneHeight : Q) (transform : ImageTransform)
    (orientation : string) (c : HTMLCanvasElement) : HTMLCanvasElement :=
  let x := centerX - phoneWidth / 2 in
  let y := centerY - phoneHeight / 2 in
  let screenX := x in
  let screenY := y in
  let screenWidth := phoneWidth in
  let screenHeight := phoneHeight in
  let cornerRadius := 37 in
  let saved := ctx c in
  let clip := roundRect screenX screenY screenWidth screenHeight cornerRadius in
  let c := set_fillStyle (Color "#ffffff") c in
  let c := paint clip None (FillRect screenX screenY screenWidth screenHeight) c in
  let c :=
    drawScaled clip img
      (scaledImage img screenWidth screenHeight transform centerX centerY) c in
  let c := restore saved c in
  let c :=
    paint clip None (ScreenReflection screenX screenY screenWidth screenHeight) c in
  restore saved c.

(** [s.trim()]: without the white space at both ends. *)
Definition trim (s : string) : string :=
  String.rev (skip_white_space (String.rev (skip_white_space s))).

Definition addWatermark (customText : string) (isPaid : bool)
    (c : HTMLCanvasElement) : HTMLCanvasElement :=
  let c := set_font "bold 24px -apple-system, BlinkMacSystemFont, 'Segoe UI', sans-serif" c in
  let c :=
    if negb isPaid then
      let c := set_shadowColor "rgba(0, 0, 0, 0.2)" c in
      let c := set_shadowBlur 3 c in
      let c := set_shadowOffsetY 1 c in
      let c := set_fillStyle (Color "rgba(255, 255, 255, 0.35)") c in
      let c := set_textAlign "right" c in
      paint None None
        (FillText "AppShot Free" (canvas_width c - 30) (canvas_height c - 30)) c
    else c in
  let c :=
    if andb (negb (bool_decide (customText = "")))
            (negb (bool_decide (trim customText = ""))) then
      let c := set_textAlign "center" c in
      let c := set_strokeStyle (Color "rgba(0, 0, 0, 0.8)") c in
      let c := set_lineWidth 4 c in
      let c := set_lineJoin "round" c in
      let c := set_shadowColor "rgba(0, 0, 0, 0.4)" c in
      let c := set_shadowBlur 6 c in
      let c := set_shadowOffsetY 2 c in
      let c :=
        paint None None
          (StrokeText customText (canvas_width c / 2) (canvas_height c - 30)) c in
      let c := set_fillStyle (Color "rgba(255, 255, 255, 0.95)") c in
      let c := set_shadowBlur 0 c in
      paint None None
        (FillText customText (canvas_width c / 2) (canvas_height c - 30)) c
    else c in
  let c := set_shadowColor "transparent" c in
  let c := set_shadowBlur 0 c in
  let c := set_shadowOffsetY 0 c in
  let c := set_strokeStyle (Color "transparent") c in
  set_lineWidth 1 c.

(** *** [applyTemplate] *)

Definition padding : Q := 100.

(** The rotated screen rectangle of the landscape phone, within the
    rotated frame of size [canvasWidth] by [canvasHeight]: the lines
    "Rotated screen coords within the rotated frame", before the frame's
    own offset on the canvas is added. *)
Definition rotatedScreen (origSX origSY origSW origSH origFW origFH : Q)
    (canvasWidth canvasHeight : Q) : Screen :=
  {| screen_x := (origSY / origFH) * canvasWidth;
     screen_y := ((origFW - origSX - origSW) / origFW) * canvasHeight;
     screen_width := (origSH / origFH) * canvasWidth;
     screen_height := (origSW / origFW) * canvasHeight |}.

(** What a call of [applyTemplate] leaves: how the promise ends, the frame
    cache, the canvas, and the template with the screen dimensions that
    the call stored in it. *)
Record Applied : Type := {
  outcome : Promise unit;
  out_cache : gmap string DeviceFrame;
  out_canvas : HTMLCanvasElement;
  out_template : Template
}.

Definition applied (p : Promise unit) (cache : gmap string DeviceFrame)
    (c : HTMLCanvasElement) (t : Template) : Applied :=
  {| outcome := p; out_cache := cache; out_canvas := c; out_template := t |}.

(** [template.config.orientation || "portrait"] *)
Definition orientation_or_portrait (t : Template) : string :=
  match orientation (config t) with
  | Some o => if bool_decide (o = "") then "portrait" else o
  | None => "portrait"
  end.

(** The phone with its bitmap frame. *)
Definition applyPhoneReal (deviceFrame : DeviceFrame)
    (cache : gmap string DeviceFrame) (canvas : HTMLCanvasElement)
    (img : HTMLImageElement) (t : Template) (customWatermark : string)
    (imageTransform : ImageTransform) (isPaid : bool) : Applied :=
  let orientation := orientation_or_portrait t in
  let frameImage := image deviceFrame in
  let frameTemplate := template deviceFrame in
  let portrait := bool_decide (orientation = "portrait") in
  let displayScale := if portrait then 0.22 else 0.28 in
  let canvasWidth :=
    if portrait then width (frameSize frameTemplate) * displayScale
    else height (frameSize frameTemplate) * displayScale in
  let canvasHeight :=
    if portrait then height (frameSize frameTemplate) * displayScale
    else width (frameSize frameTemplate) * displayScale in
  let canvas := set_width (canvasWidth + padding * 2) canvas in
  let canvas := set_height (canvasHeight + padding * 2) canvas in
  match drawBackground t canvas with
  | Throw => applied Rejected cache canvas t
  | Normal canvas =>
      if portrait then
        let screenX := padding + (screen_x (screen frameTemplate) * displayScale) in
        let screenY := padding + (screen_y (screen frameTemplate) * displayScale) in
        let screenWidth := screen_width (screen frameTemplate) * displayScale in
        let screenHeight := screen_height (screen frameTemplate) * displayScale in
        let t := set_realScreenDimensions screenWidth screenHeight t in
        let canvas :=
          drawImageInPhoneReal img screenX screenY screenWidth screenHeight
            imageTransform orientation canvas in
        let canvas :=
          paint None None
            (DrawImage frameImage padding padding canvasWidth canvasHeight)
            canvas in
        applied (Resolved tt) cache (addWatermark customWatermark isPaid canvas) t
      else
        let centerX := canvas_width canvas / 2 in
        let centerY := canvas_height canvas / 2 in
        let origSX := screen_x (screen frameTemplate) in
        let origSY := screen_y (screen frameTemplate) in
        let origSW := screen_width (screen frameTemplate) in
        let origSH := screen_height (screen frameTemplate) in
        let origFW := width (frameSize frameTemplate) in
        let origFH := height (frameSize frameTemplate) in
        let frameLeft := (canvas_width canvas - canvasWidth) / 2 in
        let frameTop := (canvas_height canvas - canvasHeight) / 2 in
        let rotated :=
          rotatedScreen origSX origSY origSW origSH origFW origFH
            canvasWidth canvasHeight in
        let screenX := frameLeft + screen_x rotated in
        let screenY := frameTop + screen_y rotated in
        let screenWidth := screen_width rotated in
        let screenHeight := screen_height rotated in
        let t := set_realScreenDimensions screenWidth screenHeight t in
        let canvas :=
          drawImageInPhoneReal img screenX screenY screenWidth screenHeight
            imageTransform orientation canvas in
        let origW := width (frameSize frameTemplate) * displayScale in
        let origH := height (frameSize frameTemplate) * displayScale in
        let canvas :=
          paint None (Some (centerX, centerY))
            (DrawImage frameImage (- origW / 2) (- origH / 2) origW origH)
            canvas in
        applied (Resolved tt) cache (addWatermark customWatermark isPaid canvas) t
  end.

(** The phone when its bitmap frame is not available. *)
Definition applyPhoneFallback
    (cache : gmap string DeviceFrame) (canvas : HTMLCanvasElement)
    (img : HTMLImageElement) (t : Template) (customWatermark : string)
    (imageTransform : ImageTransform) (isPaid : bool) : Applied :=
  let orientation := orientation_or_portrait t in
  let portrait := bool_decide (orientation = "portrait") in
  let phoneWidth := if portrait then 380 else 780 in
  let phoneHeight := if portrait then 780 else 380 in
  let t := set_realScreenDimensions phoneWidth phoneHeight t in
  let canvas := set_width (phoneWidth + padding * 2 + 100) canvas in
  let canvas := set_height (phoneHeight + padding * 2 + 100) canvas in
  match drawBackground t canvas with
  | Throw => applied Rejected cache canvas t
  | Normal canvas =>
      let canvas :=
        drawPhoneFrame (canvas_width canvas / 2) (canvas_height canvas / 2)
          phoneWidth phoneHeight orientation canvas in
      let canvas :=
        drawImageInPhone img (canvas_width canvas / 2) (canvas_height canvas / 2)
          phoneWidth phoneHeight imageTransform orientation canvas in
      applied (Resolved tt) cache (addWatermark customWatermark isPaid canvas) t
  end.

(** The tablet with its bitmap frame. *)
Definition applyIpadReal (deviceFrame : DeviceFrame)
    (cache : gmap string DeviceFrame) (canvas : HTMLCanvasElement)
    (img : HTMLImageElement) (t : Template) (customWatermark : string)
    (imageTransform : ImageTransform) (isPaid : bool) : Applied :=
  let frameImage := image deviceFrame in
  let frameTemplate := template deviceFrame in
  let displayScale := 0.35 in
  let canvasWidth := width (frameSize frameTemplate) * displayScale in
  let canvasHeight := height (frameSize frameTemplate) * displayScale in
  let canvas := set_width (canvasWidth + padding * 2) canvas in
  let canvas := set_height (canvasHeight + padding * 2) canvas in
  match drawBackground t canvas with
  | Throw => applied Rejected cache canvas t
  | Normal canvas =>
      let screenX := padding + (screen_x (screen frameTemplate) * displayScale) in
      let screenY := padding + (screen_y (screen frameTemplate) * displayScale) in
      let screenWidth := screen_width (screen frameTemplate) * displayScale in
      let screenHeight := screen_height (screen frameTemplate) * displayScale in
      let t := set_realScreenDimensions screenWidth screenHeight t in
      let canvas :=
        drawImageInDeviceScreen img screenX screenY screenWidth screenHeight
          imageTransform 40 canvas in
      let canvas :=
        paint None None
          (DrawImage frameImage padding padding canvasWidth canvasHeight)
          canvas in
      applied (Resolved tt) cache (addWatermark customWatermark isPaid canvas) t
  end.

(** The tablet when its bitmap frame is not available. *)
Definition applyIpadFallback
    (cache : gmap string DeviceFrame) (canvas : HTMLCanvasElement)
    (img : HTMLImageElement) (t : Template) (customWatermark : string)
    (imageTransform : ImageTransform) (isPaid : bool) : Applied :=
  let ipadWidth := 1024 in
  let ipadHeight := 768 in
  let canvas := set_width (ipadWidth + padding * 2) canvas in
  let canvas := set_height (ipadHeight + padding * 2) canvas in
  match drawBackground t canvas with
  | Throw => applied Rejected cache canvas t
  | Normal canvas =>
      let t := set_realScreenDimensions ipadWidth ipadHeight t in
      let x0 := padding in
      let y0 := padding in
      let canvas := set_fillStyle (Color "#000000") canvas in
      let canvas := paint None None (FillRect x0 y0 ipadWidth ipadHeight) canvas in
      let baseScale :=
        Qmin (ipadWidth / image_width img) (ipadHeight / image_height img) in
      let scaledWidth := image_width img * baseScale * scale imageTransform in
      let scaledHeight := image_height img * baseScale * scale imageTransform in
      let imageX := x0 + (ipadWidth - scaledWidth) / 2 + x imageTransform in
      let imageY := y0 + (ipadHeight - scaledHeight) / 2 + y imageTransform in
      let canvas :=
        paint None None (DrawImage img imageX imageY scaledWidth scaledHeight)
          canvas in
      applied (Resolved tt) cache (addWatermark customWatermark isPaid canvas) t
  end.

(** The laptop. *)
Definition applyMacbook
    (cache : gmap string DeviceFrame) (canvas : HTMLCanvasElement)
    (img : HTMLImageElement) (t : Template) (customWatermark : string)
    (imageTransform : ImageTransform) (isPaid : bool) : Applied :=
  let macbookScreenW := 1280 in
  let macbookScreenH := 800 in
  let mbBezelTop := 28 in
  let mbBezelSide := 14 in
  let mbBezelBottom := 14 in
  let mbLidW := macbookScreenW + mbBezelSide * 2 in
  let mbLidH := macbookScreenH + mbBezelTop + mbBezelBottom in
  let canvas := set_width (mbLidW + padding * 2 + 80) canvas in
  let canvas := set_height (mbLidH + padding * 2 + 80) canvas in
  match drawBackground t canvas with
  | Throw => applied Rejected cache canvas t
  | Normal canvas =>
      let macCenterX := canvas_width canvas / 2 in
      let macCenterY := canvas_height canvas / 2 in
      let canvas :=
        drawMacBookFrame macCenterX macCenterY macbookScreenW macbookScreenH
          canvas in
      let macLidX := macCenterX - mbLidW / 2 in
      let macLidY := macCenterY - mbLidH / 2 - 20 in
      let screenX := macLidX + mbBezelSide in
      let screenY := macLidY + mbBezelTop in
      let t := set_realScreenDimensions macbookScreenW macbookScreenH t in
      let baseScale :=
        Qmin (macbookScreenW / image_width img)
             (macbookScreenH / image_height img) in
      let scaledWidth := image_width img * baseScale * scale imageTransform in
      let scaledHeight := image_height img * baseScale * scale imageTransform in
      let imageX := screenX + (macbookScreenW - scaledWidth) / 2 + x imageTransform in
      let imageY := screenY + (macbookScreenH - scaledHeight) / 2 + y imageTransform in
      let saved := ctx canvas in
      let clip := roundRect screenX screenY macbookScreenW macbookScreenH 2 in
      let canvas := set_fillStyle (Color "#000000") canvas in
      let canvas :=
        paint clip None (FillRect screenX screenY macbookScreenW macbookScreenH)
          canvas in
      let canvas :=
        paint clip None (DrawImage img imageX imageY scaledWidth scaledHeight)
          canvas in
      let canvas := restore saved canvas in
      applied (Resolved tt) cache (addWatermark customWatermark isPaid canvas) t
  end.

(** The browser window: every device that is not the phone, the tablet or
    the laptop. *)
Definition applyBrowser
    (cache : gmap string DeviceFrame) (canvas : HTMLCanvasElement)
    (img : HTMLImageElement) (t : Template) (customWatermark : string)
    (imageTransform : ImageTransform) (isPaid : bool) : Applied :=
  let browserWidth := 1200 in
  let browserHeight := 675 in
  let browserTitleBar := 40 in
  let canvas := set_width (browserWidth + padding * 2) canvas in
  let canvas := set_height (browserHeight + browserTitleBar + padding * 2) canvas in
  match drawBackground t canvas with
  | Throw => applied Rejected cache canvas t
  | Normal canvas =>
      let windowX := padding in
      let windowY := padding in
      let canvas :=
        drawBrowserFrame windowX windowY browserWidth browserHeight canvas in
      let t := set_realScreenDimensions browserWidth browserHeight t in
      let baseScale :=
        Qmin (browserWidth / image_width img) (browserHeight / image_height img) in
      let scaledWidth := image_width img * baseScale * scale imageTransform in
      let scaledHeight := image_height img * baseScale * scale imageTransform in
      let imageX := windowX + (browserWidth - scaledWidth) / 2 + x imageTransform in
      let imageY :=
        windowY + 40 + (browserHeight - scaledHeight) / 2 + y imageTransform in
      let saved := ctx canvas in
      let clip := roundRect windowX (windowY + 40) browserWidth browserHeight 0 in
      let canvas := set_fillStyle (Color "#000000") canvas in
      let canvas :=
        paint clip None (FillRect windowX (windowY + 40) browserWidth browserHeight)
          canvas in
      let canvas :=
        paint clip None (DrawImage img imageX imageY scaledWidth scaledHeight)
          canvas in
      let canvas := restore saved canvas in
      applied (Resolved tt) cache (addWatermark customWatermark isPaid canvas) t
  end.

(** A gradient or solid background, without a device. *)
Definition applyFlat
    (cache : gmap string DeviceFrame) (canvas : HTMLCanvasElement)
    (img : HTMLImageElement) (t : Template) (customWatermark : string)
    (imageTransform : ImageTransform) (isPaid : bool) : Applied :=
  let maxWidth := 1600 in
  let scale := Qmin (maxWidth / image_width img) 1 in
  let scaledWidth := image_width img * scale in
  let scaledHeight := image_height img * scale in
  let canvas := set_width (scaledWidth + padding * 2) canvas in
  let canvas := set_height (scaledHeight + padding * 2) canvas in
  match drawBackground t canvas with
  | Throw => applied Rejected cache canvas t
  | Normal canvas =>
      let canvas := set_shadowColor "rgba(0, 0, 0, 0.3)" canvas in
      let canvas := set_shadowBlur 40 canvas in
      let canvas := set_shadowOffsetY 20 canvas in
      let imageX := padding in
      let imageY := padding in
      let saved := ctx canvas in
      let clip := roundRect imageX imageY scaledWidth scaledHeight 12 in
      let canvas :=
        paint clip None (DrawImage img imageX imageY scaledWidth scaledHeight)
          canvas in
      let canvas := restore saved canvas in
      let canvas := set_shadowColor "transparent" canvas in
      let canvas := set_shadowBlur 0 canvas in
      let canvas := set_shadowOffsetY 0 canvas in
      applied (Resolved tt) cache (addWatermark customWatermark isPaid canvas) t
  end.

(** [applyTemplate]: the guard on the context, then the branch of the
    template, each of which ends with the watermark. *)
Definition applyTemplate (net : Network) (cache : gmap string DeviceFrame)
    (canvas : HTMLCanvasElement) (img : HTMLImageElement) (t : Template)
    (customWatermark : string) (imageTransform : ImageTransform)
    (isPaid : bool) : Applied :=
  if negb (has_context canvas) then applied (Resolved tt) cache canvas t
  else if bool_decide (type t = "device") then
    if bool_decide (device (config t) = Some "phone") then
      let framePath := "/device-frames/iphone-16-pro-max-black.png" in
      match loadDeviceFrame net cache framePath with
      | (Rejected, cache) => applied Rejected cache canvas t
      | (Resolved (Some deviceFrame), cache) =>
          applyPhoneReal deviceFrame cache canvas img t customWatermark
            imageTransform isPaid
      | (Resolved None, cache) =>
          applyPhoneFallback cache canvas img t customWatermark
            imageTransform isPaid
      end
    else if bool_decide (device (config t) = Some "ipad") then
      let framePath := "/device-frames/ipad-pro-13-landscape-silver.png" in
      match loadDeviceFrame net cache framePath with
      | (Rejected, cache) => applied Rejected cache canvas t
      | (Resolved (Some deviceFrame), cache) =>
          applyIpadReal deviceFrame cache canvas img t customWatermark
            imageTransform isPaid
      | (Resolved None, cache) =>
          applyIpadFallback cache canvas img t customWatermark
            imageTransform isPaid
      end
    else if bool_decide (device (config t) = Some "macbook") then
      applyMacbook cache canvas img t customWatermark imageTransform isPaid
    else
      applyBrowser cache canvas img t customWatermark imageTransform isPaid
  else
    applyFlat cache canvas img t customWatermark imageTransform isPaid.

(** *** What the frames place *)

(** The screen area that [drawMacBookFrame] fills: the lines of its body
    that place the lid and, within it, the screen. *)
Definition macBookScreen (centerX centerY width height : Q) : Screen :=
  let screenWidth := width in
  let screenHeight := height in
  let bezelTop := 28 in
  let bezelSide := 14 in
  let bezelBottom := 14 in
  let lidWidth := screenWidth + bezelSide * 2 in
  let lidHeight := screenHeight + bezelTop + bezelBottom in
  let x := centerX - lidWidth / 2 in
  let y := centerY - lidHeight / 2 - 20 in
  let screenX := x + bezelSide in
  let screenY := y + bezelTop in
  {| screen_x := screenX; screen_y := screenY;
     screen_width := screenWidth; screen_height := screenHeight |}.

(** The title bar that [drawBrowserFrame] fills, [roundRect(x, y, width, 40)],
    and the border of the window that it strokes,
    [roundRect(x, y, width, height + 40)]. *)
Definition browserTitleBar (x y width height : Q) : Screen :=
  {| screen_x := x; screen_y := y; screen_width := width; screen_height := 40 |}.

Definition browserBorder (x y width height : Q) : Screen :=
  {| screen_x := x; screen_y := y;
     screen_width := width; screen_height := height + 40 |}.

(** *** [exportCanvas] *)

(** A file that the browser has downloaded: its name and the bitmap that
    was encoded into it. *)
Record Download : Type := {
  download : string;
  content : Q * Q * list Paint
}.

(** [exportCanvas].  [canvas.toBlob] hands its callback the PNG encoding
    of the canvas, or [null] when the canvas cannot be encoded; [encodes]
    tells which.  The canvas itself is only read. *)
Definition exportCanvas (encodes : bool) (canvas : HTMLCanvasElement)
    (filename : string) (saved : list Download) : list Download :=
  if encodes then
    saved ++
      [ {| download := filename +:+ ".png";
           content := (canvas_width canvas, canvas_height canvas, painted canvas) |} ]
  else saved.

End Canvas.

(** ** The fill presets of [src/components/ScreenshotEditor.tsx] *)

Module ScreenshotEditor.

Import Canvas.
Local Open Scope Q_scope.

(** [selectedTemplate?.config?.device] as a condition: a template is
    selected and names a device. *)
Definition has_device (selectedTemplate : option Template) : bool :=
  match selectedTemplate with
  | Some t =>
      match device (config t) with
      | Some d => negb (bool_decide (d = ""))
      | None => false
      end
  | None => false
  end.

Definition getScreenDimensions (selectedTemplate : option Template)
    (realScreenDimsRef : option Size) : Size :=
  match selectedTemplate with
  | Some t =>
      if negb (has_device selectedTemplate) then {| width := 0; height := 0 |}
      else
        match realScreenDimsRef with
        | Some d => d
        | None =>
            if bool_decide (device (config t) = Some "phone") then
              let orientation := orientation_or_portrait t in
              {| width := if bool_decide (orientation = "portrait") then 380 else 780;
                 height := if bool_decide (orientation = "portrait") then 780 else 380 |}
            else if bool_decide (device (config t) = Some "ipad") then
              {| width := 1024; height := 768 |}
            else if bool_decide (device (config t) = Some "macbook") then
              {| width := 1280; height := 800 |}
            else if bool_decide (device (config t) = Some "browser") then
              {| width := 1200; height := 675 |}
            else {| width := 0; height := 0 |}
        end
  | None => {| width := 0; height := 0 |}
  end.

(** The three presets give the transform that they hand to
    [applyFillTransform], or nothing when their guard returns. *)
Definition handleFillScreen (selectedTemplate : option Template)
    (image : option HTMLImageElement) : option ImageTransform :=
  match image with
  | Some _ =>
      if negb (has_device selectedTemplate) then None
      else Some {| scale := 1; x := 0; y := 0 |}
  | None => None
  end.

Definition handleFillHorizontal (selectedTemplate : option Template)
    (image : option HTMLImageElement) (realScreenDimsRef : option Size)
  : option ImageTransform :=
  match image with
  | Some img =>
      if negb (has_device selectedTemplate) then None
      else
        let d := getScreenDimensions selectedTemplate realScreenDimsRef in
        let sw := width d in
        let sh := height d in
        let coverScale := Qmax (sw / image_width img) (sh / image_height img) in
        let widthScale := sw / image_width img in
        let relativeScale := widthScale / coverScale in
        Some {| scale := relativeScale; x := 0; y := 0 |}
  | None => None
  end.

Definition handleFillVertical (selectedTemplate : option Template)
    (image : option HTMLImageElement) (realScreenDimsRef : option Size)
  : option ImageTransform :=
  match image with
  | Some img =>
      if negb (has_device selectedTemplate) then None
      else
        let d := getScreenDimensions selectedTemplate realScreenDimsRef in
        let sw := width d in
        let sh := height d in
        let coverScale := Qmax (sw / image_width img) (sh / image_height img) in
        let heightScale := sh / image_height img in
        let relativeScale := heightScale / coverScale in
        Some {| scale := relativeScale; x := 0; y := 0 |}
  | None => None
  end.

(** The render that [applyFillTransform] forces with the transform it was
    given.  The template handed to [applyTemplate] is a copy of the
    selected one; the fields added to the copy are none that
    [applyTemplate] reads. *)
Definition applyFillTransform (net : Network) (cache : gmap string DeviceFrame)
    (canvas : option HTMLCanvasElement) (image : option HTMLImageElement)
    (selectedTemplate : option Template) (customWatermark : string)
    (isPaid : bool) (transform : ImageTransform) : option Applied :=
  match canvas, image, selectedTemplate with
  | Some c, Some img, Some t =>
      Some (applyTemplate net cache c img t customWatermark transform isPaid)
  | _, _, _ => None
  end.

(** *** Dragging the image *)

Record MouseEvent : Type := { clientX : Q; clientY : Q }.

(** The state that the three mouse handlers share. *)
Record Drag : Type := {
  imageTransform : ImageTransform;
  isTransforming : bool;
  transformStartRef : option (Q * Q)
}.

Definition handleMouseDown (selectedTemplate : option Template)
    (e : MouseEvent) (d : Drag) : Drag :=
  if negb (has_device selectedTemplate) then d
  else
    {| imageTransform := imageTransform d;
       isTransforming := true;
       transformStartRef :=
         Some (clientX e - x (imageTransform d),
               clientY e - y (imageTransform d)) |}.

Definition handleMouseMove (e : MouseEvent) (d : Drag) : Drag :=
  match transformStartRef d with
  | Some (startX, startY) =>
      if negb (isTransforming d) then d
      else
        {| imageTransform :=
             {| scale := scale (imageTransform d);
                x := clientX e - startX;
                y := clientY e - startY |};
           isTransforming := isTransforming d;
           transformStartRef := transformStartRef d |}
  | None => d
  end.

Definition handleMouseUp (d : Drag) : Drag :=
  {| imageTransform := imageTransform d;
     isTransforming := false;
     transformStartRef := None |}.

(** *** Choosing a template *)

(** The gradient that a device gets when no background was chosen. *)
Definition default_gradient : Template :=
  {| id := "gradient-purple-pink"; name := "Purple Dream"; type := "gradient";
     config :=
       {| device := None; orientation := None;
          colors := ["#4c1d95"; "#ec4899"; "#fce7f3"]; angle := 135;
          color := ""; _realScreenDimensions := None |} |}.

Definition is_background (t : Template) : bool :=
  orb (bool_decide (type t = "gradient")) (bool_decide (type t = "solid")).

(** [handleTemplateChange] on the selected template and the active
    background. *)
Definition handleTemplateChange (template : Template)
    (sel : option Template * option Template)
  : option Template * option Template :=
  let (selectedTemplate, activeBackground) := sel in
  let activeBackground1 :=
    if is_background template then Some template else activeBackground in
  let selected_is_device :=
    match selectedTemplate with
    | Some st => bool_decide (type st = "device")
    | None => false
    end in
  if andb (is_background template) selected_is_device then
    (selectedTemplate, activeBackground1)
  else
    let activeBackground2 :=
      match activeBackground with
      | None =>
          if bool_decide (type template = "device") then Some default_gradient
          else activeBackground1
      | Some _ => activeBackground1
      end in
    (Some template, activeBackground2).

(** *** Downloading *)

Import Freebie.

(** What [/api/verify] answers for a subscription: the request or the
    decoding of its answer fails, or the answer says whether the
    subscription is active. *)
Inductive Verification : Type :=
| VerifyRejects
| VerifyData (active : bool).

(** The editor as [handleDownload] sees it: the browser with its store,
    the entitlement that the component read when it was mounted, whether
    the paywall is shown, the canvas, and what the handler has caused:
    the files downloaded, the alerts shown, and the subscriptions it asked
    the server about. *)
Record Editor : Type := {
  storage : Browser;
  isPaid : bool;
  showPaywall : bool;
  canvasRef : option HTMLCanvasElement;
  saved : list Download;
  alerts : list string;
  verifications : list string
}.

(** The second half of [handleDownload], from "Check if user has hit free
    limit" on. *)
Definition download_or_paywall (encodes : bool) (e : Editor) : Editor :=
  let (limited, st) :=
    if negb (isPaid e) then hasHitFreeLimit (storage e)
    else (false, storage e) in
  if andb (negb (isPaid e)) limited then
    {| storage := st; isPaid := isPaid e; showPaywall := true;
       canvasRef := canvasRef e; saved := saved e; alerts := alerts e;
       verifications := verifications e |}
  else
    match canvasRef e with
    | Some canvas =>
        {| storage := if negb (isPaid e) then incrementUsage st else st;
           isPaid := isPaid e; showPaywall := showPaywall e;
           canvasRef := canvasRef e;
           saved := exportCanvas encodes canvas "appshot-pro" (saved e);
           alerts := alerts e; verifications := verifications e |}
    | None =>
        {| storage := st; isPaid := isPaid e; showPaywall := showPaywall e;
           canvasRef := canvasRef e; saved := saved e; alerts := alerts e;
           verifications := verifications e |}
    end.

Definition handleDownload (verify : string -> Verification) (dateNow : Z)
    (encodes : bool) (e : Editor) : Editor :=
  if isPaid e then
    match getSubscriptionId (storage e) with
    | Some subscriptionId =>
        if andb (negb (bool_decide (subscriptionId = "")))
                (negb (isVerificationCached dateNow (storage e))) then
          let asked :=
            {| storage := storage e; isPaid := isPaid e;
               showPaywall := showPaywall e; canvasRef := canvasRef e;
               saved := saved e; alerts := alerts e;
               verifications := verifications e ++ [subscriptionId] |} in
          match verify subscriptionId with
          | VerifyData false =>
              {| storage := revokePaid (storage e); isPaid := false;
                 showPaywall := true; canvasRef := canvasRef e;
                 saved := saved e;
                 alerts := alerts e ++
                   ["Your subscription is no longer active. Please renew to continue using Pro features."];
                 verifications := verifications asked |}
          | VerifyData true =>
              download_or_paywall encodes
                {| storage := updateVerificationCache dateNow (storage e);
                   isPaid := isPaid e; showPaywall := showPaywall e;
                   canvasRef := canvasRef e; saved := saved e;
                   alerts := alerts e;
                   verifications := verifications asked |}
          | VerifyRejects => download_or_paywall encodes asked
          end
        else download_or_paywall encodes e
    | None => download_or_paywall encodes e
    end
  else download_or_paywall encodes e.

End ScreenshotEditor.

(** ** The handlers of the template selector *)

Module TemplateSelector.

Import Canvas.

(** [{ ...template, config: { ...template.config, orientation } }] *)
Definition with_orientation (o : string) (t : Template) : Template :=
  {| id := id t; name := name t; type := type t;
     config :=
       {| device := device (config t);
          orientation := Some o;
          colors := colors (config t);
          angle := angle (config t);
          color := color (config t);
          _realScreenDimensions := _realScreenDimensions (config t) |} |}.

(** [handlePhoneOrientationToggle]: the new orientation, and the template
    handed to [onSelectTemplate] when the phone is selected. *)
Definition handlePhoneOrientationToggle (phoneOrientation : string)
    (selectedTemplate : option Template) : string * option Template :=
  let newOrientation :=
    if bool_decide (phoneOrientation = "portrait") then "landscape"
    else "portrait" in
  match selectedTemplate with
  | Some st =>
      if bool_decide (device (config st) = Some "phone") then
        (newOrientation, Some (with_orientation newOrientation st))
      else (newOrientation, None)
  | None => (newOrientation, None)
  end.

(** [handleTemplateSelect]: the template handed to [onSelectTemplate], if
    any. *)
Definition handleTemplateSelect (templates : list Template)
    (phoneOrientation : string) (selectedTemplate : option Template)
    (template : Template) : option Template :=
  let same :=
    match selectedTemplate with
    | Some st => bool_decide (id st = id template)
    | None => false
    end in
  if andb same (bool_decide (type template = "device")) then
    List.find (fun t => bool_decide (type t = "gradient")) templates
  else if bool_decide (device (config template) = Some "phone") then
    Some (with_orientation phoneOrientation template)
  else Some template.

End TemplateSelector.

(** ** Reading a composite *)

Module Composite.

Import Canvas.
Local Open Scope Q_scope.

(** The texts that have been drawn, in drawing order. *)
Definition is_text (p : Paint) : bool :=
  match paint_shape p with
  | FillText _ _ _ | StrokeText _ _ _ => true
  | _ => false
  end.

Definition texts (c : HTMLCanvasElement) : list Paint :=
  List.filter is_text (painted c).

(** The rectangle [img] was drawn into, with the clipping path it was
    drawn under: the first [drawImage] of that image. *)
Fixpoint drawn (img : HTMLImageElement) (l : list Paint)
  : option (Screen * option RoundRect) :=
  match l with
  | [] => None
  | p :: r =>
      match paint_shape p with
      | DrawImage i x y w h =>
          if String.eqb (src i) (src img) then
            Some ({| screen_x := x; screen_y := y;
                     screen_width := w; screen_height := h |}, paint_clip p)
          else drawn img r
      | _ => drawn img r
      end
  end.

End Composite.

(** ** The vocabulary of the properties *)

Module Quota.

Import Freebie.

(** A count is non-negative: an integer at least zero. *)
Definition non_negative (n : number) : Prop :=
  match n with
  | Int z => 0 <= z
  | _ => False
  end.

Fixpoint all_digits (s : string) : bool :=
  match s with
  | EmptyString => true
  | String c r =>
      match digit_of c with
      | Some _ => all_digits r
      | None => false
      end
  end.

(** [Number.MAX_SAFE_INTEGER].  Up to it in absolute value an integer is
    a JavaScript number of its own, [count + 1] is exact, [String] prints
    all its digits and [parseInt] reads them back; beyond it the program
    rounds and, from [1e21], prints an exponent.  The integers of this
    embedding are exact throughout, so a property that depends on the
    value of a count is stated for counts within this range. *)
Definition MAX_SAFE_INTEGER : Z := 2 ^ 53 - 1.

Definition safe_integer (z : Z) : Prop :=
  - MAX_SAFE_INTEGER <= z <= MAX_SAFE_INTEGER.


(** The usage entry of the store is absent or holds decimal digits only,
    as do ["0"] and [String(count + 1)], the values that the module
    writes. *)
Definition uses_well_formed (b : Browser) : Prop :=
  forall s, getItem USES b = Some s -> all_digits s = true.

(** What is stored as the count: nothing or the empty string count as
    zero, anything else as the integer it starts with. *)
Definition stored_count (b : Browser) : number :=
  match getItem USES b with
  | Some s => if bool_decide (s = "") then Int 0 else parseInt10 s
  | None => Int 0
  end.

(** [getUsageCount] restarts the quota in a new month: it stores the
    month and a count of zero, touches no other key, and returns zero. *)
Definition restarts_quota (b : Browser) : Prop :=
  fst (getUsageCount b) = Int 0 /\
  getItem RESET_DATE (snd (getUsageCount b)) = Some (getCurrentMonth b) /\
  getItem USES (snd (getUsageCount b)) = Some "0" /\
  forall k, k <> RESET_DATE -> k <> USES ->
    getItem k (snd (getUsageCount b)) = getItem k b.

(** [getUsageCount] reads the count and writes nothing. *)
Definition reads_count (b : Browser) : Prop :=
  fst (getUsageCount b) = stored_count b /\ snd (getUsageCount b) = b.

(** A browser in November 2026 whose store holds the given entries. *)
Definition browser_with (store : gmap string string) : Browser :=
  {| window_defined := true;
     localStorage := store;
     now := {| getFullYear := 2026; getMonth := 10 |} |}.

(** A paid user who has used seven exports this month. *)
Definition paid_browser : Browser :=
  browser_with {[ PAID := "true"; RESET_DATE := "2026-11"; USES := "7" ]}.

(** A store whose usage entry is a negative numeral. *)
Definition negative_browser : Browser :=
  browser_with {[ RESET_DATE := "2026-11"; USES := "-5" ]}.

(** A free user who has used two exports this month. *)
Definition free_browser : Browser :=
  browser_with {[ RESET_DATE := "2026-11"; USES := "2" ]}.

End Quota.

Module Render.

Import Canvas.
Local Open Scope Q_scope.

(** What the pixels of a canvas are determined by: its size and the
    drawing calls made since it was cleared. *)
Definition bitmap (c : HTMLCanvasElement) : Q * Q * list Paint :=
  (canvas_width c, canvas_height c, painted c).

(** The frame asset at [framePath] is not in the cache and cannot be
    loaded: the descriptor does not arrive or is not JSON, or the bitmap
    does not decode. *)
Definition unavailable (net : Network) (cache : gmap string DeviceFrame)
    (framePath : string) : Prop :=
  cache !! framePath = None /\
  match fetch net (replace ".png" ".json" framePath) with
  | Json _ => load_image net framePath = None
  | _ => True
  end.

Definition phone_frame_path : string :=
  "/device-frames/iphone-16-pro-max-black.png".
Definition ipad_frame_path : string :=
  "/device-frames/ipad-pro-13-landscape-silver.png".

(** The quarter-turn of [applyTemplate] applied to a rectangle [s] of a
    frame of size [from], onto a frame of size [to]. *)
Definition rotate (s : Screen) (from to : Size) : Screen :=
  rotatedScreen (screen_x s) (screen_y s) (screen_width s) (screen_height s)
    (width from) (height from) (width to) (height to).

(** The quarter-turn clockwise of a rectangle [s] of a frame of size
    [from], stretched onto a frame of size [to]: the point [(u, v)] of
    the frame goes to [(height from - v, u)].  It is the turn that
    [ctx.rotate(Math.PI / 2)] gives the bitmap of the frame. *)
Definition clockwise (s : Screen) (from to : Size) : Screen :=
  {| screen_x :=
       (height from - screen_y s - screen_height s) / height from * width to;
     screen_y := screen_x s / width from * height to;
     screen_width := screen_height s / height from * width to;
     screen_height := screen_width s / width from * height to |}.

(** The quarter-turn counter-clockwise, by -90 degrees: the point
    [(u, v)] of the frame goes to [(v, width from - u)]. *)
Definition counter_clockwise (s : Screen) (from to : Size) : Screen :=
  {| screen_x := screen_y s / height from * width to;
     screen_y :=
       (width from - screen_x s - screen_width s) / width from * height to;
     screen_width := screen_height s / height from * width to;
     screen_height := screen_width s / width from * height to |}.


(** A rectangle moved by [(dx, dy)]. *)
Definition moved (dx dy : Q) (s : Screen) : Screen :=
  {| screen_x := dx + screen_x s; screen_y := dy + screen_y s;
     screen_width := screen_width s; screen_height := screen_height s |}.

(** Two rectangles are the same up to the representation of their
    rational coordinates. *)
Definition same_screen (a b : Screen) : Prop :=
  screen_x a == screen_x b /\ screen_y a == screen_y b /\
  screen_width a == screen_width b /\ screen_height a == screen_height b.

(** *** The turned frame *)

(** Where [drawImage(bitmap, x, y, w, h)] puts the screen of the frame:
    the bitmap of native size [frameSize] is stretched onto [w] by [h]. *)
Definition drawn_screen (d : DeviceFrameTemplate) (x y w h : Q) : Screen :=
  {| screen_x := x + screen_x (screen d) * (w / width (frameSize d));
     screen_y := y + screen_y (screen d) * (h / height (frameSize d));
     screen_width := screen_width (screen d) * (w / width (frameSize d));
     screen_height := screen_height (screen d) * (h / height (frameSize d)) |}.

(** Where a rectangle lands that is drawn after
    [ctx.translate(cx, cy); ctx.rotate(Math.PI / 2)]: the point [(u, v)]
    goes to [(cx - v, cy + u)]. *)
Definition turned (cx cy : Q) (r : Screen) : Screen :=
  {| screen_x := cx - screen_y r - screen_height r;
     screen_y := cy + screen_x r;
     screen_width := screen_height r;
     screen_height := screen_width r |}.

(** The screen sits in the middle of its frame. *)
Definition centred (d : DeviceFrameTemplate) : Prop :=
  screen_x (screen d) + screen_width (screen d) + screen_x (screen d)
    == width (frameSize d) /\
  screen_y (screen d) + screen_height (screen d) + screen_y (screen d)
    == height (frameSize d).

(** A phone frame whose screen is nearer to the top than to the bottom. *)
Definition lopsided_descriptor : DeviceFrameTemplate :=
  {| frame := "phone.png"; mask := "";
     screen := {| screen_x := 100; screen_y := 100;
                  screen_width := 1800; screen_height := 3700 |};
     frameSize := {| width := 2000; height := 4000 |} |}.

(** *** The watermark *)

(** The branding stamp: the fixed text, right-aligned at the bottom
    right of the canvas. *)
Definition is_branding (c : HTMLCanvasElement) (p : Paint) : Prop :=
  paint_shape p =
    FillText "AppShot Free" (canvas_width c - 30) (canvas_height c - 30) /\
  textAlign (paint_state p) = "right".

(** The custom stamp: the outline, then the fill, centred at the bottom
    of the canvas. *)
Definition is_custom_outline (c : HTMLCanvasElement) (text : string)
    (p : Paint) : Prop :=
  paint_shape p = StrokeText text (canvas_width c / 2) (canvas_height c - 30) /\
  textAlign (paint_state p) = "center".

Definition is_custom_fill (c : HTMLCanvasElement) (text : string)
    (p : Paint) : Prop :=
  paint_shape p = FillText text (canvas_width c / 2) (canvas_height c - 30) /\
  textAlign (paint_state p) = "center".

(** *** The fallback *)

Definition shapes (c : HTMLCanvasElement) : list Shape :=
  List.map paint_shape (painted c).

(** The hardcoded screen of the phone. *)
Definition fallback_phone (t : Template) : Size :=
  if bool_decide (orientation_or_portrait t = "portrait")
  then {| width := 380; height := 780 |}
  else {| width := 780; height := 380 |}.

Definition fallback_tablet : Size := {| width := 1024; height := 768 |}.

(** *** What a render depends on *)

(** A canvas of which only the availability of a context is kept. *)
Definition cleared (c : HTMLCanvasElement) : HTMLCanvasElement :=
  {| canvas_width := 0; canvas_height := 0; has_context := has_context c;
     ctx := default_context; painted := [] |}.

(** A template without the screen dimensions that a render stored in
    it. *)
Definition without_dimensions (t : Template) : Template :=
  {| id := id t; name := name t; type := type t;
     config :=
       {| device := device (config t);
          orientation := orientation (config t);
          colors := colors (config t);
          angle := angle (config t);
          color := color (config t);
          _realScreenDimensions := None |} |}.

(** What a call leaves behind for the next one: the context is still
    there, the template reads as before, and the cache is [cache]. *)
Definition left_by (cache : gmap string DeviceFrame) (c : HTMLCanvasElement)
    (t : Template) (r : Applied) : Prop :=
  has_context (out_canvas r) = has_context c /\
  without_dimensions (out_template r) = without_dimensions t /\
  out_cache r = cache.

(** *** Sample inputs *)

Definition blank_canvas : HTMLCanvasElement :=
  {| canvas_width := 300; canvas_height := 150; has_context := true;
     ctx := default_context; painted := [] |}.

(** A square screenshot. *)
Definition screenshot : HTMLImageElement :=
  {| src := "data:image/png;base64,AAAA";
     image_width := 1000; image_height := 1000 |}.

Definition device_template (d : string) (o : option string) : Template :=
  {| id := "device-" +:+ d; name := d; type := "device";
     config :=
       {| device := Some d; orientation := o; colors := []; angle := 0;
          color := ""; _realScreenDimensions := None |} |}.

Definition phone_portrait : Template := device_template "phone" (Some "portrait").
Definition phone_landscape : Template := device_template "phone" (Some "landscape").
Definition ipad : Template := device_template "ipad" None.
Definition browser : Template := device_template "browser" None.

(** A server that does not have the frame assets. *)
Definition net_down : Network :=
  {| fetch := fun _ => NotOk; load_image := fun _ => None |}.

(** A phone frame of 2000 by 4000 pixels whose screen leaves a margin of
    100 pixels on every side, and a server that has it. *)
Definition sample_descriptor : DeviceFrameTemplate :=
  {| frame := "iphone-16-pro-max-black.png"; mask := "";
     screen := {| screen_x := 100; screen_y := 100;
                  screen_width := 1800; screen_height := 3800 |};
     frameSize := {| width := 2000; height := 4000 |} |}.

Definition net_up : Network :=
  {| fetch := fun _ => Json sample_descriptor;
     load_image := fun p =>
       Some {| src := p; image_width := 2000; image_height := 4000 |} |}.

Definition identity_transform : ImageTransform := {| scale := 1; x := 0; y := 0 |}.

End Render.

(** ** The vocabulary of the further properties *)

Module Session.

Import Freebie Quota Canvas ScreenshotEditor Render.


(** A free user whose last export was in October. *)
Definition october_browser : Browser :=
  browser_with {[ RESET_DATE := "2026-10"; USES := "3" ]}.

(** A subscriber who was never verified. *)
Definition subscriber_browser : Browser :=
  browser_with {[ PAID := "true"; CUSTOMER_ID := "cus_1";
                  SUBSCRIPTION_ID := "sub_1" ]}.

(** An editor on a browser, before any download. *)
Definition editor_on (b : Browser) (paid : bool) : Editor :=
  {| storage := b; isPaid := paid; showPaywall := false;
     canvasRef := Some blank_canvas; saved := []; alerts := [];
     verifications := [] |}.

(** How many files the editor has downloaded. *)
Definition downloaded (e : Editor) : nat := List.length (saved e).

(** A drag that has not started. *)
Definition at_rest (t : ImageTransform) : Drag :=
  {| imageTransform := t; isTransforming := false; transformStartRef := None |}.

End Session.

Module Geometry.

Import Canvas Render.
Local Open Scope Q_scope.

Definition clip_screen (c : RoundRect) : Screen :=
  {| screen_x := clip_x c; screen_y := clip_y c;
     screen_width := clip_width c; screen_height := clip_height c |}.

(** Where the screen of the frame [df] is on the canvas: read off the
    first [drawImage] of its bitmap. *)
Fixpoint frame_screen (df : DeviceFrame) (l : list Paint) : option Screen :=
  match l with
  | [] => None
  | p :: r =>
      match paint_shape p with
      | DrawImage i x y w h =>
          if String.eqb (src i) (src (image df)) then
            Some match paint_rotate p with
                 | Some (cx, cy) => turned cx cy (drawn_screen (template df) x y w h)
                 | None => drawn_screen (template df) x y w h
                 end
          else frame_screen df r
      | _ => frame_screen df r
      end
  end.

Definition frame_of (d : DeviceFrameTemplate) : DeviceFrame :=
  {| image := {| src := phone_frame_path;
                 image_width := width (frameSize d);
                 image_height := height (frameSize d) |};
     template := d |}.

(** A laptop template, and a gradient of a single colour. *)
Definition macbook : Template := device_template "macbook" None.

Definition single_colour : Template :=
  {| id := "gradient-one"; name := "One"; type := "gradient";
     config :=
       {| device := None; orientation := None; colors := ["#4c1d95"];
          angle := 135; color := ""; _realScreenDimensions := None |} |}.

(** The frame cache once the phone frame of descriptor [d] has loaded. *)
Definition phone_cache (d : DeviceFrameTemplate) : gmap string DeviceFrame :=
  {[ phone_frame_path := frame_of d ]}.

(** A whole number, as the width and the height of an image are. *)
Definition whole (q : Q) : Prop := inject_Z (Qfloor q) == q.

End Geometry.

(** ** The arithmetic of the program *)

(** The numbers of [canvas.ts] and of the editor are IEEE 754 doubles,
    and every operation rounds its exact result to the nearest double,
    ties to even.  [Canvas] computes with the exact rationals; this
    module computes the same lines with the rounding of the program, for
    the properties that rounding decides. *)
Module Double.

Import Canvas ScreenshotEditor.
Local Open Scope Q_scope.

(** The binade of a positive rational: the [e] with [2^e <= x < 2^(e+1)]. *)
Definition binade (x : Q) : Z :=
  if Qle_bool 1 x then Z.log2 (Qfloor x)
  else (- Z.log2_up (Qceiling (/ x)))%Z.

(** The nearest integer, the even one of two that are equally near. *)
Definition nearest_even (m : Q) : Z :=
  let f := Qfloor m in
  match Qcompare (m - inject_Z f) (1 # 2) with
  | Lt => f
  | Gt => (f + 1)%Z
  | Eq => if Z.even f then f else (f + 1)%Z
  end.

(** The distance between the doubles of the binade of [x]: a double has
    53 significant bits. *)
Definition ulp (x : Q) : Q := 2 ^ (binade x - 52).

Definition round_pos (x : Q) : Q :=
  inject_Z (nearest_even (x / ulp x)) * ulp x.

(** The double nearest to [x].  The exponent is not bounded: [round] is
    the rounding of the program for a result whose magnitude is a normal
    double's, between [2^-1022] and [2^1024]; the properties keep their
    inputs [moderate], which keeps every result there. *)
Definition round (x : Q) : Q :=
  match Qcompare x 0 with
  | Eq => 0
  | Gt => round_pos x
  | Lt => - round_pos (- x)
  end.

(** [a + b], [a - b], [a * b] and [a / b] of two doubles. *)
Definition add (a b : Q) : Q := round (a + b).
Definition sub (a b : Q) : Q := round (a - b).
Definition mul (a b : Q) : Q := round (a * b).
Definition div (a b : Q) : Q := round (a / b).

(** The relative error of one rounding is at most [2^-53]; three
    roundings in a row stay within [tolerance], [2^-51]. *)
Definition unit_roundoff : Q := 1 # 9007199254740992.
Definition tolerance : Q := 1 # 2251799813685248.

(** The relative distance between two fit ratios from which on the
    rounding cannot hide which of them is the smaller, [2^-50]. *)
Definition margin : Q := 1 # 1125899906842624.

(** What three roundings in a row can add and take away. *)
Definition slack : Q :=
  (1 + unit_roundoff) * (1 + unit_roundoff) * (1 + unit_roundoff).
Definition shortfall : Q :=
  (1 - unit_roundoff) * (1 - unit_roundoff) * (1 - unit_roundoff).

(** A magnitude between [2^-100] and [2^100], as every length in pixels
    and every ratio of two of them is. *)
Definition moderate (x : Q) : Prop := 2 ^ (-100) <= x /\ x <= 2 ^ 100.

(** The lines "Calculate scaled image dimensions" and "Calculate position
    with transform offset" of the three [drawImageIn...] functions. *)
Definition scaledImage (img : HTMLImageElement)
    (screenWidth screenHeight : Q) (transform : ImageTransform)
    (screenCenterX screenCenterY : Q) : Screen :=
  let baseScale :=
    Qmin (div screenWidth (image_width img))
         (div screenHeight (image_height img)) in
  let finalScale := mul baseScale (scale transform) in
  let scaledWidth := mul (image_width img) finalScale in
  let scaledHeight := mul (image_height img) finalScale in
  let imageCenterX := add screenCenterX (x transform) in
  let imageCenterY := add screenCenterY (y transform) in
  let imageX := sub imageCenterX (div scaledWidth 2) in
  let imageY := sub imageCenterY (div scaledHeight 2) in
  {| screen_x := imageX; screen_y := imageY;
     screen_width := scaledWidth; screen_height := scaledHeight |}.

Definition drawImageInPhoneReal (img : HTMLImageElement)
    (screenX screenY screenWidth screenHeight : Q) (transform : ImageTransform)
    (orientation : string) (c : HTMLCanvasElement) : HTMLCanvasElement :=
  let screenCornerRadius := 37 in
  let saved := ctx c in
  let clip :=
    roundRect screenX screenY screenWidth screenHeight screenCornerRadius in
  let c := set_fillStyle (Color "#ffffff") c in
  let c := paint clip None (FillRect screenX screenY screenWidth screenHeight) c in
  let c :=
    drawScaled clip img
      (scaledImage img screenWidth screenHeight transform
         (add screenX (div screenWidth 2))
         (add screenY (div screenHeight 2))) c in
  restore saved c.

(** The two presets that compute: [handleFillScreen] hands over
    constants. *)
Definition handleFillHorizontal (selectedTemplate : option Template)
    (image : option HTMLImageElement) (realScreenDimsRef : option Size)
  : option ImageTransform :=
  match image with
  | Some img =>
      if negb (has_device selectedTemplate) then None
      else
        let d := getScreenDimensions selectedTemplate realScreenDimsRef in
        let sw := width d in
        let sh := height d in
        let coverScale :=
          Qmax (div sw (image_width img)) (div sh (image_height img)) in
        let widthScale := div sw (image_width img) in
        let relativeScale := div widthScale coverScale in
        Some {| scale := relativeScale; x := 0; y := 0 |}
  | None => None
  end.

Definition handleFillVertical (selectedTemplate : option Template)
    (image : option HTMLImageElement) (realScreenDimsRef : option Size)
  : option ImageTransform :=
  match image with
  | Some img =>
      if negb (has_device selectedTemplate) then None
      else
        let d := getScreenDimensions selectedTemplate realScreenDimsRef in
        let sw := width d in
        let sh := height d in
        let coverScale :=
          Qmax (div sw (image_width img)) (div sh (image_height img)) in
        let heightScale := div sh (image_height img) in
        let relativeScale := div heightScale coverScale in
        Some {| scale := relativeScale; x := 0; y := 0 |}
  | None => None
  end.

(** A photograph of 1125 by 2436 pixels. *)
Definition photo : HTMLImageElement :=
  {| src := "data:image/png;base64,BBBB";
     image_width := 1125; image_height := 2436 |}.

End Double.

(** * Properties *)

Import Freebie Quota.

(** ** The free-tier quota *)

Lemma isPaidUser_pure (b : Browser) : snd (isPaidUser b) = b.
Proof. unfold isPaidUser. by destruct (window_defined b). Qed.

(** C9. For a paid user the quota is never enforced: whatever usage count
    is stored, [hasHitFreeLimit] returns false and [getRemainingExports]
    returns [Infinity] as soon as [isPaidUser] is true. *)
Theorem paid_user_is_never_limited (b : Browser) :
  fst (isPaidUser b) = true ->
  fst (hasHitFreeLimit b) = false /\ fst (getRemainingExports b) = Infinity.
Proof.
  intros Hpaid. unfold hasHitFreeLimit, getRemainingExports.
  destruct (isPaidUser b) as [paid b1] eqn:E. simpl in Hpaid. subst paid.
  split; reflexivity.
Qed.

Lemma paid_user_is_never_limited_witness :
  stored_count paid_browser = Int 7 /\
  fst (isPaidUser paid_browser) = true /\
  fst (hasHitFreeLimit paid_browser) = false /\
  fst (getRemainingExports paid_browser) = Infinity.
Proof.
  split; [reflexivity|]. split; [reflexivity|].
  apply (paid_user_is_never_limited paid_browser). reflexivity.
Defined.

(** *** Reading a count *)

Lemma digit_of_range (c : ascii) (d : Z) : digit_of c = Some d -> 0 <= d <= 9.
Proof.
  unfold digit_of.
  destruct (Nat.leb 48 (nat_of_ascii c)) eqn:H1;
    destruct (Nat.leb (nat_of_ascii c) 57) eqn:H2; simpl; try discriminate.
  apply Nat.leb_le in H1. apply Nat.leb_le in H2.
  intros [= <-]. lia.
Qed.

Lemma digit_is_no_space (c : ascii) (d : Z) :
  digit_of c = Some d -> is_white_space c = false.
Proof.
  unfold digit_of, is_white_space.
  destruct (Nat.leb 48 (nat_of_ascii c)) eqn:H1;
    destruct (Nat.leb (nat_of_ascii c) 57) eqn:H2; simpl; try discriminate.
  apply Nat.leb_le in H1. apply Nat.leb_le in H2. intros _.
  apply orb_false_intro; [apply andb_false_intro2; apply Nat.leb_gt; lia|].
  apply orb_false_intro; apply Nat.eqb_neq; lia.
Qed.

Lemma parse_digits_seen (s : string) (acc : Z) :
  all_digits s = true -> 0 <= acc ->
  exists z, parse_digits s true acc = Some z /\ 0 <= z.
Proof.
  revert acc. induction s as [|c r IH]; intros acc Hs Hacc; simpl in *.
  - exists acc. auto.
  - destruct (digit_of c) as [d|] eqn:Hd; [|discriminate].
    apply digit_of_range in Hd. apply IH; [assumption|lia].
Qed.

Lemma parseInt10_digits (s : string) :
  all_digits s = true -> s <> "" -> non_negative (parseInt10 s).
Proof.
  destruct s as [|c r]; [congruence|]. intros Hs _. simpl in Hs.
  destruct (digit_of c) as [d|] eqn:Hd; [|discriminate].
  assert (Hz : exists z, parse_digits (String c r) false 0 = Some z /\ 0 <= z).
  { simpl. rewrite Hd. apply parse_digits_seen; [assumption|].
    apply digit_of_range in Hd. lia. }
  destruct Hz as (z & Hz & Hpos).
  unfold parseInt10. simpl skip_white_space.
  rewrite (digit_is_no_space c d Hd).
  destruct c as [[] [] [] [] [] [] [] []];
    try (vm_compute in Hd; discriminate Hd); rewrite Hz; exact Hpos.
Qed.

Lemma stored_count_well_formed (b : Browser) :
  uses_well_formed b -> non_negative (stored_count b).
Proof.
  intros Hwf. unfold stored_count.
  destruct (getItem USES b) as [s|] eqn:Hs; [|simpl; lia].
  case_bool_decide as He; [simpl; lia|].
  apply parseInt10_digits; [apply Hwf; assumption|assumption].
Qed.

(** *** [getUsageCount] *)

Lemma getUsageCount_new_month (b : Browser) :
  window_defined b = true ->
  getItem RESET_DATE b <> Some (getCurrentMonth b) ->
  restarts_quota b.
Proof.
  intros Hw Hm. unfold restarts_quota, getUsageCount. rewrite Hw. simpl negb.
  cbv iota. rewrite bool_decide_eq_false_2 by assumption. simpl fst. simpl snd.
  unfold getItem, setItem. simpl localStorage.
  split; [reflexivity|]. split.
  - rewrite lookup_insert_ne by discriminate. apply lookup_insert_eq.
  - split; [apply lookup_insert_eq|].
    intros k Hk1 Hk2. rewrite !lookup_insert_ne by congruence. reflexivity.
Qed.

Lemma getUsageCount_same_month (b : Browser) :
  window_defined b = true ->
  getItem RESET_DATE b = Some (getCurrentMonth b) ->
  reads_count b.
Proof.
  intros Hw Hm. unfold reads_count, getUsageCount, stored_count.
  rewrite Hw. simpl negb. cbv iota.
  rewrite bool_decide_eq_true_2 by assumption.
  destruct (getItem USES b) as [s|]; [|split; reflexivity].
  case_bool_decide; split; reflexivity.
Qed.

Lemma getUsageCount_server (b : Browser) :
  window_defined b = false -> getUsageCount b = (Int 0, b).
Proof. intros Hw. unfold getUsageCount. rewrite Hw. reflexivity. Qed.

Lemma getUsageCount_non_negative (b : Browser) :
  window_defined b = true -> uses_well_formed b ->
  non_negative (fst (getUsageCount b)).
Proof.
  intros Hw Hwf.
  destruct (decide (getItem RESET_DATE b = Some (getCurrentMonth b))) as [Hm|Hm].
  - destruct (getUsageCount_same_month b Hw Hm) as [-> _].
    apply stored_count_well_formed. assumption.
  - destruct (getUsageCount_new_month b Hw Hm) as [-> _]. simpl. lia.
Qed.

(** A store with a negative count: the count is returned as it is. *)
Lemma getUsageCount_negative_store :
  getItem RESET_DATE negative_browser = Some (getCurrentMonth negative_browser) /\
  getUsageCount negative_browser = (Int (-5), negative_browser).
Proof. split; reflexivity. Qed.

(** C10, as stated, fails on a store whose usage entry is a negative
    numeral: in the current month [getUsageCount] returns that negative
    count. *)
Lemma usage_count_can_be_negative :
  ~ (forall b : Browser,
       window_defined b = true ->
       (getItem RESET_DATE b <> Some (getCurrentMonth b) -> restarts_quota b) /\
       (getItem RESET_DATE b = Some (getCurrentMonth b) -> reads_count b) /\
       non_negative (fst (getUsageCount b))).
Proof.
  intros H. destruct (H negative_browser eq_refl) as (_ & _ & Hneg).
  vm_compute in Hneg. apply Hneg. reflexivity.
Qed.

(** C10, amended. [getUsageCount] is not read-only: when the stored reset
    month differs from the current month it stores the current month and
    a count of zero and returns zero; otherwise it returns the stored
    count and leaves the store unchanged.  The returned count is
    non-negative when the usage entry of the store is absent or holds
    decimal digits only. *)
Theorem getUsageCount_contract (b : Browser) :
  window_defined b = true ->
  (getItem RESET_DATE b <> Some (getCurrentMonth b) -> restarts_quota b) /\
  (getItem RESET_DATE b = Some (getCurrentMonth b) -> reads_count b) /\
  (uses_well_formed b -> non_negative (fst (getUsageCount b))).
Proof.
  intros Hw. split; [apply getUsageCount_new_month; assumption|].
  split; [apply getUsageCount_same_month; assumption|].
  intros Hwf. apply getUsageCount_non_negative; assumption.
Qed.

Lemma getUsageCount_contract_witness :
  fst (getUsageCount free_browser) = Int 2 /\
  ((getItem RESET_DATE free_browser <> Some (getCurrentMonth free_browser) ->
    restarts_quota free_browser) /\
   (getItem RESET_DATE free_browser = Some (getCurrentMonth free_browser) ->
    reads_count free_browser) /\
   non_negative (fst (getUsageCount free_browser))).
Proof.
  split; [reflexivity|].
  destruct (getUsageCount_contract free_browser eq_refl) as (H1 & H2 & H3).
  split; [exact H1|]. split; [exact H2|]. apply H3.
  intros s Hs. vm_compute in Hs. injection Hs as <-. reflexivity.
Defined.

(** *** The module keeps the usage entry well formed *)

Lemma pretty_N_char_digit (k : N) : exists d, digit_of (pretty_N_char k) = Some d.
Proof. unfold pretty_N_char. repeat case_match; eexists; reflexivity. Qed.

Lemma pretty_N_go_digits (n : N) (s : string) :
  all_digits s = true -> all_digits (pretty_N_go n s) = true.
Proof.
  revert s. induction (N.lt_wf_0 n) as [n _ IH]. intros s Hs.
  destruct (decide (n = 0%N)) as [->|Hn]; [rewrite pretty_N_go_0; exact Hs|].
  rewrite pretty_N_go_step by lia. apply IH; [apply N.div_lt; lia|].
  simpl. destruct (pretty_N_char_digit (n `mod` 10)%N) as [d ->]. exact Hs.
Qed.

Lemma pretty_Z_digits (z : Z) : 0 <= z -> all_digits (pretty z) = true.
Proof.
  destruct z as [|p|p]; intros Hz; [reflexivity| |lia].
  unfold pretty, pretty_Z, pretty, pretty_positive, pretty, pretty_N.
  case_decide; [reflexivity|]. apply pretty_N_go_digits. reflexivity.
Qed.

Lemma getUsageCount_well_formed (b : Browser) :
  uses_well_formed b -> uses_well_formed (snd (getUsageCount b)).
Proof.
  intros Hwf. destruct (window_defined b) eqn:Hw;
    [|rewrite getUsageCount_server by assumption; exact Hwf].
  destruct (decide (getItem RESET_DATE b = Some (getCurrentMonth b))) as [Hm|Hm].
  - destruct (getUsageCount_same_month b Hw Hm) as [_ ->]. exact Hwf.
  - destruct (getUsageCount_new_month b Hw Hm) as (_ & _ & H0 & _).
    intros s Hs. rewrite H0 in Hs. injection Hs as <-. reflexivity.
Qed.

Lemma incrementUsage_well_formed (b : Browser) :
  uses_well_formed b -> uses_well_formed (incrementUsage b).
Proof.
  intros Hwf. unfold incrementUsage.
  destruct (window_defined b) eqn:Hw; simpl negb; cbv iota; [|exact Hwf].
  pose proof (getUsageCount_non_negative b Hw Hwf) as Hpos.
  destruct (getUsageCount b) as [n b1]. simpl in Hpos.
  destruct n as [z| | |]; try contradiction.
  intros s Hs. unfold getItem, setItem in Hs. cbn [localStorage] in Hs.
  rewrite lookup_insert_eq in Hs. injection Hs as <-.
  apply pretty_Z_digits. unfold non_negative in Hpos. lia.
Qed.

Lemma markAsPaid_well_formed (customerId subscriptionId : option string)
    (b : Browser) :
  uses_well_formed b -> uses_well_formed (markAsPaid customerId subscriptionId b).
Proof.
  intros Hwf s. unfold markAsPaid.
  destruct (window_defined b); simpl negb; cbv iota; [|apply Hwf].
  destruct customerId as [c|], subscriptionId as [u|];
    repeat case_bool_decide; unfold getItem, setItem; simpl;
    rewrite ?lookup_insert_ne by discriminate; apply Hwf.
Qed.

Lemma revokePaid_well_formed (b : Browser) :
  uses_well_formed b -> uses_well_formed (revokePaid b).
Proof.
  intros Hwf s. unfold revokePaid.
  destruct (window_defined b); simpl negb; cbv iota; [|apply Hwf].
  unfold getItem, removeItem; simpl.
  rewrite !lookup_delete_ne by discriminate. apply Hwf.
Qed.

(** A store without any entry is well formed. *)
Lemma empty_store_well_formed (d : Date) :
  uses_well_formed {| window_defined := true; localStorage := ∅; now := d |}.
Proof. intros s Hs. unfold getItem in Hs. simpl in Hs. discriminate Hs. Qed.

(** ** Placing the image *)

Import Canvas ScreenshotEditor Composite Render.
Local Open Scope Q_scope.

(** Linear arithmetic over the rationals, with the halves written out. *)
Ltac halves :=
  unfold Qdiv in *; try change (/ 2) with (1 # 2) in *; lra.

Lemma positive_nonzero (q : Q) : 0 < q -> ~ q == 0.
Proof. intros Hq H0. rewrite H0 in Hq. exact (Qlt_irrefl 0 Hq). Qed.

Lemma fit_width (iw ih sw sh s : Q) :
  0 < iw -> s == 1 -> iw * (Qmin (sw / iw) (sh / ih) * s) <= sw.
Proof.
  intros Hiw Hs. rewrite Hs, Qmult_1_r.
  assert (Hm : Qmin (sw / iw) (sh / ih) <= sw / iw) by apply Q.le_min_l.
  assert (He : iw * (sw / iw) == sw) by (field; apply positive_nonzero; assumption).
  rewrite <- He at 2. apply Qmult_le_l; assumption.
Qed.

Lemma fit_height (iw ih sw sh s : Q) :
  0 < ih -> s == 1 -> ih * (Qmin (sw / iw) (sh / ih) * s) <= sh.
Proof.
  intros Hih Hs. rewrite Hs, Qmult_1_r.
  assert (Hm : Qmin (sw / iw) (sh / ih) <= sh / ih) by apply Q.le_min_r.
  assert (He : ih * (sh / ih) == sh) by (field; apply positive_nonzero; assumption).
  rewrite <- He at 2. apply Qmult_le_l; assumption.
Qed.

Lemma scaledImage_fits (img : HTMLImageElement) (sw sh : Q)
    (tr : ImageTransform) (cx cy : Q) :
  0 < image_width img -> 0 < image_height img -> scale tr == 1 ->
  screen_width (scaledImage img sw sh tr cx cy) <= sw /\
  screen_height (scaledImage img sw sh tr cx cy) <= sh.
Proof.
  intros Hw Hh Hs. unfold scaledImage. simpl.
  split; [apply fit_width|apply fit_height]; assumption.
Qed.

(** In exact arithmetic, with [transform.scale = 1] the base scale
    [min(screenWidth / image.width, screenHeight / image.height)] never
    crops: the image that [drawImageInPhoneReal] draws is no wider and no
    higher than the screen, and with a zero offset it lies inside the
    screen rectangle. *)
Lemma drawImageInPhoneReal_fits (img : HTMLImageElement) (sx sy sw sh : Q)
    (tr : ImageTransform) (o : string) (c : HTMLCanvasElement) :
  0 < image_width img -> 0 < image_height img -> 0 < sw -> 0 < sh ->
  scale tr == 1 ->
  exists p dx dy dw dh,
    last (painted (drawImageInPhoneReal img sx sy sw sh tr o c)) = Some p /\
    paint_shape p = DrawImage img dx dy dw dh /\
    dw <= sw /\ dh <= sh /\
    (x tr == 0 -> y tr == 0 ->
     sx <= dx /\ dx + dw <= sx + sw /\ sy <= dy /\ dy + dh <= sy + sh).
Proof.
  intros Hw Hh _ _ Hs.
  destruct (scaledImage_fits img sw sh tr (sx + sw / 2) (sy + sh / 2) Hw Hh Hs)
    as [Hfw Hfh].
  unfold drawImageInPhoneReal, drawScaled, restore, with_ctx, paint.
  cbn [painted]. rewrite last_snoc.
  eexists _, _, _, _, _. split; [reflexivity|]. split; [reflexivity|].
  split; [exact Hfw|]. split; [exact Hfh|].
  intros Hx Hy. revert Hfw Hfh. unfold scaledImage.
  cbn [screen_x screen_y screen_width screen_height].
  set (dw := image_width img * _). set (dh := image_height img * _).
  intros Hfw Hfh. rewrite Hx, Hy. clearbody dw dh. repeat split; halves.
Qed.


(** ** The rounding of the program *)

Lemma two_power (n : Z) : (0 <= n)%Z -> inject_Z (2 ^ n) == 2 ^ n.
Proof. intros Hn. rewrite Zpower_Qpower by assumption. reflexivity. Qed.

Lemma two_power_pos (n : Z) : 0 < 2 ^ n.
Proof. apply Qpower_0_lt. reflexivity. Qed.

Lemma two_power_succ (n : Z) : 2 ^ (n + 1) == 2 ^ n * 2.
Proof. rewrite Qpower_plus by discriminate. reflexivity. Qed.

Lemma binade_spec (x : Q) :
  0 < x -> 2 ^ Double.binade x <= x /\ x < 2 ^ (Double.binade x + 1).
Proof.
  intros Hx. unfold Double.binade. destruct (Qle_bool 1 x) eqn:E.
  - apply Qle_bool_iff in E.
    assert (Hf : (1 <= Qfloor x)%Z)
      by (change 1%Z with (Qfloor 1); apply Qfloor_resp_le; exact E).
    destruct (Z.log2_spec (Qfloor x)) as [H1 H2]; [lia|].
    pose proof (Z.log2_nonneg (Qfloor x)) as H0.
    split.
    + rewrite <- two_power by assumption.
      apply Qle_trans with (inject_Z (Qfloor x)); [|apply Qfloor_le].
      rewrite <- Zle_Qle. exact H1.
    + rewrite <- two_power by lia.
      apply Qlt_le_trans with (inject_Z (Qfloor x + 1)); [apply Qlt_floor|].
      rewrite <- Zle_Qle. unfold Z.succ in H2. lia.
  - assert (Hlt : x < 1).
    { destruct (Qlt_le_dec x 1) as [H|H]; [exact H|].
      apply Qle_bool_iff in H. congruence. }
    assert (Hi : 1 < / x).
    { apply Qlt_shift_inv_l; [assumption|]. rewrite Qmult_1_l. exact Hlt. }
    set (c := Qceiling (/ x)).
    assert (Hc : (1 < c)%Z).
    { rewrite Zlt_Qlt. apply Qlt_le_trans with (/ x); [exact Hi|apply Qle_ceiling]. }
    destruct (Z.log2_up_spec c Hc) as [H1 H2].
    set (p := Z.log2_up c) in *.
    assert (Hp : (0 < p)%Z) by (apply Z.log2_up_pos; exact Hc).
    assert (Hx0 : ~ x == 0) by (intros H; rewrite H in Hx; discriminate).
    assert (Hone : x * / x == 1) by (apply Qmult_inv_r; exact Hx0).
    split.
    + rewrite Qpower_opp. apply Qle_shift_inv_r; [apply two_power_pos|].
      apply Qle_trans with (x * inject_Z c).
      * rewrite <- Hone. apply Qmult_le_l; [assumption|apply Qle_ceiling].
      * apply Qmult_le_l; [assumption|].
        rewrite <- two_power by lia. rewrite <- Zle_Qle. exact H2.
    + replace (- p + 1)%Z with (- (p - 1))%Z by lia.
      rewrite Qpower_opp. apply Qlt_shift_inv_l; [apply two_power_pos|].
      rewrite <- Hone. apply Qmult_lt_l; [assumption|].
      apply Qle_lt_trans with (inject_Z (c - 1)); [|apply Qceiling_lt].
      rewrite <- two_power by lia. rewrite <- Zle_Qle.
      replace (Z.pred p) with (p - 1)%Z in H1 by lia. lia.
Qed.

Lemma nearest_even_spec (m : Q) :
  - (1 # 2) <= inject_Z (Double.nearest_even m) - m /\
  inject_Z (Double.nearest_even m) - m <= 1 # 2.
Proof.
  unfold Double.nearest_even.
  pose proof (Qfloor_le m) as H1. pose proof (Qlt_floor m) as H2.
  rewrite inject_Z_plus in H2. change (inject_Z 1) with 1 in H2.
  destruct (Qcompare_spec (m - inject_Z (Qfloor m)) (1 # 2)) as [E|E|E];
    [destruct (Z.even (Qfloor m))| |];
    rewrite ?inject_Z_plus; change (inject_Z 1) with 1; split; lra.
Qed.

Lemma nearest_even_le (m : Q) (k : Z) :
  m <= inject_Z k -> (Double.nearest_even m <= k)%Z.
Proof.
  intros Hm. unfold Double.nearest_even.
  pose proof (Qfloor_le m) as H1. pose proof (Qlt_floor m) as H2.
  rewrite inject_Z_plus in H2. change (inject_Z 1) with 1 in H2.
  assert (Hf : (Qfloor m <= k)%Z).
  { rewrite Zle_Qle. apply Qle_trans with m; assumption. }
  destruct (Z.eq_dec (Qfloor m) k) as [Hk|Hk].
  - assert (E : m == inject_Z (Qfloor m)) by (rewrite Hk in *; lra).
    destruct (Qcompare_spec (m - inject_Z (Qfloor m)) (1 # 2)) as [E'|E'|E'];
      [exfalso; lra|lia|exfalso; lra].
  - destruct (Qcompare _ _); [destruct (Z.even _)| |]; lia.
Qed.

Lemma nearest_even_ge (m : Q) (k : Z) :
  inject_Z k <= m -> (k <= Double.nearest_even m)%Z.
Proof.
  intros Hm. unfold Double.nearest_even.
  assert (Hf : (k <= Qfloor m)%Z).
  { rewrite <- (Qfloor_Z k). apply Qfloor_resp_le. exact Hm. }
  destruct (Qcompare _ _); [destruct (Z.even _)| |]; lia.
Qed.

Lemma ulp_pos (x : Q) : 0 < Double.ulp x.
Proof. apply two_power_pos. Qed.

(** One unit in the last place of [x] is at most [x * 2^-52]. *)
Lemma ulp_le (x : Q) : 0 < x -> Double.ulp x <= x * (1 # 4503599627370496).
Proof.
  intros Hx. destruct (binade_spec x Hx) as [H _]. unfold Double.ulp.
  unfold Zminus. rewrite Qpower_plus by discriminate.
  apply Qle_trans with (2 ^ Double.binade x * (1 # 4503599627370496)).
  - apply Qmult_le_l; [apply two_power_pos|]. vm_compute. discriminate.
  - apply Qmult_le_compat_r; [exact H|discriminate].
Qed.

Lemma round_pos_error (x : Q) :
  0 < x ->
  x * (1 - Double.unit_roundoff) <= Double.round_pos x /\
  Double.round_pos x <= x * (1 + Double.unit_roundoff).
Proof.
  intros Hx. pose proof (ulp_pos x) as Hu. pose proof (ulp_le x Hx) as Hl.
  destruct (nearest_even_spec (x / Double.ulp x)) as [H1 H2].
  unfold Double.round_pos. set (k := inject_Z (Double.nearest_even (x / Double.ulp x))) in *.
  assert (Hm : x / Double.ulp x * Double.ulp x == x)
    by (field; intros H; rewrite H in Hu; discriminate).
  assert (Ha : (k - x / Double.ulp x) * Double.ulp x <= (1 # 2) * Double.ulp x)
    by (apply Qmult_le_compat_r; [exact H2|apply Qlt_le_weak; exact Hu]).
  assert (Hb : - (1 # 2) * Double.ulp x <= (k - x / Double.ulp x) * Double.ulp x)
    by (apply Qmult_le_compat_r; [exact H1|apply Qlt_le_weak; exact Hu]).
  assert (Hc : (k - x / Double.ulp x) * Double.ulp x == k * Double.ulp x - x)
    by (field; intros H; rewrite H in Hu; discriminate).
  rewrite Hc in Ha, Hb. unfold Double.unit_roundoff.
  set (r := k * Double.ulp x) in *. set (w := Double.ulp x) in *.
  clearbody r w k. split; lra.
Qed.

#[local] Instance binade_proper : Proper (Qeq ==> eq) Double.binade.
Proof.
  intros x y E. unfold Double.binade.
  rewrite (Qfloor_comp x y E).
  rewrite (Qceiling_comp (/ x) (/ y)) by (rewrite E; reflexivity).
  rewrite E. reflexivity.
Qed.

#[local] Instance nearest_even_proper : Proper (Qeq ==> eq) Double.nearest_even.
Proof.
  intros x y E. unfold Double.nearest_even. cbv zeta.
  rewrite (Qfloor_comp x y E). rewrite E. reflexivity.
Qed.

#[local] Instance ulp_proper : Proper (Qeq ==> Qeq) Double.ulp.
Proof. intros x y E. unfold Double.ulp. rewrite (binade_proper x y E). reflexivity. Qed.

#[local] Instance round_pos_proper : Proper (Qeq ==> Qeq) Double.round_pos.
Proof.
  intros x y E. unfold Double.round_pos.
  assert (Hu : Double.ulp x == Double.ulp y) by (apply ulp_proper; exact E).
  rewrite (nearest_even_proper (x / Double.ulp x) (y / Double.ulp y))
    by (rewrite E; reflexivity).
  rewrite Hu. reflexivity.
Qed.

#[local] Instance round_proper : Proper (Qeq ==> Qeq) Double.round.
Proof.
  intros x y E. unfold Double.round.
  rewrite (Qcompare_comp x y E 0 0 (Qeq_refl 0)).
  destruct (Qcompare y 0); [reflexivity| |];
    rewrite ?(round_pos_proper x y E);
    rewrite ?(round_pos_proper (- x) (- y)) by (rewrite E; reflexivity);
    reflexivity.
Qed.

Lemma round_bounds (x : Q) :
  0 <= x ->
  x * (1 - Double.unit_roundoff) <= Double.round x /\ Double.round x <= x * (1 + Double.unit_roundoff).
Proof.
  intros Hx. unfold Double.round.
  destruct (Qcompare_spec x 0) as [E|E|E].
  - rewrite E. split; discriminate.
  - exfalso. lra.
  - apply round_pos_error. exact E.
Qed.

Lemma round_nonneg (x : Q) : 0 <= x -> 0 <= Double.round x.
Proof.
  intros Hx. destruct (round_bounds x Hx) as [H _].
  unfold Double.unit_roundoff in H. lra.
Qed.

Lemma round_positive (x : Q) : 0 < x -> 0 < Double.round x.
Proof.
  intros Hx. destruct (round_bounds x (Qlt_le_weak _ _ Hx)) as [H _].
  unfold Double.unit_roundoff in H. lra.
Qed.

Lemma round_one : Double.round 1 == 1.
Proof. reflexivity. Qed.

(** The double of one tenth, [0x1.999999999999ap-4]. *)
Example round_tenth :
  Double.round (1 # 10) == 3602879701896397 # 36028797018963968.
Proof. vm_compute. reflexivity. Qed.

(** Rounding does not leave the binade upwards. *)
Lemma round_pos_le_power (x : Q) :
  0 < x -> Double.round_pos x <= 2 ^ (Double.binade x + 1).
Proof.
  intros Hx. destruct (binade_spec x Hx) as [_ H]. unfold Double.round_pos.
  pose proof (ulp_pos x) as Hu.
  assert (Hp : 2 ^ (Double.binade x + 1) == inject_Z (2 ^ 53) * Double.ulp x).
  { unfold Double.ulp. replace (Double.binade x + 1)%Z with (53 + (Double.binade x - 52))%Z by lia.
    rewrite Qpower_plus by discriminate. reflexivity. }
  rewrite Hp. apply Qmult_le_compat_r; [|apply Qlt_le_weak; exact Hu].
  rewrite <- Zle_Qle. apply nearest_even_le.
  apply Qle_shift_div_r; [exact Hu|]. rewrite <- Hp. apply Qlt_le_weak. exact H.
Qed.

Lemma round_le_1 (x : Q) : 0 <= x -> x <= 1 -> Double.round x <= 1.
Proof.
  intros H0 H1. destruct (Qle_lt_or_eq _ _ H1) as [Hlt|He].
  - unfold Double.round. destruct (Qcompare_spec x 0) as [E|E|E];
      [discriminate|exfalso; lra|].
    apply Qle_trans with (2 ^ (Double.binade x + 1)); [apply round_pos_le_power; exact E|].
    destruct (binade_spec x E) as [Hb _].
    assert (Hneg : (Double.binade x < 0)%Z).
    { destruct (Z_lt_le_dec (Double.binade x) 0) as [H|H]; [exact H|exfalso].
      assert (1 <= 2 ^ Double.binade x)
        by (change 1 with (2 ^ 0); apply Qpower_le_compat_l; [exact H|discriminate]).
      lra. }
    change 1 with (2 ^ 0). apply Qpower_le_compat_l; [lia|discriminate].
  - rewrite He. rewrite round_one. apply Qle_refl.
Qed.


Lemma slack_tolerance : Double.slack <= 1 + Double.tolerance.
Proof. vm_compute. discriminate. Qed.

Lemma shortfall_tolerance : 1 - Double.tolerance <= Double.shortfall.
Proof. vm_compute. discriminate. Qed.

(** An image side [d] scaled by [Double.round (base * s)], where [base] is at
    most the ratio of the screen side [sd] to the image side. *)
Lemma scaled_upper_scale (d sd s base : Q) :
  0 < d -> 0 < sd -> 0 <= s ->
  0 <= base -> base <= Double.round (sd / d) ->
  Double.round (d * Double.round (base * s)) <= sd * s * Double.slack.
Proof.
  intros Hd Hsd Hs0 Hb0 Hb.
  assert (Hq : 0 <= sd / d).
  { apply Qle_shift_div_l; [exact Hd|]. rewrite Qmult_0_l. lra. }
  destruct (round_bounds (sd / d) Hq) as [_ Ha].
  assert (Hbs : 0 <= base * s) by (apply Qmult_le_0_compat; assumption).
  destruct (round_bounds (base * s) Hbs) as [_ Hf].
  pose proof (round_nonneg (base * s) Hbs) as Hf0.
  assert (Hdf : 0 <= d * Double.round (base * s))
    by (apply Qmult_le_0_compat; [lra|exact Hf0]).
  destruct (round_bounds _ Hdf) as [_ Hw].
  set (u := Double.unit_roundoff) in *.
  assert (Hu : 0 <= 1 + u) by (unfold u, Double.unit_roundoff; discriminate).
  set (f := Double.round (base * s)) in *. set (w := Double.round (d * f)) in *.
  set (q := sd / d) in *.
  assert (Hdq : d * q == sd)
    by (unfold q; field; intros H; rewrite H in Hd; discriminate).
  assert (H1 : base * s <= q * (1 + u) * s).
  { apply Qmult_le_compat_r; [lra|exact Hs0]. }
  assert (H2 : f <= q * (1 + u) * s * (1 + u)).
  { apply Qle_trans with (base * s * (1 + u)); [exact Hf|].
    apply Qmult_le_compat_r; assumption. }
  assert (H3 : d * f <= d * (q * (1 + u) * s * (1 + u)))
    by (apply Qmult_le_l; assumption).
  assert (H4 : d * f * (1 + u) <= d * (q * (1 + u) * s * (1 + u)) * (1 + u))
    by (apply Qmult_le_compat_r; assumption).
  apply Qle_trans with (d * f * (1 + u)); [exact Hw|].
  apply Qle_trans with (d * (q * (1 + u) * s * (1 + u)) * (1 + u)); [exact H4|].
  rewrite <- Hdq. unfold Double.slack. fold u. apply Qle_lteq. right. ring.
Qed.

Lemma scaled_upper (d sd s base : Q) :
  0 < d -> 0 < sd -> 0 <= s -> s <= 1 ->
  0 <= base -> base <= Double.round (sd / d) ->
  Double.round (d * Double.round (base * s)) <= sd * Double.slack.
Proof.
  intros Hd Hsd Hs0 Hs1 Hb0 Hb.
  apply Qle_trans with (sd * s * Double.slack);
    [apply scaled_upper_scale; assumption|].
  apply Qmult_le_compat_r; [|discriminate].
  apply Qle_trans with (sd * 1); [|rewrite Qmult_1_r; apply Qle_refl].
  apply Qmult_le_l; assumption.
Qed.

Lemma scaled_lower (d sd f : Q) :
  0 < d -> 0 < sd ->
  sd / d * ((1 - Double.unit_roundoff) * (1 - Double.unit_roundoff)) <= f ->
  sd * Double.shortfall <= Double.round (d * f).
Proof.
  intros Hd Hsd Hf.
  assert (Hq : 0 < sd / d).
  { apply Qlt_shift_div_l; [exact Hd|]. rewrite Qmult_0_l. exact Hsd. }
  set (u := Double.unit_roundoff) in *.
  assert (Hu : 0 < 1 - u) by (unfold u, Double.unit_roundoff; reflexivity).
  assert (Hf0 : 0 <= f).
  { apply Qle_trans with (sd / d * ((1 - u) * (1 - u))); [|exact Hf].
    apply Qmult_le_0_compat; [apply Qlt_le_weak; exact Hq|].
    apply Qmult_le_0_compat; apply Qlt_le_weak; exact Hu. }
  assert (Hdf : 0 <= d * f) by (apply Qmult_le_0_compat; [lra|exact Hf0]).
  destruct (round_bounds _ Hdf) as [Hw _]. fold u in Hw.
  assert (Hdq : d * (sd / d) == sd)
    by (field; intros H; rewrite H in Hd; discriminate).
  assert (H1 : d * (sd / d * ((1 - u) * (1 - u))) <= d * f)
    by (apply Qmult_le_l; assumption).
  assert (H2 : d * (sd / d * ((1 - u) * (1 - u))) * (1 - u) <= d * f * (1 - u))
    by (apply Qmult_le_compat_r; [exact H1|apply Qlt_le_weak; exact Hu]).
  apply Qle_trans with (d * f * (1 - u)); [|exact Hw].
  apply Qle_trans with (d * (sd / d * ((1 - u) * (1 - u))) * (1 - u)); [|exact H2].
  rewrite <- Hdq at 1. unfold Double.shortfall. fold u. apply Qle_lteq. right. ring.
Qed.

Lemma ratio_positive (p q : Q) : 0 < p -> 0 < q -> 0 < p / q.
Proof.
  intros Hp Hq. apply Qlt_shift_div_l; [assumption|].
  rewrite Qmult_0_l. assumption.
Qed.

(** The share of each fit ratio in the larger of the two. *)
Lemma share_bounds (p q : Q) :
  0 < p -> 0 < q ->
  (0 < Double.round (p / Qmax p q) /\ Double.round (p / Qmax p q) <= 1) /\
  (0 < Double.round (q / Qmax p q) /\ Double.round (q / Qmax p q) <= 1).
Proof.
  intros Hp Hq.
  assert (Hm : 0 < Qmax p q)
    by (apply Qlt_le_trans with p; [exact Hp|apply Q.le_max_l]).
  assert (H0 : 0 < p / Qmax p q) by (apply ratio_positive; assumption).
  assert (H1 : 0 < q / Qmax p q) by (apply ratio_positive; assumption).
  split; (split; [apply round_positive; assumption|]);
    (apply round_le_1; [apply Qlt_le_weak; assumption|]);
    (apply Qle_shift_div_r; [exact Hm|]); rewrite Qmult_1_l;
    [apply Q.le_max_l|apply Q.le_max_r].
Qed.

(** The height Fill Vertical gives an image of [iw] by [ih] on a screen
    of [sw] by [sh]. *)
Lemma vertical_height (iw ih sw sh : Q) :
  0 < iw -> 0 < ih -> 0 < sw -> 0 < sh ->
  let a := Double.round (sw / iw) in
  let b := Double.round (sh / ih) in
  let h := Double.round (ih * Double.round (Qmin a b * Double.round (b / Qmax a b))) in
  h <= sh * (1 + Double.tolerance) /\
  (sw / iw == sh / ih -> sh * (1 - Double.tolerance) <= h) /\
  (Qmin (sw / iw) (sh / ih) * (1 + Double.margin) <= Qmax (sw / iw) (sh / ih) ->
   h < sh).
Proof.
  intros Hiw Hih Hsw Hsh a b h.
  pose proof (ratio_positive sw iw Hsw Hiw) as Hqa.
  pose proof (ratio_positive sh ih Hsh Hih) as Hqb.
  assert (Ha : 0 < a) by (apply round_positive; exact Hqa).
  assert (Hb : 0 < b) by (apply round_positive; exact Hqb).
  destruct (share_bounds a b Ha Hb) as [_ [Hr0 Hr1]].
  assert (Hmin : 0 <= Qmin a b)
    by (apply Q.min_glb; apply Qlt_le_weak; assumption).
  split; [|split].
  - apply Qle_trans with (sh * Double.slack).
    + apply scaled_upper; try assumption;
        [apply Qlt_le_weak; exact Hr0|apply Q.le_min_r].
    + apply Qmult_le_l; [exact Hsh|apply slack_tolerance].
  - intros Heq.
    assert (Hab : a == b) by (unfold a, b; rewrite Heq; reflexivity).
    assert (Hmax : Qmax a b == b)
      by (apply Q.max_r; rewrite Hab; apply Qle_refl).
    assert (Hmn : Qmin a b == b)
      by (apply Q.min_r; rewrite Hab; apply Qle_refl).
    assert (Hone : b / Qmax a b == 1).
    { rewrite Hmax. field. intros H. rewrite H in Hb. discriminate. }
    assert (Hf : Double.round (Qmin a b * Double.round (b / Qmax a b)) == Double.round b).
    { apply round_proper. rewrite (round_proper _ _ Hone), round_one, Hmn.
      apply Qmult_1_r. }
    apply Qle_trans with (sh * Double.shortfall).
    { apply Qmult_le_l; [exact Hsh|apply shortfall_tolerance]. }
    unfold h. rewrite (round_proper _ _ (Qmult_comp _ _ (Qeq_refl ih) _ _ Hf)).
    apply scaled_lower; try assumption.
    assert (H0 : 0 <= sh / ih) by (apply Qlt_le_weak; exact Hqb).
    destruct (round_bounds (sh / ih) H0) as [Hl _].
    assert (Hb0 : 0 <= b) by (apply Qlt_le_weak; exact Hb).
    destruct (round_bounds b Hb0) as [Hl' _].
    apply Qle_trans with (b * (1 - Double.unit_roundoff)); [|exact Hl'].
    rewrite Qmult_assoc. apply Qmult_le_compat_r; [exact Hl|discriminate].
  - intros Hgap.
    destruct (Qlt_le_dec (sh / ih) (sw / iw)) as [Hlt | Hle].
    + (* the height ratio is the smaller one *)
      rewrite (Q.min_r (sw / iw) (sh / ih)), (Q.max_l (sw / iw) (sh / ih)) in Hgap
        by (apply Qlt_le_weak; exact Hlt).
      set (r := Double.round (b / Qmax a b)) in *.
      assert (Hh : h <= sh * r * Double.slack).
      { apply scaled_upper_scale; try assumption;
          [apply Qlt_le_weak; exact Hr0|apply Q.le_min_r]. }
      set (u := Double.unit_roundoff) in *.
      destruct (round_bounds (sw / iw) (Qlt_le_weak _ _ Hqa)) as [Hal _].
      destruct (round_bounds (sh / ih) (Qlt_le_weak _ _ Hqb)) as [_ Hbu].
      fold a in Hal. fold b in Hbu. fold u in Hal, Hbu.
      set (qa := sw / iw) in *. set (qb := sh / ih) in *.
      assert (Hm : 0 < Qmax a b)
        by (apply Qlt_le_trans with a; [exact Ha|apply Q.le_max_l]).
      assert (Hrho : b / Qmax a b <= b / a).
      { apply Qle_shift_div_l; [exact Ha|].
        apply Qle_trans with (b / Qmax a b * Qmax a b).
        - apply Qmult_le_l; [apply ratio_positive; assumption|apply Q.le_max_l].
        - apply Qle_lteq. right. field. intros H. rewrite H in Hm. discriminate. }
      assert (Hba : 0 < b / a) by (apply ratio_positive; assumption).
      assert (Hrho0 : 0 <= b / Qmax a b).
      { apply Qlt_le_weak, ratio_positive; assumption. }
      destruct (round_bounds _ Hrho0) as [_ Hru]. fold r in Hru. fold u in Hru.
      assert (Hr : r <= b / a * (1 + u)).
      { apply Qle_trans with (b / Qmax a b * (1 + u)); [exact Hru|].
        apply Qmult_le_compat_r; [exact Hrho|discriminate]. }
      assert (Hc : b / a * (qb * ((1 + Double.margin) * (1 - u))) <= qb * (1 + u)).
      { apply Qle_trans with (b / a * a).
        - apply Qmult_le_l; [exact Hba|].
          apply Qle_trans with (qa * (1 - u)); [|exact Hal].
          rewrite Qmult_assoc. apply Qmult_le_compat_r; [exact Hgap|discriminate].
        - apply Qle_trans with b; [|exact Hbu].
          apply Qle_lteq. right. field. intros H. rewrite H in Ha. discriminate. }
      assert (Hc' : b / a * ((1 + Double.margin) * (1 - u)) <= 1 + u).
      { apply (Qmult_le_l _ _ qb); [exact Hqb|].
        apply Qle_trans with (b / a * (qb * ((1 + Double.margin) * (1 - u)))); [|exact Hc].
        apply Qle_lteq. right. ring. }
      assert (Hr' : r * ((1 + Double.margin) * (1 - u)) <= (1 + u) * (1 + u)).
      { apply Qle_trans with (b / a * (1 + u) * ((1 + Double.margin) * (1 - u))).
        - apply Qmult_le_compat_r; [exact Hr|discriminate].
        - apply Qle_trans with ((b / a * ((1 + Double.margin) * (1 - u))) * (1 + u)).
          + apply Qle_lteq. right. ring.
          + apply Qmult_le_compat_r; [exact Hc'|discriminate]. }
      assert (Hrs : r * Double.slack < 1).
      { unfold Double.slack, Double.margin in *. fold u in Hr' |- *. unfold u, Double.unit_roundoff in *.
        set (k := (1 + (1 # 9007199254740992))) in *.
        assert (Hk : k * k * k * (k * k) < (1 + (1 # 1125899906842624)) * (1 - (1 # 9007199254740992)))
          by reflexivity.
        assert (Hs1 : r * (k * k * k) * ((1 + (1 # 1125899906842624)) * (1 - (1 # 9007199254740992)))
                      <= k * k * (k * k * k)).
        { apply Qle_trans with (r * ((1 + (1 # 1125899906842624)) * (1 - (1 # 9007199254740992))) * (k * k * k)).
          - apply Qle_lteq. right. ring.
          - apply Qmult_le_compat_r; [exact Hr'|discriminate]. }
        apply (Qmult_lt_r _ _ ((1 + (1 # 1125899906842624)) * (1 - (1 # 9007199254740992))));
          [reflexivity|].
        apply Qle_lt_trans with (k * k * (k * k * k)); [exact Hs1|].
        rewrite Qmult_1_l.
        apply Qle_lt_trans with (k * k * k * (k * k)); [|exact Hk].
        apply Qle_lteq. right. ring. }
      apply Qle_lt_trans with (sh * r * Double.slack); [exact Hh|].
      apply Qle_lt_trans with (sh * (r * Double.slack)).
      { apply Qle_lteq. right. ring. }
      apply Qlt_le_trans with (sh * 1); [|rewrite Qmult_1_r; apply Qle_refl].
      apply Qmult_lt_l; assumption.
    + (* the width ratio is the smaller one *)
      rewrite (Q.min_l (sw / iw) (sh / ih)), (Q.max_r (sw / iw) (sh / ih)) in Hgap
        by exact Hle.
      set (qa := sw / iw) in *. set (qb := sh / ih) in *.
      assert (Hh : h <= ih * qa * Double.slack).
      { apply scaled_upper; try assumption.
        - apply Qmult_lt_0_compat; assumption.
        - apply Qlt_le_weak; exact Hr0.
        - apply Qle_trans with a; [apply Q.le_min_l|].
          apply Qle_lteq. right. apply round_proper. unfold qa. field.
          split; intros H; [rewrite H in Hiw|rewrite H in Hih]; discriminate. }
      apply Qle_lt_trans with (ih * qa * Double.slack); [exact Hh|].
      assert (Hsl : qa * Double.slack < qa * (1 + Double.margin)).
      { apply Qmult_lt_l; [exact Hqa|reflexivity]. }
      apply Qle_lt_trans with (ih * (qa * Double.slack)).
      { apply Qle_lteq. right. ring. }
      apply Qlt_le_trans with (ih * qb).
      * apply Qmult_lt_l; [exact Hih|].
        apply Qlt_le_trans with (qa * (1 + Double.margin)); assumption.
      * apply Qle_lteq. right. unfold qb. field.
        intros H. rewrite H in Hih. discriminate.
Qed.

(** What [Double.drawImageInPhoneReal] draws last is the image, into the
    rectangle of [Double.scaledImage]. *)
Lemma drawImageInPhoneReal_last (img : HTMLImageElement) (sx sy sw sh : Q)
    (tr : ImageTransform) (o : string) (c : HTMLCanvasElement) :
  exists p,
    last (painted (Double.drawImageInPhoneReal img sx sy sw sh tr o c)) = Some p /\
    paint_shape p =
      let r := Double.scaledImage img sw sh tr (Double.add sx (Double.div sw 2))
                 (Double.add sy (Double.div sh 2)) in
      DrawImage img (screen_x r) (screen_y r) (screen_width r) (screen_height r).
Proof.
  unfold Double.drawImageInPhoneReal, drawScaled, restore, with_ctx, paint.
  cbn [painted]. rewrite last_snoc. eexists. split; reflexivity.
Qed.

Lemma moderate_positive (v : Q) : Double.moderate v -> 0 < v.
Proof.
  intros [H _]. apply Qlt_le_trans with (2 ^ (-100)); [reflexivity|exact H].
Qed.

(** The sides of the rectangle of [Double.scaledImage] for a scale of at
    most 1. *)
Lemma scaledImage_upper (img : HTMLImageElement) (sw sh : Q)
    (tr : ImageTransform) (cx cy : Q) :
  0 < image_width img -> 0 < image_height img -> 0 < sw -> 0 < sh ->
  0 <= scale tr -> scale tr <= 1 ->
  screen_width (Double.scaledImage img sw sh tr cx cy) <= sw * (1 + Double.tolerance) /\
  screen_height (Double.scaledImage img sw sh tr cx cy) <= sh * (1 + Double.tolerance).
Proof.
  intros Hiw Hih Hsw Hsh Hs0 Hs1. unfold Double.scaledImage, Double.mul, Double.div.
  cbn [screen_width screen_height].
  set (a := Double.round (sw / image_width img)).
  set (b := Double.round (sh / image_height img)).
  assert (Ha : 0 <= a).
  { apply round_nonneg. apply Qle_shift_div_l; [exact Hiw|].
    rewrite Qmult_0_l. apply Qlt_le_weak. exact Hsw. }
  assert (Hb : 0 <= b).
  { apply round_nonneg. apply Qle_shift_div_l; [exact Hih|].
    rewrite Qmult_0_l. apply Qlt_le_weak. exact Hsh. }
  assert (Hm : 0 <= Qmin a b) by (apply Q.min_glb; assumption).
  split.
  - apply Qle_trans with (sw * Double.slack).
    + apply scaled_upper; try assumption. apply Q.le_min_l.
    + apply Qmult_le_l; [exact Hsw|apply slack_tolerance].
  - apply Qle_trans with (sh * Double.slack).
    + apply scaled_upper; try assumption. apply Q.le_min_r.
    + apply Qmult_le_l; [exact Hsh|apply slack_tolerance].
Qed.

(** C4, as stated, fails in the arithmetic of the program: a photograph
    of 1125 by 2436 is drawn on the screen of 396 by 836 at a height of
    [836 + 2^-43], above the height of the screen. *)
Lemma fit_overshoots_by_rounding :
  exists p dx dy dw dh,
    last (painted (Double.drawImageInPhoneReal Double.photo 122 122 396 836
                     identity_transform "portrait" blank_canvas)) = Some p /\
    paint_shape p = DrawImage Double.photo dx dy dw dh /\
    dh == 836 + (1 # 8796093022208) /\
    ~ dh <= 836.
Proof.
  destruct (drawImageInPhoneReal_last Double.photo 122 122 396 836 identity_transform
              "portrait" blank_canvas) as (p & Hp & Hs).
  exists p. eexists _, _, _, _. split; [exact Hp|]. split; [exact Hs|].
  split; [vm_compute; reflexivity|]. vm_compute. intros H. apply H. reflexivity.
Qed.

(** C4, amended. With [transform.scale = 1] the image that
    [drawImageInPhoneReal] draws is fitted to the screen up to the
    rounding of the arithmetic: its width and its height exceed those of
    the screen by at most the relative [Double.tolerance] [2^-51]. *)
Theorem fit_never_crops (img : HTMLImageElement) (sx sy sw sh : Q)
    (tr : ImageTransform) (o : string) (c : HTMLCanvasElement) :
  Double.moderate (image_width img) -> Double.moderate (image_height img) ->
  Double.moderate sw -> Double.moderate sh ->
  scale tr == 1 ->
  exists p dx dy dw dh,
    last (painted (Double.drawImageInPhoneReal img sx sy sw sh tr o c)) = Some p /\
    paint_shape p = DrawImage img dx dy dw dh /\
    dw <= sw * (1 + Double.tolerance) /\ dh <= sh * (1 + Double.tolerance).
Proof.
  intros Hiw Hih Hsw Hsh Hs.
  apply moderate_positive in Hiw, Hih, Hsw, Hsh.
  destruct (drawImageInPhoneReal_last img sx sy sw sh tr o c) as (p & Hp & Hd).
  exists p. eexists _, _, _, _. split; [exact Hp|]. split; [exact Hd|].
  apply scaledImage_upper; try assumption; rewrite Hs; discriminate.
Qed.

Lemma fit_never_crops_witness :
  exists p dx dy dw dh,
    last (painted (Double.drawImageInPhoneReal Double.photo 122 122 396 836
                     identity_transform "portrait" blank_canvas)) = Some p /\
    paint_shape p = DrawImage Double.photo dx dy dw dh /\
    dw <= 396 * (1 + Double.tolerance) /\ dh <= 836 * (1 + Double.tolerance).
Proof.
  apply (fit_never_crops Double.photo 122 122 396 836 identity_transform "portrait"
           blank_canvas); try reflexivity; split; vm_compute; discriminate.
Defined.

(** The other two functions that draw into a screen place the image in
    the same way. *)
Lemma drawImageInDeviceScreen_fits (img : HTMLImageElement) (sx sy sw sh : Q)
    (tr : ImageTransform) (radius : Q) (c : HTMLCanvasElement) :
  0 < image_width img -> 0 < image_height img -> scale tr == 1 ->
  exists p dx dy dw dh,
    last (painted (drawImageInDeviceScreen img sx sy sw sh tr radius c)) = Some p /\
    paint_shape p = DrawImage img dx dy dw dh /\ dw <= sw /\ dh <= sh.
Proof.
  intros Hw Hh Hs.
  destruct (scaledImage_fits img sw sh tr (sx + sw / 2) (sy + sh / 2) Hw Hh Hs)
    as [Hfw Hfh].
  unfold drawImageInDeviceScreen, drawScaled, restore, with_ctx, paint.
  cbn [painted]. rewrite last_snoc.
  eexists _, _, _, _, _. repeat split; [exact Hfw|exact Hfh].
Qed.

(** ** The rotated screen of the landscape phone *)

(** The two quarter-turns undo each other. *)
Lemma counter_clockwise_clockwise (s : Screen) (a b : Size) :
  0 < width a -> 0 < height a -> 0 < width b -> 0 < height b ->
  same_screen (counter_clockwise (clockwise s a b) b a) s.
Proof.
  intros H1 H2 H3 H4.
  apply positive_nonzero in H1, H2, H3, H4.
  unfold same_screen, counter_clockwise, clockwise.
  cbn [screen_x screen_y screen_width screen_height width height].
  repeat split; field; auto.
Qed.

Lemma clockwise_counter_clockwise (s : Screen) (a b : Size) :
  0 < width a -> 0 < height a -> 0 < width b -> 0 < height b ->
  same_screen (clockwise (counter_clockwise s a b) b a) s.
Proof.
  intros H1 H2 H3 H4.
  apply positive_nonzero in H1, H2, H3, H4.
  unfold same_screen, counter_clockwise, clockwise.
  cbn [screen_x screen_y screen_width screen_height width height].
  repeat split; field; auto.
Qed.

(** The landscape branch turns the bitmap of the frame clockwise: drawn
    as it is there, [origW] by [origH] about the centre [(cx, cy)] after
    [ctx.rotate(Math.PI / 2)], the screen of the frame lands on its
    [clockwise] turn within the area of [origH] by [origW] about that
    centre. *)
Lemma clockwise_as_drawn (d : DeviceFrameTemplate) (cx cy origW origH : Q) :
  0 < width (frameSize d) -> 0 < height (frameSize d) ->
  same_screen
    (turned cx cy (drawn_screen d (- origW / 2) (- origH / 2) origW origH))
    (moved (cx - origH / 2) (cy - origW / 2)
       (clockwise (screen d) (frameSize d)
          {| width := origH; height := origW |})).
Proof.
  intros H1 H2. apply positive_nonzero in H1, H2.
  unfold same_screen, turned, drawn_screen, moved, clockwise.
  cbn [screen_x screen_y screen_width screen_height width height].
  repeat split; field; auto.
Qed.

(** The formula of the source is the other quarter-turn, the
    counter-clockwise one. *)
Lemma rotation_is_counter_clockwise (s : Screen) (from to : Size) :
  rotate s from to = counter_clockwise s from to.
Proof. reflexivity. Qed.



(** The landscape branch of [applyTemplate] stores the size of the
    rotated rectangle as the real screen dimensions. *)
Lemma landscape_screen_dimensions (df : DeviceFrame)
    (cache : gmap string DeviceFrame) (c : HTMLCanvasElement)
    (img : HTMLImageElement) (t : Template) (wm : string)
    (tr : ImageTransform) (paid : bool) :
  type t = "device" ->
  orientation_or_portrait t <> "portrait" ->
  let r :=
    rotate (screen (template df)) (frameSize (template df))
      {| width := height (frameSize (template df)) * 0.28;
         height := width (frameSize (template df)) * 0.28 |} in
  _realScreenDimensions
    (config (out_template (applyPhoneReal df cache c img t wm tr paid)))
  = Some {| width := screen_width r; height := screen_height r |}.
Proof.
  intros Ht Ho. unfold applyPhoneReal, drawBackground. rewrite Ht.
  rewrite (bool_decide_eq_false_2 _ Ho).
  reflexivity.
Qed.

(** ** The size of the canvas and the background *)

(** A device template gets the default gradient, and its background
    never throws. *)
Lemma drawBackground_device (t : Template) (c : HTMLCanvasElement) :
  type t = "device" ->
  drawBackground t c =
    Normal
      (paint None None (FillRect 0 0 (canvas_width c) (canvas_height c))
         (set_fillStyle
            (LinearGradient 0 0 (canvas_width c) (canvas_height c)
               [(0, "#667eea"); (1, "#764ba2")]) c)).
Proof. intros Ht. unfold drawBackground. rewrite Ht. reflexivity. Qed.

Lemma addWatermark_width (text : string) (paid : bool) (c : HTMLCanvasElement) :
  canvas_width (addWatermark text paid c) = canvas_width c.
Proof.
  unfold addWatermark. destruct paid; simpl negb; cbv iota;
    match goal with |- context [if ?b then _ else _] => destruct b end;
    reflexivity.
Qed.

Lemma addWatermark_height (text : string) (paid : bool) (c : HTMLCanvasElement) :
  canvas_height (addWatermark text paid c) = canvas_height c.
Proof.
  unfold addWatermark. destruct paid; simpl negb; cbv iota;
    match goal with |- context [if ?b then _ else _] => destruct b end;
    reflexivity.
Qed.

(** C7. Whatever the image, the browser-window template is rendered on a
    canvas of width 1200 + 2 * 100 = 1400 and of height
    675 + 40 + 2 * 100 = 915. *)
Theorem browser_canvas_size (net : Network) (cache : gmap string DeviceFrame)
    (canvas : HTMLCanvasElement) (img : HTMLImageElement) (t : Template)
    (wm : string) (tr : ImageTransform) (paid : bool) :
  has_context canvas = true ->
  type t = "device" ->
  device (config t) = Some "browser" ->
  let r := applyTemplate net cache canvas img t wm tr paid in
  outcome r = Resolved tt /\
  canvas_width (out_canvas r) = 1400 /\
  canvas_height (out_canvas r) = 915.
Proof.
  intros Hctx Ht Hd. unfold applyTemplate.
  rewrite Hctx, Ht, Hd. simpl negb. cbv iota.
  rewrite bool_decide_eq_true_2 by reflexivity.
  rewrite !bool_decide_eq_false_2 by discriminate.
  unfold applyBrowser. rewrite drawBackground_device by assumption.
  cbv zeta. unfold applied. cbn [outcome out_canvas].
  split; [reflexivity|].
  rewrite addWatermark_width, addWatermark_height. split; reflexivity.
Qed.

Lemma browser_canvas_size_witness :
  outcome (applyTemplate net_down ∅ blank_canvas screenshot browser ""
             identity_transform false) = Resolved tt /\
  canvas_width (out_canvas (applyTemplate net_down ∅ blank_canvas screenshot
                              browser "" identity_transform false)) = 1400 /\
  canvas_height (out_canvas (applyTemplate net_down ∅ blank_canvas screenshot
                               browser "" identity_transform false)) = 915.
Proof.
  apply (browser_canvas_size net_down ∅ blank_canvas screenshot browser ""
           identity_transform false); reflexivity.
Defined.

(** ** The watermark *)

(** The custom text is drawn exactly when its trimmed form is not
    empty. *)
Lemma custom_text_condition (text : string) :
  andb (negb (bool_decide (text = ""))) (negb (bool_decide (trim text = "")))
  = negb (bool_decide (trim text = "")).
Proof.
  case_bool_decide as He; [subst; reflexivity|reflexivity].
Qed.

(** C5. The watermark stamp: for an entitled user whose trimmed custom
    text is empty no text is drawn at all; for a user who is not entitled
    the branding text is drawn bottom-right, whatever the custom text;
    and when that user also gives a custom text, the branding is drawn
    first and the custom text, outline then fill, second at the bottom
    centre. *)
Theorem watermark_stamp (c : HTMLCanvasElement) (customText : string) :
  (trim customText = "" ->
   painted (addWatermark customText true c) = painted c) /\
  (exists p rest,
     painted (addWatermark customText false c) = painted c ++ p :: rest /\
     is_branding c p) /\
  (trim customText <> "" ->
   exists p1 p2 p3,
     painted (addWatermark customText false c) = painted c ++ [p1; p2; p3] /\
     is_branding c p1 /\
     is_custom_outline c customText p2 /\
     is_custom_fill c customText p3).
Proof.
  unfold addWatermark. rewrite custom_text_condition.
  split; [|split].
  - intros He. rewrite (bool_decide_eq_true_2 _ He). reflexivity.
  - destruct (bool_decide (trim customText = "")); cbn; eexists _, _;
      (split; [rewrite <- ?app_assoc; reflexivity|split; reflexivity]).
  - intros Hne. rewrite (bool_decide_eq_false_2 _ Hne). cbn.
    eexists _, _, _.
    split; [rewrite <- ?app_assoc; reflexivity|].
    repeat split; reflexivity.
Qed.

Lemma watermark_stamp_witness :
  painted (addWatermark "  " true blank_canvas) = painted blank_canvas /\
  exists p1 p2 p3,
    painted (addWatermark "Acme Inc." false blank_canvas)
    = painted blank_canvas ++ [p1; p2; p3] /\
    is_branding blank_canvas p1 /\
    is_custom_outline blank_canvas "Acme Inc." p2 /\
    is_custom_fill blank_canvas "Acme Inc." p3.
Proof.
  split.
  - apply (proj1 (watermark_stamp blank_canvas "  ")). reflexivity.
  - apply (proj2 (proj2 (watermark_stamp blank_canvas "Acme Inc."))).
    intros H. vm_compute in H. discriminate H.
Defined.

(** For an entitled user only the custom stamp appears. *)
Lemma watermark_entitled_custom (c : HTMLCanvasElement) (customText : string) :
  trim customText <> "" ->
  exists p2 p3,
    painted (addWatermark customText true c) = painted c ++ [p2; p3] /\
    is_custom_outline c customText p2 /\
    is_custom_fill c customText p3.
Proof.
  intros Hne. unfold addWatermark. rewrite custom_text_condition.
  rewrite (bool_decide_eq_false_2 _ Hne). cbn.
  eexists _, _.
  split; [rewrite <- ?app_assoc; reflexivity|].
  repeat split; reflexivity.
Qed.

(** Without a custom text the user who is not entitled gets the branding
    alone. *)
Lemma watermark_branding_only (c : HTMLCanvasElement) (customText : string) :
  trim customText = "" ->
  exists p,
    painted (addWatermark customText false c) = painted c ++ [p] /\
    is_branding c p.
Proof.
  intros He. unfold addWatermark. rewrite custom_text_condition.
  rewrite (bool_decide_eq_true_2 _ He). cbn.
  eexists.
  split; [reflexivity|]. split; reflexivity.
Qed.

(** ** Loading the frame and falling back *)

(** The loader never rejects: whatever the server does, its promise
    resolves. *)
Lemma loadDeviceFrame_resolves (net : Network)
    (cache : gmap string DeviceFrame) (framePath : string) :
  exists r, fst (loadDeviceFrame net cache framePath) = Resolved r.
Proof.
  unfold loadDeviceFrame, loadDeviceFrame_try.
  destruct (cache !! framePath); [eexists; reflexivity|].
  destruct (fetch net _); try (eexists; reflexivity).
  destruct (load_image net framePath); eexists; reflexivity.
Qed.

Lemma loadDeviceFrame_unavailable (net : Network)
    (cache : gmap string DeviceFrame) (framePath : string) :
  unavailable net cache framePath ->
  loadDeviceFrame net cache framePath = (Resolved None, cache).
Proof.
  intros [Hc Hn]. unfold loadDeviceFrame, loadDeviceFrame_try. rewrite Hc.
  destruct (fetch net _); try reflexivity. rewrite Hn. reflexivity.
Qed.

(** A frame that loaded is served from the cache from then on. *)
Lemma loadDeviceFrame_cached (net net' : Network)
    (cache : gmap string DeviceFrame) (framePath : string) (df : DeviceFrame) :
  fst (loadDeviceFrame net cache framePath) = Resolved (Some df) ->
  loadDeviceFrame net' (snd (loadDeviceFrame net cache framePath)) framePath
  = (Resolved (Some df), snd (loadDeviceFrame net cache framePath)).
Proof.
  unfold loadDeviceFrame at 1 3 4, loadDeviceFrame_try.
  destruct (cache !! framePath) as [d|] eqn:Hc.
  - simpl. intros [= ->]. unfold loadDeviceFrame. rewrite Hc. reflexivity.
  - destruct (fetch net _); simpl; try discriminate.
    destruct (load_image net framePath); simpl; [|discriminate].
    intros [= <-]. unfold loadDeviceFrame. rewrite lookup_insert_eq. reflexivity.
Qed.

Lemma addWatermark_keeps (text : string) (paid : bool) (c : HTMLCanvasElement) :
  exists rest, painted (addWatermark text paid c) = painted c ++ rest.
Proof.
  unfold addWatermark. rewrite custom_text_condition.
  destruct paid, (bool_decide (trim text = "")); cbn;
    rewrite <- ?app_assoc; eexists; try reflexivity.
  symmetry. apply app_nil_r.
Qed.

Lemma drawn_app (img : HTMLImageElement) (l r : list Paint)
    (v : Screen * option RoundRect) :
  drawn img l = Some v -> drawn img (l ++ r) = Some v.
Proof.
  induction l as [|p l IH]; simpl; [discriminate|].
  destruct (paint_shape p); auto.
  destruct (String.eqb _ _); auto.
Qed.

Lemma set_realScreenDimensions_type (w h : Q) (t : Template) :
  type (set_realScreenDimensions w h t) = type t.
Proof. reflexivity. Qed.

(** C6. When the bitmap of the frame or its descriptor cannot be fetched
    or decoded, the loader resolves to [null] instead of rejecting, and
    the render of the phone and of the tablet still completes: with the
    hardcoded screen (phone 380 by 780 in portrait and 780 by 380 in
    landscape, tablet 1024 by 768), a simplified frame, and the image. *)
Theorem asset_unavailable_falls_back (net : Network)
    (cache : gmap string DeviceFrame) (canvas : HTMLCanvasElement)
    (img : HTMLImageElement) (t : Template) (wm : string)
    (tr : ImageTransform) (paid : bool) :
  has_context canvas = true ->
  type t = "device" ->
  let r := applyTemplate net cache canvas img t wm tr paid in
  (forall framePath, unavailable net cache framePath ->
     loadDeviceFrame net cache framePath = (Resolved None, cache)) /\
  (device (config t) = Some "phone" ->
   unavailable net cache phone_frame_path ->
   outcome r = Resolved tt /\
   _realScreenDimensions (config (out_template r)) = Some (fallback_phone t) /\
   (exists cx cy,
      In (PhoneFrame cx cy (width (fallback_phone t)) (height (fallback_phone t))
            (orientation_or_portrait t))
         (shapes (out_canvas r))) /\
   (exists rect clip,
      drawn img (painted (out_canvas r)) = Some (rect, Some clip) /\
      clip_width clip = width (fallback_phone t) /\
      clip_height clip = height (fallback_phone t))) /\
  (device (config t) = Some "ipad" ->
   unavailable net cache ipad_frame_path ->
   outcome r = Resolved tt /\
   _realScreenDimensions (config (out_template r)) = Some fallback_tablet /\
   In (FillRect padding padding (width fallback_tablet) (height fallback_tablet))
      (shapes (out_canvas r)) /\
   (exists rect, drawn img (painted (out_canvas r)) = Some (rect, None))).
Proof.
  intros Hctx Ht r. subst r.
  split; [intros p Hp; apply loadDeviceFrame_unavailable; exact Hp|].
  unfold applyTemplate. rewrite Hctx, Ht. simpl negb. cbv iota.
  rewrite (bool_decide_eq_true_2 ("device" = "device")) by reflexivity.
  split.
  - intros Hd Hu. rewrite Hd.
    rewrite bool_decide_eq_true_2 by reflexivity.
    unfold phone_frame_path in Hu. cbv zeta.
    rewrite (loadDeviceFrame_unavailable net cache _ Hu).
    unfold applyPhoneFallback.
    rewrite drawBackground_device by (rewrite set_realScreenDimensions_type; exact Ht).
    cbv zeta. unfold applied, shapes, fallback_phone.
    cbn [outcome out_template out_canvas].
    match goal with
    | |- context [addWatermark wm paid ?c] =>
        destruct (addWatermark_keeps wm paid c) as [rest ->]
    end.
    destruct (bool_decide (orientation_or_portrait t = "portrait"));
      (split; [reflexivity|]); (split; [reflexivity|]); split.
    + eexists _, _. rewrite List.map_app. apply in_or_app. left.
      cbn. right. left. reflexivity.
    + eexists _, _. split; [apply drawn_app; cbn; rewrite String.eqb_refl;
        reflexivity|]. split; reflexivity.
    + eexists _, _. rewrite List.map_app. apply in_or_app. left.
      cbn. right. left. reflexivity.
    + eexists _, _. split; [apply drawn_app; cbn; rewrite String.eqb_refl;
        reflexivity|]. split; reflexivity.
  - intros Hd Hu. rewrite Hd.
    rewrite bool_decide_eq_false_2 by discriminate.
    rewrite bool_decide_eq_true_2 by reflexivity.
    unfold ipad_frame_path in Hu. cbv zeta.
    rewrite (loadDeviceFrame_unavailable net cache _ Hu).
    unfold applyIpadFallback.
    rewrite drawBackground_device by exact Ht.
    cbv zeta. unfold applied, shapes, fallback_tablet.
    cbn [outcome out_template out_canvas].
    match goal with
    | |- context [addWatermark wm paid ?c] =>
        destruct (addWatermark_keeps wm paid c) as [rest ->]
    end.
    split; [reflexivity|]. split; [reflexivity|]. split.
    + rewrite List.map_app. apply in_or_app. left. cbn. right. left. reflexivity.
    + eexists. apply drawn_app. cbn. rewrite String.eqb_refl. reflexivity.
Qed.

Lemma asset_unavailable_falls_back_witness :
  loadDeviceFrame net_down ∅ phone_frame_path = (Resolved None, ∅) /\
  (outcome (applyTemplate net_down ∅ blank_canvas screenshot phone_landscape
              "" identity_transform false) = Resolved tt /\
   _realScreenDimensions
     (config (out_template (applyTemplate net_down ∅ blank_canvas screenshot
                              phone_landscape "" identity_transform false)))
   = Some {| width := 780; height := 380 |}) /\
  (outcome (applyTemplate net_down ∅ blank_canvas screenshot ipad
              "" identity_transform false) = Resolved tt /\
   _realScreenDimensions
     (config (out_template (applyTemplate net_down ∅ blank_canvas screenshot
                              ipad "" identity_transform false)))
   = Some {| width := 1024; height := 768 |}).
Proof.
  assert (Hp : unavailable net_down ∅ phone_frame_path)
    by (split; [reflexivity|exact I]).
  assert (Hi : unavailable net_down ∅ ipad_frame_path)
    by (split; [reflexivity|exact I]).
  split; [|split].
  - apply (proj1 (asset_unavailable_falls_back net_down ∅ blank_canvas
      screenshot phone_landscape "" identity_transform false
      eq_refl eq_refl)). exact Hp.
  - destruct (proj1 (proj2 (asset_unavailable_falls_back net_down ∅
      blank_canvas screenshot phone_landscape "" identity_transform false
      eq_refl eq_refl)) eq_refl Hp) as (H1 & H2 & _).
    split; [exact H1|exact H2].
  - destruct (proj2 (proj2 (asset_unavailable_falls_back net_down ∅
      blank_canvas screenshot ipad "" identity_transform false
      eq_refl eq_refl)) eq_refl Hi) as (H1 & H2 & _).
    split; [exact H1|exact H2].
Defined.

(** ** Determinism *)

Ltac branches :=
  repeat match goal with
         | |- context [if ?b then _ else _] => destruct b
         end.

Section Branches.

Variables (cache : gmap string DeviceFrame) (c : HTMLCanvasElement)
  (img : HTMLImageElement) (t : Template) (wm : string)
  (tr : ImageTransform) (paid : bool).

(** What a branch paints depends on the canvas through the availability
    of a context only, and not on the cache nor on the screen dimensions
    stored in the template. *)
Lemma applyBrowser_depends :
  outcome (applyBrowser cache c img t wm tr paid)
  = outcome (applyBrowser ∅ (cleared c) img (without_dimensions t) wm tr paid) /\
  out_canvas (applyBrowser cache c img t wm tr paid)
  = out_canvas (applyBrowser ∅ (cleared c) img (without_dimensions t) wm tr paid).
Proof.
  unfold applyBrowser, drawBackground. cbv zeta.
  cbn [type config colors angle color without_dimensions].
  branches; split; reflexivity.
Qed.

Lemma applyMacbook_depends :
  outcome (applyMacbook cache c img t wm tr paid)
  = outcome (applyMacbook ∅ (cleared c) img (without_dimensions t) wm tr paid) /\
  out_canvas (applyMacbook cache c img t wm tr paid)
  = out_canvas (applyMacbook ∅ (cleared c) img (without_dimensions t) wm tr paid).
Proof.
  unfold applyMacbook, drawBackground. cbv zeta.
  cbn [type config colors angle color without_dimensions].
  branches; split; reflexivity.
Qed.

Lemma applyFlat_depends :
  outcome (applyFlat cache c img t wm tr paid)
  = outcome (applyFlat ∅ (cleared c) img (without_dimensions t) wm tr paid) /\
  out_canvas (applyFlat cache c img t wm tr paid)
  = out_canvas (applyFlat ∅ (cleared c) img (without_dimensions t) wm tr paid).
Proof.
  unfold applyFlat, drawBackground. cbv zeta.
  cbn [type config colors angle color without_dimensions].
  branches; split; reflexivity.
Qed.

Lemma applyIpadFallback_depends :
  outcome (applyIpadFallback cache c img t wm tr paid)
  = outcome (applyIpadFallback ∅ (cleared c) img (without_dimensions t) wm tr paid) /\
  out_canvas (applyIpadFallback cache c img t wm tr paid)
  = out_canvas (applyIpadFallback ∅ (cleared c) img (without_dimensions t) wm tr paid).
Proof.
  unfold applyIpadFallback, drawBackground. cbv zeta.
  cbn [type config colors angle color without_dimensions].
  branches; split; reflexivity.
Qed.

Lemma applyIpadReal_depends (df : DeviceFrame) :
  outcome (applyIpadReal df cache c img t wm tr paid)
  = outcome (applyIpadReal df ∅ (cleared c) img (without_dimensions t) wm tr paid) /\
  out_canvas (applyIpadReal df cache c img t wm tr paid)
  = out_canvas (applyIpadReal df ∅ (cleared c) img (without_dimensions t) wm tr paid).
Proof.
  unfold applyIpadReal, drawBackground. cbv zeta.
  cbn [type config colors angle color without_dimensions].
  branches; split; reflexivity.
Qed.

Lemma applyPhoneFallback_depends :
  outcome (applyPhoneFallback cache c img t wm tr paid)
  = outcome (applyPhoneFallback ∅ (cleared c) img (without_dimensions t) wm tr paid) /\
  out_canvas (applyPhoneFallback cache c img t wm tr paid)
  = out_canvas (applyPhoneFallback ∅ (cleared c) img (without_dimensions t) wm tr paid).
Proof.
  unfold applyPhoneFallback, drawBackground, orientation_or_portrait. cbv zeta.
  cbn [type config colors angle color orientation without_dimensions
       set_realScreenDimensions].
  branches; split; reflexivity.
Qed.

Lemma applyPhoneReal_depends (df : DeviceFrame) :
  outcome (applyPhoneReal df cache c img t wm tr paid)
  = outcome (applyPhoneReal df ∅ (cleared c) img (without_dimensions t) wm tr paid) /\
  out_canvas (applyPhoneReal df cache c img t wm tr paid)
  = out_canvas (applyPhoneReal df ∅ (cleared c) img (without_dimensions t) wm tr paid).
Proof.
  unfold applyPhoneReal, drawBackground, orientation_or_portrait. cbv zeta.
  cbn [type config colors angle color orientation without_dimensions].
  branches; split; reflexivity.
Qed.

End Branches.

(** A load that follows a load gives what the first one would have
    given, as long as the server answers in the same way: a frame that
    has loaded is served from the cache, and a failure is not kept. *)
Lemma load_after_load (net : Network) (cache : gmap string DeviceFrame)
    (p q : string) :
  fst (loadDeviceFrame net (snd (loadDeviceFrame net cache q)) p)
  = fst (loadDeviceFrame net cache p).
Proof.
  unfold loadDeviceFrame at 2.
  destruct (cache !! q) as [d|] eqn:Hq; [reflexivity|].
  unfold loadDeviceFrame_try.
  destruct (fetch net (replace ".png" ".json" q)) eqn:Hf; try reflexivity.
  destruct (load_image net q) as [i|] eqn:Hi; [|reflexivity].
  cbn [snd]. unfold loadDeviceFrame.
  destruct (decide (q = p)) as [->|Hne].
  - rewrite lookup_insert_eq, Hq. unfold loadDeviceFrame_try.
    rewrite Hf, Hi. reflexivity.
  - rewrite lookup_insert_ne by assumption.
    destruct (cache !! p); [reflexivity|].
    unfold loadDeviceFrame_try.
    destruct (fetch net (replace ".png" ".json" p)); try reflexivity.
    destruct (load_image net p); reflexivity.
Qed.

Lemma addWatermark_has_context (text : string) (paid : bool)
    (c : HTMLCanvasElement) :
  has_context (addWatermark text paid c) = has_context c.
Proof. unfold addWatermark. branches; reflexivity. Qed.

(** What a branch leaves behind for the next call: the context is still
    there, the template reads as before, and the cache is untouched. *)
Ltac leaves :=
  cbv zeta; branches; unfold applied;
  cbn [out_canvas out_template out_cache];
  rewrite ?addWatermark_has_context;
  (split; [reflexivity|split; reflexivity]).

Section Leaves.

Variables (cache : gmap string DeviceFrame) (c : HTMLCanvasElement)
  (img : HTMLImageElement) (t : Template) (wm : string)
  (tr : ImageTransform) (paid : bool).

Lemma applyFlat_leaves : left_by cache c t (applyFlat cache c img t wm tr paid).
Proof. unfold left_by, applyFlat, drawBackground. leaves. Qed.

Lemma applyBrowser_leaves : left_by cache c t (applyBrowser cache c img t wm tr paid).
Proof. unfold left_by, applyBrowser, drawBackground. leaves. Qed.

Lemma applyMacbook_leaves : left_by cache c t (applyMacbook cache c img t wm tr paid).
Proof. unfold left_by, applyMacbook, drawBackground. leaves. Qed.

Lemma applyIpadFallback_leaves :
  left_by cache c t (applyIpadFallback cache c img t wm tr paid).
Proof. unfold left_by, applyIpadFallback, drawBackground. leaves. Qed.

Lemma applyIpadReal_leaves (df : DeviceFrame) :
  left_by cache c t (applyIpadReal df cache c img t wm tr paid).
Proof. unfold left_by, applyIpadReal, drawBackground. leaves. Qed.

Lemma applyPhoneFallback_leaves :
  left_by cache c t (applyPhoneFallback cache c img t wm tr paid).
Proof. unfold left_by, applyPhoneFallback, drawBackground. leaves. Qed.

Lemma applyPhoneReal_leaves (df : DeviceFrame) :
  left_by cache c t (applyPhoneReal df cache c img t wm tr paid).
Proof. unfold left_by, applyPhoneReal, drawBackground. leaves. Qed.

End Leaves.

(** What [applyTemplate] leaves behind for the next call: the context is
    still there, the template reads as before, and the cache is the one
    it started with or the one that a load left. *)
Lemma applyTemplate_leaves (net : Network) (cache : gmap string DeviceFrame)
    (c : HTMLCanvasElement) (img : HTMLImageElement) (t : Template)
    (wm : string) (tr : ImageTransform) (paid : bool) :
  let r := applyTemplate net cache c img t wm tr paid in
  has_context (out_canvas r) = has_context c /\
  without_dimensions (out_template r) = without_dimensions t /\
  (out_cache r = cache \/
   exists q, out_cache r = snd (loadDeviceFrame net cache q)).
Proof.
  unfold applyTemplate. cbv zeta.
  destruct (negb (has_context c));
    [split; [reflexivity|split; [reflexivity|left; reflexivity]]|].
  destruct (bool_decide (type t = "device")).
  2: { destruct (applyFlat_leaves cache c img t wm tr paid) as (? & ? & ?).
       auto. }
  destruct (bool_decide (device (config t) = Some "phone")).
  { destruct (loadDeviceFrame net cache _) as [[[df|]|] k] eqn:E.
    - destruct (applyPhoneReal_leaves k c img t wm tr paid df) as (? & ? & ?).
      split; [assumption|split; [assumption|]].
      right. eexists. rewrite E. assumption.
    - destruct (applyPhoneFallback_leaves k c img t wm tr paid) as (? & ? & ?).
      split; [assumption|split; [assumption|]].
      right. eexists. rewrite E. assumption.
    - split; [reflexivity|split; [reflexivity|]].
      right. eexists. rewrite E. reflexivity. }
  destruct (bool_decide (device (config t) = Some "ipad")).
  { destruct (loadDeviceFrame net cache _) as [[[df|]|] k] eqn:E.
    - destruct (applyIpadReal_leaves k c img t wm tr paid df) as (? & ? & ?).
      split; [assumption|split; [assumption|]].
      right. eexists. rewrite E. assumption.
    - destruct (applyIpadFallback_leaves k c img t wm tr paid) as (? & ? & ?).
      split; [assumption|split; [assumption|]].
      right. eexists. rewrite E. assumption.
    - split; [reflexivity|split; [reflexivity|]].
      right. eexists. rewrite E. reflexivity. }
  destruct (bool_decide (device (config t) = Some "macbook")).
  - destruct (applyMacbook_leaves cache c img t wm tr paid) as (? & ? & ?).
    auto.
  - destruct (applyBrowser_leaves cache c img t wm tr paid) as (? & ? & ?).
    auto.
Qed.

Lemma cleared_eq (c c' : HTMLCanvasElement) :
  has_context c = has_context c' -> cleared c = cleared c'.
Proof. intros H. unfold cleared. rewrite H. reflexivity. Qed.

(** Two calls paint the same when their canvases both have a context,
    their templates read the same, and the frames load in the same way. *)
Lemma applyTemplate_depends (net net' : Network)
    (cache cache' : gmap string DeviceFrame) (c c' : HTMLCanvasElement)
    (img : HTMLImageElement) (t t' : Template) (wm : string)
    (tr : ImageTransform) (paid : bool) :
  has_context c = true -> has_context c' = true ->
  without_dimensions t' = without_dimensions t ->
  (forall p, fst (loadDeviceFrame net' cache' p) = fst (loadDeviceFrame net cache p)) ->
  outcome (applyTemplate net' cache' c' img t' wm tr paid)
  = outcome (applyTemplate net cache c img t wm tr paid) /\
  out_canvas (applyTemplate net' cache' c' img t' wm tr paid)
  = out_canvas (applyTemplate net cache c img t wm tr paid).
Proof.
  intros Hc Hc' Ht Hload.
  assert (Hcl : cleared c' = cleared c) by (apply cleared_eq; congruence).
  assert (Hty : type t' = type t)
    by exact (f_equal type Ht).
  assert (Hdev : device (config t') = device (config t))
    by exact (f_equal (fun u => device (config u)) Ht).
  unfold applyTemplate. cbv zeta. rewrite Hc, Hc', Hty, Hdev.
  simpl negb. cbv iota.
  destruct (bool_decide (type t = "device")).
  2: { rewrite (proj1 (applyFlat_depends cache' c' img t' wm tr paid)),
         (proj2 (applyFlat_depends cache' c' img t' wm tr paid)),
         (proj1 (applyFlat_depends cache c img t wm tr paid)),
         (proj2 (applyFlat_depends cache c img t wm tr paid)), Hcl, Ht.
       split; reflexivity. }
  destruct (bool_decide (device (config t) = Some "phone")).
  { specialize (Hload "/device-frames/iphone-16-pro-max-black.png").
    destruct (loadDeviceFrame net' cache' _) as [p' k'].
    destruct (loadDeviceFrame net cache _) as [p k] eqn:E.
    simpl in Hload. subst p'. destruct p as [[df|]|].
    - rewrite (proj1 (applyPhoneReal_depends k' c' img t' wm tr paid df)),
        (proj2 (applyPhoneReal_depends k' c' img t' wm tr paid df)),
        (proj1 (applyPhoneReal_depends k c img t wm tr paid df)),
        (proj2 (applyPhoneReal_depends k c img t wm tr paid df)), Hcl, Ht.
      split; reflexivity.
    - rewrite (proj1 (applyPhoneFallback_depends k' c' img t' wm tr paid)),
        (proj2 (applyPhoneFallback_depends k' c' img t' wm tr paid)),
        (proj1 (applyPhoneFallback_depends k c img t wm tr paid)),
        (proj2 (applyPhoneFallback_depends k c img t wm tr paid)), Hcl, Ht.
      split; reflexivity.
    - destruct (loadDeviceFrame_resolves net cache
        "/device-frames/iphone-16-pro-max-black.png") as [r Hr].
      rewrite E in Hr. discriminate Hr. }
  destruct (bool_decide (device (config t) = Some "ipad")).
  { specialize (Hload "/device-frames/ipad-pro-13-landscape-silver.png").
    destruct (loadDeviceFrame net' cache' _) as [p' k'].
    destruct (loadDeviceFrame net cache _) as [p k] eqn:E.
    simpl in Hload. subst p'. destruct p as [[df|]|].
    - rewrite (proj1 (applyIpadReal_depends k' c' img t' wm tr paid df)),
        (proj2 (applyIpadReal_depends k' c' img t' wm tr paid df)),
        (proj1 (applyIpadReal_depends k c img t wm tr paid df)),
        (proj2 (applyIpadReal_depends k c img t wm tr paid df)), Hcl, Ht.
      split; reflexivity.
    - rewrite (proj1 (applyIpadFallback_depends k' c' img t' wm tr paid)),
        (proj2 (applyIpadFallback_depends k' c' img t' wm tr paid)),
        (proj1 (applyIpadFallback_depends k c img t wm tr paid)),
        (proj2 (applyIpadFallback_depends k c img t wm tr paid)), Hcl, Ht.
      split; reflexivity.
    - destruct (loadDeviceFrame_resolves net cache
        "/device-frames/ipad-pro-13-landscape-silver.png") as [r Hr].
      rewrite E in Hr. discriminate Hr. }
  destruct (bool_decide (device (config t) = Some "macbook")).
  - rewrite (proj1 (applyMacbook_depends cache' c' img t' wm tr paid)),
      (proj2 (applyMacbook_depends cache' c' img t' wm tr paid)),
      (proj1 (applyMacbook_depends cache c img t wm tr paid)),
      (proj2 (applyMacbook_depends cache c img t wm tr paid)), Hcl, Ht.
    split; reflexivity.
  - rewrite (proj1 (applyBrowser_depends cache' c' img t' wm tr paid)),
      (proj2 (applyBrowser_depends cache' c' img t' wm tr paid)),
      (proj1 (applyBrowser_depends cache c img t wm tr paid)),
      (proj2 (applyBrowser_depends cache c img t wm tr paid)), Hcl, Ht.
    split; reflexivity.
Qed.

(** What a call paints does not depend on what the canvas showed
    before. *)
Lemma applyTemplate_forgets_canvas (net : Network)
    (cache : gmap string DeviceFrame) (c c' : HTMLCanvasElement)
    (img : HTMLImageElement) (t : Template) (wm : string)
    (tr : ImageTransform) (paid : bool) :
  has_context c = true -> has_context c' = true ->
  out_canvas (applyTemplate net cache c' img t wm tr paid)
  = out_canvas (applyTemplate net cache c img t wm tr paid).
Proof.
  intros Hc Hc'.
  apply (applyTemplate_depends net net cache cache c c' img t t wm tr paid);
    auto.
Qed.

(** C8, as stated, fails: with the same template, image, transform,
    watermark text and entitlement, a run in which the frame of the phone
    does not load and a run in which it loads paint canvases of different
    widths. *)
Lemma composite_depends_on_asset :
  let r1 :=
    applyTemplate net_down ∅ blank_canvas screenshot phone_portrait ""
      identity_transform false in
  let r2 :=
    applyTemplate net_up (out_cache r1) (out_canvas r1) screenshot
      phone_portrait "" identity_transform false in
  canvas_width (out_canvas r1) == 680 /\
  canvas_width (out_canvas r2) == 640 /\
  bitmap (out_canvas r1) <> bitmap (out_canvas r2).
Proof.
  cbv zeta. split; [vm_compute; reflexivity|]. split; [vm_compute; reflexivity|].
  intros H. apply (f_equal (fun b => fst (fst b))) in H.
  vm_compute in H. discriminate H.
Qed.

(** C8, amended. Two runs of the composite on the same template, image,
    transform, watermark text and entitlement, the second on the canvas,
    the cache and the template that the first one left, end in the same
    way and give the same bitmap, as long as the server answers the
    requests for the frame in the same way in both. *)
Theorem composite_deterministic (net : Network)
    (cache : gmap string DeviceFrame) (canvas : HTMLCanvasElement)
    (img : HTMLImageElement) (t : Template) (wm : string)
    (tr : ImageTransform) (paid : bool) :
  let r1 := applyTemplate net cache canvas img t wm tr paid in
  let r2 :=
    applyTemplate net (out_cache r1) (out_canvas r1) img (out_template r1)
      wm tr paid in
  outcome r2 = outcome r1 /\ bitmap (out_canvas r2) = bitmap (out_canvas r1).
Proof.
  cbv zeta.
  destruct (applyTemplate_leaves net cache canvas img t wm tr paid)
    as (Hctx & Ht & Hcache).
  destruct (has_context canvas) eqn:Hc.
  - destruct (applyTemplate_depends net net cache
      (out_cache (applyTemplate net cache canvas img t wm tr paid))
      canvas (out_canvas (applyTemplate net cache canvas img t wm tr paid))
      img t (out_template (applyTemplate net cache canvas img t wm tr paid))
      wm tr paid Hc Hctx Ht) as [Ho Hb].
    + intros p. destruct Hcache as [->|[q ->]]; [reflexivity|].
      apply load_after_load.
    + split; [exact Ho|]. unfold bitmap. rewrite Hb. reflexivity.
  - assert (Hr : applyTemplate net cache canvas img t wm tr paid
                 = applied (Resolved tt) cache canvas t)
      by (unfold applyTemplate; rewrite Hc; reflexivity).
    rewrite Hr. unfold applied. cbn [out_canvas out_cache out_template outcome].
    unfold applyTemplate. rewrite Hc. split; reflexivity.
Qed.

(** The same holds when the second run is handed a fresh copy of the
    template, as the editor does. *)
Lemma composite_copy_deterministic (net : Network)
    (cache : gmap string DeviceFrame) (canvas : HTMLCanvasElement)
    (img : HTMLImageElement) (t : Template) (wm : string)
    (tr : ImageTransform) (paid : bool) :
  has_context canvas = true ->
  let r1 := applyTemplate net cache canvas img t wm tr paid in
  let r2 := applyTemplate net (out_cache r1) (out_canvas r1) img t wm tr paid in
  outcome r2 = outcome r1 /\ bitmap (out_canvas r2) = bitmap (out_canvas r1).
Proof.
  intros Hc. cbv zeta.
  destruct (applyTemplate_leaves net cache canvas img t wm tr paid)
    as (Hctx & _ & Hcache).
  rewrite Hc in Hctx.
  destruct (applyTemplate_depends net net cache
    (out_cache (applyTemplate net cache canvas img t wm tr paid))
    canvas (out_canvas (applyTemplate net cache canvas img t wm tr paid))
    img t t wm tr paid Hc Hctx eq_refl) as [Ho Hb].
  - intros p. destruct Hcache as [->|[q ->]]; [reflexivity|].
    apply load_after_load.
  - split; [exact Ho|]. unfold bitmap. rewrite Hb. reflexivity.
Qed.

(** The templates that load no frame paint the same whatever the server
    does. *)
Lemma composite_without_asset (net net' : Network)
    (cache cache' : gmap string DeviceFrame) (c c' : HTMLCanvasElement)
    (img : HTMLImageElement) (t : Template) (wm : string)
    (tr : ImageTransform) (paid : bool) :
  has_context c = true -> has_context c' = true ->
  device (config t) <> Some "phone" -> device (config t) <> Some "ipad" ->
  out_canvas (applyTemplate net' cache' c' img t wm tr paid)
  = out_canvas (applyTemplate net cache c img t wm tr paid).
Proof.
  intros Hc Hc' Hp Hi.
  assert (Hcl : cleared c' = cleared c) by (apply cleared_eq; congruence).
  unfold applyTemplate. rewrite Hc, Hc'. simpl negb. cbv iota.
  rewrite (bool_decide_eq_false_2 _ Hp), (bool_decide_eq_false_2 _ Hi).
  destruct (bool_decide (type t = "device"));
    [destruct (bool_decide (device (config t) = Some "macbook"))|].
  - rewrite (proj2 (applyMacbook_depends cache' c' img t wm tr paid)),
      (proj2 (applyMacbook_depends cache c img t wm tr paid)), Hcl.
    reflexivity.
  - rewrite (proj2 (applyBrowser_depends cache' c' img t wm tr paid)),
      (proj2 (applyBrowser_depends cache c img t wm tr paid)), Hcl.
    reflexivity.
  - rewrite (proj2 (applyFlat_depends cache' c' img t wm tr paid)),
      (proj2 (applyFlat_depends cache c img t wm tr paid)), Hcl.
    reflexivity.
Qed.

(** ** The fill presets against the renderer *)

(** At [transform.scale = 1] an image that is relatively wider than the
    screen is drawn lower than the screen: the base scale fits, it does
    not cover. *)
Lemma fit_leaves_gap (img : HTMLImageElement) (sw sh : Q)
    (tr : ImageTransform) (cx cy : Q) :
  0 < image_width img -> 0 < image_height img -> scale tr == 1 ->
  sw / image_width img < sh / image_height img ->
  screen_height (scaledImage img sw sh tr cx cy) < sh.
Proof.
  intros Hw Hh Hs Hlt. unfold scaledImage.
  cbn [screen_height].
  rewrite Hs, Qmult_1_r, Q.min_l by (apply Qlt_le_weak; exact Hlt).
  assert (He : image_height img * (sh / image_height img) == sh)
    by (field; apply positive_nonzero; assumption).
  rewrite <- He. apply Qmult_lt_l; assumption.
Qed.

(** C1 at two failing inputs, a square screenshot of 1000 by 1000 in the
    browser window and in the portrait phone whose frame has loaded.
    "Fill All" hands over the scale 1, and the render that follows draws
    the image 675 by 675 into the browser content of 1200 by 675, and 396
    by 396 into the phone screen of 396 by 836: the image does not cover
    the screen. *)
Theorem fill_all_does_not_cover :
  (handleFillScreen (Some browser) (Some screenshot) = Some identity_transform /\
   exists res rect clip,
     applyFillTransform net_down ∅ (Some blank_canvas) (Some screenshot)
       (Some browser) "" false identity_transform = Some res /\
     drawn screenshot (painted (out_canvas res)) = Some (rect, Some clip) /\
     clip_width clip == 1200 /\ clip_height clip == 675 /\
     screen_width rect == 675 /\ screen_height rect == 675 /\
     screen_width rect < clip_width clip) /\
  (handleFillScreen (Some phone_portrait) (Some screenshot)
   = Some identity_transform /\
   exists res rect clip,
     applyFillTransform net_up ∅ (Some blank_canvas) (Some screenshot)
       (Some phone_portrait) "" false identity_transform = Some res /\
     drawn screenshot (painted (out_canvas res)) = Some (rect, Some clip) /\
     clip_width clip == 396 /\ clip_height clip == 836 /\
     screen_width rect == 396 /\ screen_height rect == 396 /\
     screen_height rect < clip_height clip).
Proof.
  split; (split; [reflexivity|]);
    eexists _, _, _; (split; [reflexivity|]);
    (split; [vm_compute; reflexivity|]);
    repeat split; vm_compute; reflexivity.
Qed.

(** C2 at two failing inputs, the same screenshot in the browser window
    and in the portrait phone, after a first render has stored the screen
    dimensions.  In the browser "Fill Horizontal" hands over the scale 1
    and the image is drawn 675 wide in the content of 1200; in the phone
    it hands over 99/209 and the image is drawn 39204/209 wide, less than
    half of the 396 of the screen. *)
Theorem fill_horizontal_misses_width :
  (let first :=
     applyTemplate net_down ∅ blank_canvas screenshot browser ""
       identity_transform false in
   exists dims tr res rect clip,
     _realScreenDimensions (config (out_template first)) = Some dims /\
     handleFillHorizontal (Some browser) (Some screenshot) (Some dims)
     = Some tr /\
     applyFillTransform net_down (out_cache first) (Some (out_canvas first))
       (Some screenshot) (Some browser) "" false tr = Some res /\
     drawn screenshot (painted (out_canvas res)) = Some (rect, Some clip) /\
     scale tr == 1 /\ x tr == 0 /\ y tr == 0 /\
     clip_width clip == 1200 /\
     screen_width rect == 675 /\
     ~ screen_width rect == clip_width clip) /\
  (let first :=
     applyTemplate net_up ∅ blank_canvas screenshot phone_portrait ""
       identity_transform false in
   exists dims tr res rect clip,
     _realScreenDimensions (config (out_template first)) = Some dims /\
     handleFillHorizontal (Some phone_portrait) (Some screenshot) (Some dims)
     = Some tr /\
     applyFillTransform net_up (out_cache first) (Some (out_canvas first))
       (Some screenshot) (Some phone_portrait) "" false tr = Some res /\
     drawn screenshot (painted (out_canvas res)) = Some (rect, Some clip) /\
     scale tr == 99 # 209 /\ x tr == 0 /\ y tr == 0 /\
     clip_width clip == 396 /\
     screen_width rect == 39204 # 209 /\
     ~ screen_width rect == clip_width clip).
Proof.
  split; cbv zeta; eexists _, _, _, _, _;
    (split; [vm_compute; reflexivity|]); (split; [vm_compute; reflexivity|]);
    (split; [reflexivity|]); (split; [vm_compute; reflexivity|]);
    repeat split; try (vm_compute; reflexivity);
    intros H; vm_compute in H; discriminate H.
Qed.

(** "Fill Horizontal" falls short of the width of the screen for every
    image whose proportions differ from those of the screen: the preset
    divides by the cover scale, and the renderer multiplies by the fit
    scale. *)
Lemma fill_horizontal_falls_short (img : HTMLImageElement) (sw sh cx cy : Q) :
  0 < image_width img -> 0 < image_height img -> 0 < sw -> 0 < sh ->
  ~ sw / image_width img == sh / image_height img ->
  screen_width
    (scaledImage img sw sh
       {| scale := (sw / image_width img)
                   / Qmax (sw / image_width img) (sh / image_height img);
          x := 0; y := 0 |} cx cy) < sw.
Proof.
  intros Hiw Hih Hsw Hsh Hne. unfold scaledImage. cbn [screen_width scale].
  set (a := sw / image_width img) in *. set (b := sh / image_height img) in *.
  assert (Ha : 0 < a).
  { unfold a. apply Qlt_shift_div_l; [assumption|]. rewrite Qmult_0_l. assumption. }
  assert (Hb : 0 < b).
  { unfold b. apply Qlt_shift_div_l; [assumption|]. rewrite Qmult_0_l. assumption. }
  assert (He : image_width img * a == sw)
    by (unfold a; field; apply positive_nonzero; assumption).
  rewrite <- He. apply Qmult_lt_l; [assumption|].
  destruct (Q_dec a b) as [[Hlt|Hgt]|Heq]; [| |contradiction].
  - rewrite Q.min_l, Q.max_r by (apply Qlt_le_weak; assumption).
    assert (Hq : a / b < 1).
    { apply Qlt_shift_div_r; [assumption|]. rewrite Qmult_1_l. assumption. }
    apply Qlt_le_trans with (a * 1);
      [apply Qmult_lt_l; assumption|rewrite Qmult_1_r; apply Qle_refl].
  - rewrite Q.min_r, Q.max_l by (apply Qlt_le_weak; assumption).
    assert (Hq : a / a == 1) by (field; apply positive_nonzero; assumption).
    rewrite Hq, Qmult_1_r. assumption.
Qed.

(** * Further properties *)

Import Session Geometry TemplateSelector.
Local Open Scope Z_scope.

(** ** The counter of the quota *)

Lemma pretty_N_char_value (k : N) :
  (k < 10)%N -> digit_of (pretty_N_char k) = Some (Z.of_N k).
Proof.
  intros Hk.
  assert (k = 0 \/ k = 1 \/ k = 2 \/ k = 3 \/ k = 4 \/ k = 5 \/ k = 6
          \/ k = 7 \/ k = 8 \/ k = 9)%N as Hc by lia.
  repeat destruct Hc as [->|Hc]; try subst k; reflexivity.
Qed.

(** The digits that print [n], read back, continue the number [n]. *)
Lemma parse_digits_pretty (n : N) (s : string) :
  parse_digits (pretty_N_go n s) true 0 = parse_digits s true (Z.of_N n).
Proof.
  revert s. induction (N.lt_wf_0 n) as [n _ IH]. intros s.
  destruct (decide (n = 0%N)) as [->|Hn]; [rewrite pretty_N_go_0; reflexivity|].
  rewrite pretty_N_go_step by lia.
  rewrite IH by (apply N.div_lt; lia).
  simpl. rewrite pretty_N_char_value by (apply N.mod_lt; lia).
  f_equal. rewrite (N.div_mod n 10) at 3 by lia. lia.
Qed.

Lemma pretty_N_go_nonempty (n : N) (s : string) :
  s <> "" -> pretty_N_go n s <> "".
Proof.
  revert s. induction (N.lt_wf_0 n) as [n _ IH]. intros s Hs.
  destruct (decide (n = 0%N)) as [->|Hn]; [rewrite pretty_N_go_0; exact Hs|].
  rewrite pretty_N_go_step by lia. apply IH; [apply N.div_lt; lia|discriminate].
Qed.

Lemma pretty_positive_digits (p : positive) :
  all_digits (pretty_N_go (Npos p) "") = true /\ pretty_N_go (Npos p) "" <> "".
Proof.
  split; [apply pretty_N_go_digits; reflexivity|].
  rewrite pretty_N_go_step by lia. apply pretty_N_go_nonempty. discriminate.
Qed.

Lemma parse_digits_unseen (s : string) :
  all_digits s = true -> s <> "" ->
  parse_digits s false 0 = parse_digits s true 0.
Proof.
  destruct s as [|c r]; [congruence|]. simpl.
  destruct (digit_of c); [reflexivity|discriminate].
Qed.

(** A string that starts with a digit is read without its sign or
    leading space being looked for. *)
Lemma parseInt10_unsigned (s : string) :
  all_digits s = true -> s <> "" ->
  parseInt10 s =
    match parse_digits s false 0 with Some z => Int z | None => NaN end.
Proof.
  destruct s as [|c r]; [congruence|]. intros Hs _. simpl in Hs.
  destruct (digit_of c) as [d|] eqn:Hd; [|discriminate].
  unfold parseInt10. simpl skip_white_space.
  rewrite (digit_is_no_space c d Hd).
  destruct c as [[] [] [] [] [] [] [] []];
    try (vm_compute in Hd; discriminate Hd); reflexivity.
Qed.

Lemma parseInt10_positive (p : positive) :
  parseInt10 (pretty_N_go (Npos p) "") = Int (Zpos p).
Proof.
  destruct (pretty_positive_digits p) as [Hd Hne].
  rewrite parseInt10_unsigned, parse_digits_unseen, parse_digits_pretty by assumption.
  reflexivity.
Qed.

(** [parseInt(String(z), 10)] is [z]. *)
Lemma parseInt10_String (z : Z) : parseInt10 (String_of_number (Int z)) = Int z.
Proof.
  destruct z as [|p|p]; [reflexivity| |].
  - unfold String_of_number, pretty, pretty_Z, pretty, pretty_positive, pretty, pretty_N.
    rewrite decide_False by discriminate. apply parseInt10_positive.
  - unfold String_of_number, pretty, pretty_Z, pretty, pretty_positive, pretty, pretty_N.
    rewrite decide_False by discriminate.
    destruct (pretty_positive_digits p) as [Hd Hne].
    change (parseInt10 ("-" +:+ pretty_N_go (N.pos p) ""))
      with (match parse_digits (pretty_N_go (N.pos p) "") false 0 with
            | Some z => Int (- z)
            | None => NaN
            end).
    rewrite parse_digits_unseen, parse_digits_pretty by assumption.
    reflexivity.
Qed.

Lemma String_of_number_nonempty (n : number) : String_of_number n <> "".
Proof.
  destruct n as [[|p|p]| | |]; try discriminate.
  unfold String_of_number, pretty, pretty_Z, pretty, pretty_positive, pretty, pretty_N.
  rewrite decide_False by discriminate. apply pretty_positive_digits.
Qed.

Lemma parseInt10_cases (s : string) :
  (exists z, parseInt10 s = Int z) \/ parseInt10 s = NaN.
Proof.
  unfold parseInt10.
  destruct (skip_white_space s) as [|c r].
  - right. reflexivity.
  - destruct c as [[] [] [] [] [] [] [] []];
      match goal with
      | |- context [parse_digits ?u false 0] =>
          destruct (parse_digits u false 0); eauto
      end.
Qed.

Lemma getUsageCount_cases (b : Browser) :
  (exists z, fst (getUsageCount b) = Int z) \/ fst (getUsageCount b) = NaN.
Proof.
  unfold getUsageCount.
  destruct (negb (window_defined b)); [left; eexists; reflexivity|].
  case_bool_decide; [|left; eexists; reflexivity].
  destruct (getItem USES b) as [s|]; [|left; eexists; reflexivity].
  case_bool_decide; [left; eexists; reflexivity|]. apply parseInt10_cases.
Qed.

(** What [getUsageCount] leaves: the browser is in the current month and
    its stored count is the count that was returned. *)
Lemma getUsageCount_settles (b : Browser) :
  window_defined b = true ->
  window_defined (snd (getUsageCount b)) = true /\
  now (snd (getUsageCount b)) = now b /\
  getItem RESET_DATE (snd (getUsageCount b)) = Some (getCurrentMonth b) /\
  stored_count (snd (getUsageCount b)) = fst (getUsageCount b) /\
  getItem PAID (snd (getUsageCount b)) = getItem PAID b.
Proof.
  intros Hw.
  destruct (decide (getItem RESET_DATE b = Some (getCurrentMonth b))) as [Hm|Hm].
  - destruct (getUsageCount_same_month b Hw Hm) as [Hc Hs]. rewrite Hs, Hc. auto.
  - destruct (getUsageCount_new_month b Hw Hm) as (Hc & Hr & Hu & Hk).
    assert (Hb : snd (getUsageCount b)
                 = setItem USES "0" (setItem RESET_DATE (getCurrentMonth b) b)).
    { unfold getUsageCount. rewrite Hw. simpl negb. cbv iota.
      rewrite bool_decide_eq_false_2 by assumption. reflexivity. }
    split; [rewrite Hb; exact Hw|]. split; [rewrite Hb; reflexivity|].
    split; [exact Hr|]. split; [|apply Hk; discriminate].
    rewrite Hc. unfold stored_count. rewrite Hu. reflexivity.
Qed.

Lemma getUsageCount_after_write (b : Browser) (s : string) :
  window_defined b = true ->
  getItem RESET_DATE b = Some (getCurrentMonth b) ->
  s <> "" ->
  getUsageCount (setItem USES s b) = (parseInt10 s, setItem USES s b).
Proof.
  intros Hw Hm Hs.
  assert (Hm' : getItem RESET_DATE (setItem USES s b)
                = Some (getCurrentMonth (setItem USES s b))).
  { unfold getItem, setItem, getCurrentMonth in *. cbn [localStorage now].
    rewrite lookup_insert_ne by discriminate. exact Hm. }
  destruct (getUsageCount_same_month (setItem USES s b) Hw Hm') as [Hc Hst].
  rewrite (surjective_pairing (getUsageCount (setItem USES s b))), Hc, Hst.
  f_equal. unfold stored_count, getItem, setItem. cbn [localStorage].
  rewrite lookup_insert_eq, bool_decide_eq_false_2 by assumption. reflexivity.
Qed.

Lemma incrementUsage_unfold (b : Browser) :
  window_defined b = true ->
  incrementUsage b
  = setItem USES
      (String_of_number (number_add (fst (getUsageCount b)) (Int 1)))
      (snd (getUsageCount b)).
Proof.
  intros Hw. unfold incrementUsage. rewrite Hw. simpl negb. cbv iota.
  destruct (getUsageCount b). reflexivity.
Qed.

Lemma incrementUsage_adds_one (b : Browser) :
  window_defined b = true ->
  getUsageCount (incrementUsage b)
  = (number_add (fst (getUsageCount b)) (Int 1), incrementUsage b).
Proof.
  intros Hw. rewrite incrementUsage_unfold by assumption.
  destruct (getUsageCount_settles b Hw) as (Hw1 & Hn & Hr & _ & _).
  rewrite getUsageCount_after_write; [|exact Hw1| |apply String_of_number_nonempty].
  - f_equal.
    destruct (getUsageCount_cases b) as [[z ->]| ->];
      [apply parseInt10_String|reflexivity].
  - rewrite Hr. unfold getCurrentMonth. rewrite Hn. reflexivity.
Qed.



Lemma getUsageCount_twice (b : Browser) :
  getUsageCount (snd (getUsageCount b)) = getUsageCount b.
Proof.
  destruct (window_defined b) eqn:Hw;
    [|rewrite (getUsageCount_server b Hw); cbn [snd];
      rewrite (getUsageCount_server b Hw); reflexivity].
  destruct (getUsageCount_settles b Hw) as (Hw1 & Hn & Hr & Hc & _).
  assert (Hm : getItem RESET_DATE (snd (getUsageCount b))
               = Some (getCurrentMonth (snd (getUsageCount b)))).
  { rewrite Hr. unfold getCurrentMonth. rewrite Hn. reflexivity. }
  destruct (getUsageCount_same_month _ Hw1 Hm) as [Hc' Hs'].
  rewrite (surjective_pairing (getUsageCount (snd (getUsageCount b)))).
  rewrite Hc', Hs', Hc. symmetry. apply surjective_pairing.
Qed.


(** *** Reaching the limit *)

Lemma isPaidUser_reads (b : Browser) :
  fst (isPaidUser b)
  = andb (window_defined b) (bool_decide (getItem PAID b = Some "true")).
Proof. unfold isPaidUser. destruct (window_defined b); reflexivity. Qed.

Lemma incrementUsage_keeps (b : Browser) :
  window_defined (incrementUsage b) = window_defined b /\
  fst (isPaidUser (incrementUsage b)) = fst (isPaidUser b).
Proof.
  destruct (window_defined b) eqn:Hw.
  - rewrite !isPaidUser_reads, incrementUsage_unfold by assumption.
    destruct (getUsageCount_settles b Hw) as (Hw1 & _ & _ & _ & Hp).
    unfold getItem, setItem in *. cbn [window_defined localStorage].
    rewrite lookup_insert_ne by discriminate. rewrite Hw1, Hw, Hp. auto.
  - unfold incrementUsage. rewrite Hw. simpl. auto.
Qed.


Lemma hasHitFreeLimit_free (b : Browser) :
  fst (isPaidUser b) = false ->
  hasHitFreeLimit b
  = (number_ge (fst (getUsageCount b)) FREE_LIMIT, snd (getUsageCount b)).
Proof.
  intros Hp. unfold hasHitFreeLimit.
  pose proof (isPaidUser_pure b) as Hs.
  destruct (isPaidUser b) as [paid b1]. simpl in Hp, Hs. subst.
  destruct (getUsageCount b). reflexivity.
Qed.

Lemma getRemainingExports_free (b : Browser) :
  fst (isPaidUser b) = false ->
  getRemainingExports b
  = (Math_max (Int 0) (number_sub FREE_LIMIT (fst (getUsageCount b))),
     snd (getUsageCount b)).
Proof.
  intros Hp. unfold getRemainingExports.
  pose proof (isPaidUser_pure b) as Hs.
  destruct (isPaidUser b) as [paid b1]. simpl in Hp, Hs. subst.
  destruct (getUsageCount b). reflexivity.
Qed.



(** X4. For a free user whose usage entry is well formed, the number of
    remaining exports is an integer between 0 and 3, and the limit is hit
    exactly when none remains. *)
Theorem remaining_matches_limit (b : Browser) :
  window_defined b = true ->
  fst (isPaidUser b) = false ->
  uses_well_formed b ->
  exists r,
    fst (getRemainingExports b) = Int r /\ 0 <= r <= 3 /\
    (fst (hasHitFreeLimit b) = true <-> r = 0).
Proof.
  intros Hw Hp Hwf.
  pose proof (getUsageCount_non_negative b Hw Hwf) as Hpos.
  rewrite getRemainingExports_free, hasHitFreeLimit_free by assumption.
  destruct (fst (getUsageCount b)) as [z| | |]; try contradiction.
  unfold non_negative in Hpos. exists (Z.max 0 (3 - z)).
  split; [reflexivity|]. split; [lia|].
  cbn [fst number_ge FREE_LIMIT]. rewrite bool_decide_eq_true. lia.
Qed.

Lemma remaining_matches_limit_witness :
  exists r,
    fst (getRemainingExports free_browser) = Int r /\ 0 <= r <= 3 /\
    (fst (hasHitFreeLimit free_browser) = true <-> r = 0).
Proof.
  apply (remaining_matches_limit free_browser); [reflexivity|reflexivity|].
  intros s Hs. vm_compute in Hs. injection Hs as <-. reflexivity.
Defined.




(** X6. A new month restarts the quota of a free user, whatever count was
    stored: the limit is not hit and three exports remain. *)
Theorem new_month_restarts_quota (b : Browser) :
  window_defined b = true ->
  fst (isPaidUser b) = false ->
  getItem RESET_DATE b <> Some (getCurrentMonth b) ->
  fst (hasHitFreeLimit b) = false /\
  fst (getRemainingExports b) = Int 3 /\
  getItem RESET_DATE (snd (hasHitFreeLimit b)) = Some (getCurrentMonth b).
Proof.
  intros Hw Hp Hm.
  destruct (getUsageCount_new_month b Hw Hm) as (Hc & Hr & _).
  rewrite getRemainingExports_free, hasHitFreeLimit_free by assumption.
  cbn [fst snd]. rewrite Hc.
  split; [reflexivity|]. split; [reflexivity|exact Hr].
Qed.

Lemma new_month_restarts_quota_witness :
  getItem USES october_browser = Some "3" /\
  fst (hasHitFreeLimit october_browser) = false /\
  fst (getRemainingExports october_browser) = Int 3 /\
  getItem RESET_DATE (snd (hasHitFreeLimit october_browser))
  = Some (getCurrentMonth october_browser).
Proof.
  split; [reflexivity|].
  apply (new_month_restarts_quota october_browser);
    [reflexivity|reflexivity|].
  intros H. vm_compute in H. discriminate H.
Defined.

(** *** The entitlement *)

Lemma markAsPaid_store (customerId subscriptionId : option string)
    (b : Browser) :
  window_defined b = true ->
  window_defined (markAsPaid customerId subscriptionId b) = true /\
  getItem PAID (markAsPaid customerId subscriptionId b) = Some "true" /\
  getItem USES (markAsPaid customerId subscriptionId b) = getItem USES b /\
  getItem RESET_DATE (markAsPaid customerId subscriptionId b)
  = getItem RESET_DATE b.
Proof.
  intros Hw. unfold markAsPaid. rewrite Hw. simpl negb. cbv iota.
  destruct customerId as [c|], subscriptionId as [u|];
    repeat case_bool_decide;
    unfold getItem, setItem; cbn [window_defined localStorage];
    (split; [assumption|]);
    (split; [rewrite ?lookup_insert_ne by discriminate; apply lookup_insert_eq|]);
    split; rewrite ?lookup_insert_ne by discriminate; reflexivity.
Qed.

Lemma revokePaid_store (b : Browser) :
  window_defined b = true ->
  window_defined (revokePaid b) = true /\
  getItem PAID (revokePaid b) = None /\
  getItem CUSTOMER_ID (revokePaid b) = None /\
  getItem SUBSCRIPTION_ID (revokePaid b) = None /\
  getItem LAST_VERIFIED (revokePaid b) = None /\
  getItem USES (revokePaid b) = getItem USES b /\
  getItem RESET_DATE (revokePaid b) = getItem RESET_DATE b.
Proof.
  intros Hw. unfold revokePaid. rewrite Hw. simpl negb. cbv iota.
  unfold getItem, removeItem. cbn [window_defined localStorage].
  repeat split; try assumption;
    rewrite ?lookup_delete_ne by discriminate;
    try apply lookup_delete_eq; reflexivity.
Qed.

(** X7. [markAsPaid] entitles the user, and a [revokePaid] after it
    leaves no trace of the payment: the user is not paid, no customer or
    subscription is stored, no verification is cached, and the usage
    count and its month are as they were before. *)
Theorem revokePaid_undoes_markAsPaid (customerId subscriptionId : option string)
    (dateNow : Z) (b : Browser) :
  window_defined b = true ->
  fst (isPaidUser (markAsPaid customerId subscriptionId b)) = true /\
  let b' := revokePaid (markAsPaid customerId subscriptionId b) in
  fst (isPaidUser b') = false /\
  getCustomerId b' = None /\
  getSubscriptionId b' = None /\
  isVerificationCached dateNow b' = false /\
  getItem USES b' = getItem USES b /\
  getItem RESET_DATE b' = getItem RESET_DATE b.
Proof.
  intros Hw. cbv zeta.
  destruct (markAsPaid_store customerId subscriptionId b Hw)
    as (Hw1 & Hp1 & Hu1 & Hr1).
  destruct (revokePaid_store _ Hw1) as (Hw2 & Hp2 & Hc2 & Hs2 & Hv2 & Hu2 & Hr2).
  rewrite !isPaidUser_reads, Hw1, Hw2, Hp1, Hp2.
  unfold getCustomerId, getSubscriptionId, isVerificationCached.
  rewrite Hw2, Hc2, Hs2, Hv2, Hu2, Hr2, Hu1, Hr1. simpl.
  repeat split; reflexivity.
Qed.

Lemma revokePaid_undoes_markAsPaid_witness :
  fst (isPaidUser (markAsPaid (Some "cus_1") (Some "sub_1") free_browser)) = true /\
  let b' := revokePaid (markAsPaid (Some "cus_1") (Some "sub_1") free_browser) in
  fst (isPaidUser b') = false /\
  getCustomerId b' = None /\
  getSubscriptionId b' = None /\
  isVerificationCached 0 b' = false /\
  getItem USES b' = getItem USES free_browser /\
  getItem RESET_DATE b' = getItem RESET_DATE free_browser.
Proof.
  apply (revokePaid_undoes_markAsPaid (Some "cus_1") (Some "sub_1") 0
           free_browser).
  reflexivity.
Defined.

(** What [isVerificationCached] reads after [updateVerificationCache]. *)
Lemma verification_window (t t' : Z) (b : Browser) :
  window_defined b = true ->
  isVerificationCached t' (updateVerificationCache t b)
  = bool_decide (t' - 3600000 < t).
Proof.
  intros Hw. unfold isVerificationCached, updateVerificationCache.
  rewrite Hw. simpl negb. cbv iota.
  unfold getItem, setItem. cbn [window_defined localStorage].
  rewrite Hw, lookup_insert_eq. simpl negb. cbv iota.
  rewrite bool_decide_eq_false_2 by apply String_of_number_nonempty.
  rewrite parseInt10_String. reflexivity.
Qed.

(** X8. A verification that [updateVerificationCache] recorded at the
    time [t] counts as cached at the time [t'] exactly when less than an
    hour, 3600000 milliseconds, has passed. *)
Theorem verification_cached_for_an_hour (t t' : Z) (b : Browser) :
  window_defined b = true ->
  isVerificationCached t' (updateVerificationCache t b)
  = bool_decide (t' - 3600000 < t).
Proof. apply verification_window. Qed.

Lemma verification_cached_for_an_hour_witness :
  isVerificationCached 1700003599999 (updateVerificationCache 1700000000000 free_browser)
  = true /\
  isVerificationCached 1700003600000 (updateVerificationCache 1700000000000 free_browser)
  = false.
Proof.
  split.
  - rewrite (verification_cached_for_an_hour 1700000000000 1700003599999
               free_browser); reflexivity.
  - rewrite (verification_cached_for_an_hour 1700000000000 1700003600000
               free_browser); reflexivity.
Defined.

(** ** Downloading *)

Lemma handleDownload_free (verify : string -> Verification) (dateNow : Z)
    (encodes : bool) (e : Editor) :
  isPaid e = false ->
  handleDownload verify dateNow encodes e = download_or_paywall encodes e.
Proof. intros Hp. unfold handleDownload. rewrite Hp. reflexivity. Qed.

(** The two ways a download of a free user ends. *)
Lemma download_free_cases (encodes : bool) (e : Editor) (z : Z)
    (c : HTMLCanvasElement) :
  isPaid e = false ->
  fst (isPaidUser (storage e)) = false ->
  fst (getUsageCount (storage e)) = Int z ->
  canvasRef e = Some c ->
  download_or_paywall encodes e =
    if bool_decide (3 <= z) then
      {| storage := snd (getUsageCount (storage e)); isPaid := false;
         showPaywall := true; canvasRef := Some c; saved := saved e;
         alerts := alerts e; verifications := verifications e |}
    else
      {| storage := incrementUsage (snd (getUsageCount (storage e)));
         isPaid := false; showPaywall := showPaywall e; canvasRef := Some c;
         saved := exportCanvas encodes c "appshot-pro" (saved e);
         alerts := alerts e; verifications := verifications e |}.
Proof.
  intros Hp Hu Hz Hc. unfold download_or_paywall.
  rewrite Hp, Hc. simpl negb. cbv iota.
  rewrite hasHitFreeLimit_free, Hz by assumption.
  cbn [number_ge FREE_LIMIT andb].
  destruct (bool_decide (3 <= z)); reflexivity.
Qed.

Lemma count_after_increment (b : Browser) (z : Z) :
  window_defined b = true ->
  fst (getUsageCount b) = Int z ->
  window_defined (incrementUsage (snd (getUsageCount b))) = true /\
  fst (isPaidUser (incrementUsage (snd (getUsageCount b)))) = fst (isPaidUser b) /\
  fst (getUsageCount (incrementUsage (snd (getUsageCount b)))) = Int (z + 1).
Proof.
  intros Hw Hz.
  destruct (getUsageCount_settles b Hw) as (Hw1 & _ & _ & _ & Hp).
  destruct (incrementUsage_keeps (snd (getUsageCount b))) as [Hk1 Hk2].
  rewrite Hk1, Hk2, incrementUsage_adds_one, getUsageCount_twice, Hz by assumption.
  rewrite !isPaidUser_reads, Hw1, Hw, Hp. auto.
Qed.



(** X10. A free user at the limit who downloads gets the paywall:
    nothing is downloaded and the count stays. *)
Theorem limited_download_shows_paywall (verify : string -> Verification)
    (dateNow : Z) (encodes : bool) (e : Editor) (z : Z) (c : HTMLCanvasElement) :
  isPaid e = false ->
  window_defined (storage e) = true ->
  fst (isPaidUser (storage e)) = false ->
  fst (getUsageCount (storage e)) = Int z ->
  3 <= z ->
  canvasRef e = Some c ->
  let e' := handleDownload verify dateNow encodes e in
  showPaywall e' = true /\
  saved e' = saved e /\
  fst (getUsageCount (storage e')) = Int z.
Proof.
  intros Hp Hw Hu Hz Hge Hc. cbv zeta.
  rewrite handleDownload_free by assumption.
  rewrite (download_free_cases encodes e z c) by assumption.
  rewrite bool_decide_eq_true_2 by lia.
  cbn [saved storage showPaywall].
  rewrite getUsageCount_twice. auto.
Qed.

Lemma limited_download_shows_paywall_witness :
  let e := editor_on (Nat.iter 1 incrementUsage free_browser) false in
  showPaywall (handleDownload (fun _ => VerifyRejects) 0 true e) = true /\
  saved (handleDownload (fun _ => VerifyRejects) 0 true e) = saved e /\
  fst (getUsageCount (storage (handleDownload (fun _ => VerifyRejects) 0 true e)))
  = Int 3.
Proof.
  cbv zeta.
  apply (limited_download_shows_paywall (fun _ => VerifyRejects) 0 true
           (editor_on (Nat.iter 1 incrementUsage free_browser) false) 3
           blank_canvas); reflexivity.
Defined.

Lemma getUsageCount_keeps_paid (b : Browser) :
  window_defined b = true ->
  fst (isPaidUser (snd (getUsageCount b))) = fst (isPaidUser b).
Proof.
  intros Hw. destruct (getUsageCount_settles b Hw) as (Hw1 & _ & _ & _ & Hp).
  rewrite !isPaidUser_reads, Hw1, Hw, Hp. reflexivity.
Qed.

(** What a run of downloads of a free user keeps, and how far it gets. *)
Lemma free_downloads_run (verify : string -> Verification) (dateNow : Z)
    (n : nat) (e : Editor) (z : Z) (c : HTMLCanvasElement) :
  isPaid e = false ->
  window_defined (storage e) = true ->
  fst (isPaidUser (storage e)) = false ->
  fst (getUsageCount (storage e)) = Int z ->
  canvasRef e = Some c ->
  let e' := Nat.iter n (handleDownload verify dateNow true) e in
  let m := Z.min (Z.of_nat n) (Z.max 0 (3 - z)) in
  isPaid e' = false /\
  window_defined (storage e') = true /\
  fst (isPaidUser (storage e')) = false /\
  fst (getUsageCount (storage e')) = Int (z + m) /\
  canvasRef e' = Some c /\
  downloaded e' = (downloaded e + Z.to_nat m)%nat.
Proof.
  intros Hp Hw Hu Hz Hc. cbv zeta. induction n as [|n IH].
  - simpl Nat.iter. replace (Z.min (Z.of_nat 0) (Z.max 0 (3 - z))) with 0 by lia.
    rewrite Z.add_0_r, Nat.add_0_r. repeat split; assumption || reflexivity.
  - rewrite Nat.iter_succ.
    set (e1 := Nat.iter n (handleDownload verify dateNow true) e) in *.
    set (m := Z.min (Z.of_nat n) (Z.max 0 (3 - z))) in *.
    destruct IH as (Hp1 & Hw1 & Hu1 & Hz1 & Hc1 & Hd1).
    rewrite handleDownload_free by assumption.
    rewrite (download_free_cases true e1 (z + m) c) by assumption.
    destruct (bool_decide (3 <= z + m)) eqn:Hb.
    + apply bool_decide_eq_true in Hb.
      cbn [isPaid storage canvasRef]. unfold downloaded in *. cbn [saved].
      destruct (getUsageCount_settles (storage e1) Hw1) as (Hw2 & _).
      rewrite getUsageCount_keeps_paid, getUsageCount_twice, Hz1, Hd1 by assumption.
      repeat split; try assumption; try reflexivity.
      * f_equal. lia.
      * f_equal. lia.
    + apply bool_decide_eq_false in Hb.
      cbn [isPaid storage canvasRef]. unfold downloaded in *. cbn [saved].
      destruct (count_after_increment (storage e1) (z + m) Hw1 Hz1)
        as (Hw2 & Hu2 & Hz2).
      unfold exportCanvas. rewrite length_app, Hd1, Hz2, Hu2. cbn [List.length].
      repeat split; try assumption; try reflexivity.
      * f_equal. lia.
      * lia.
Qed.

(** X11. However often a free user clicks "Download" within a month, the
    number of files downloaded is the number of clicks or what was left
    of the three free exports, whichever is smaller, for a count within
    the safe integers. *)
Theorem free_downloads_per_month (verify : string -> Verification)
    (dateNow : Z) (n : nat) (e : Editor) (z : Z) (c : HTMLCanvasElement) :
  isPaid e = false ->
  window_defined (storage e) = true ->
  fst (isPaidUser (storage e)) = false ->
  fst (getUsageCount (storage e)) = Int z ->
  safe_integer z ->
  canvasRef e = Some c ->
  downloaded (Nat.iter n (handleDownload verify dateNow true) e)
  = (downloaded e + Z.to_nat (Z.min (Z.of_nat n) (Z.max 0 (3 - z))))%nat.
Proof.
  intros Hp Hw Hu Hz _ Hc.
  apply (free_downloads_run verify dateNow n e z c); assumption.
Qed.

Lemma free_downloads_per_month_witness :
  downloaded (Nat.iter 10 (handleDownload (fun _ => VerifyRejects) 0 true)
                (editor_on october_browser false)) = 3%nat.
Proof.
  rewrite (free_downloads_per_month (fun _ => VerifyRejects) 0 10
             (editor_on october_browser false) 0 blank_canvas);
    try reflexivity.
  vm_compute. split; discriminate.
Defined.

(** *** The downloads of a subscriber *)

Lemma download_paid (encodes : bool) (e : Editor) (c : HTMLCanvasElement) :
  isPaid e = true ->
  canvasRef e = Some c ->
  download_or_paywall encodes e =
    {| storage := storage e; isPaid := true; showPaywall := showPaywall e;
       canvasRef := Some c;
       saved := exportCanvas encodes c "appshot-pro" (saved e);
       alerts := alerts e; verifications := verifications e |}.
Proof.
  intros Hp Hc. unfold download_or_paywall. rewrite Hp, Hc. reflexivity.
Qed.

(** X12. When the server answers that the subscription is not active,
    the download of a subscriber is refused and the entitlement is taken
    back: nothing is downloaded, the paywall is shown, the store no
    longer says paid, and the usage count is untouched. *)
Theorem inactive_subscription_is_revoked (verify : string -> Verification)
    (dateNow : Z) (encodes : bool) (e : Editor) (sub : string) :
  isPaid e = true ->
  window_defined (storage e) = true ->
  getItem SUBSCRIPTION_ID (storage e) = Some sub ->
  sub <> "" ->
  isVerificationCached dateNow (storage e) = false ->
  verify sub = VerifyData false ->
  let e' := handleDownload verify dateNow encodes e in
  isPaid e' = false /\
  fst (isPaidUser (storage e')) = false /\
  showPaywall e' = true /\
  saved e' = saved e /\
  verifications e' = verifications e ++ [sub] /\
  getItem USES (storage e') = getItem USES (storage e).
Proof.
  intros Hp Hw Hs Hne Hv Hf. cbv zeta. unfold handleDownload, getSubscriptionId.
  rewrite Hp, Hw. simpl negb. cbv iota. rewrite Hs. cbv beta iota zeta.
  rewrite Hv, Hf, bool_decide_eq_false_2 by assumption. cbn [negb andb].
  cbn [isPaid storage showPaywall saved verifications].
  destruct (revokePaid_store (storage e) Hw) as (Hw2 & Hp2 & _ & _ & _ & Hu2 & _).
  rewrite isPaidUser_reads, Hw2, Hp2, Hu2.
  repeat split; reflexivity.
Qed.

Lemma inactive_subscription_is_revoked_witness :
  let e' :=
    handleDownload (fun _ => VerifyData false) 1700000000000 true
      (editor_on subscriber_browser true) in
  isPaid e' = false /\
  fst (isPaidUser (storage e')) = false /\
  showPaywall e' = true /\
  saved e' = [] /\
  verifications e' = ["sub_1"] /\
  getItem USES (storage e') = getItem USES subscriber_browser.
Proof.
  apply (inactive_subscription_is_revoked (fun _ => VerifyData false)
           1700000000000 true (editor_on subscriber_browser true) "sub_1");
    try reflexivity.
  discriminate.
Defined.

(** X13. Unless the server answers that the subscription is not active,
    the download of a subscriber goes through whatever the usage count
    is: the file is downloaded, the paywall is not touched, and the usage
    count, its month and the entitlement in the store stay as they
    are. *)
Theorem subscriber_download_is_not_counted (verify : string -> Verification)
    (dateNow : Z) (encodes : bool) (e : Editor) (c : HTMLCanvasElement) :
  isPaid e = true ->
  canvasRef e = Some c ->
  (forall sub, getSubscriptionId (storage e) = Some sub ->
     verify sub <> VerifyData false) ->
  let e' := handleDownload verify dateNow encodes e in
  saved e' = exportCanvas encodes c "appshot-pro" (saved e) /\
  isPaid e' = true /\
  showPaywall e' = showPaywall e /\
  getItem USES (storage e') = getItem USES (storage e) /\
  getItem RESET_DATE (storage e') = getItem RESET_DATE (storage e) /\
  getItem PAID (storage e') = getItem PAID (storage e).
Proof.
  intros Hp Hc Hv. cbv zeta. unfold handleDownload. rewrite Hp.
  destruct (getSubscriptionId (storage e)) as [sub|] eqn:Hs;
    [|rewrite (download_paid encodes e c) by assumption;
      repeat split; reflexivity].
  destruct (andb _ _);
    [|rewrite (download_paid encodes e c) by assumption;
      repeat split; reflexivity].
  specialize (Hv sub eq_refl).
  destruct (verify sub) as [|[|]]; [| |congruence].
  - rewrite (download_paid encodes _ c) by (assumption || reflexivity).
    repeat split; reflexivity.
  - rewrite (download_paid encodes _ c) by (assumption || reflexivity).
    cbn [saved isPaid showPaywall storage].
    unfold updateVerificationCache.
    destruct (negb (window_defined (storage e)));
      [repeat split; reflexivity|].
    unfold getItem, setItem. cbn [localStorage].
    rewrite !lookup_insert_ne by discriminate.
    repeat split; reflexivity.
Qed.

Lemma subscriber_download_is_not_counted_witness :
  let e' :=
    handleDownload (fun _ => VerifyRejects) 1700000000000 true
      (editor_on subscriber_browser true) in
  saved e' = exportCanvas true blank_canvas "appshot-pro" [] /\
  isPaid e' = true /\
  showPaywall e' = false /\
  getItem USES (storage e') = getItem USES subscriber_browser /\
  getItem RESET_DATE (storage e') = getItem RESET_DATE subscriber_browser /\
  getItem PAID (storage e') = getItem PAID subscriber_browser.
Proof.
  apply (subscriber_download_is_not_counted (fun _ => VerifyRejects)
           1700000000000 true (editor_on subscriber_browser true) blank_canvas);
    try reflexivity.
  intros sub _. discriminate.
Defined.

Lemma download_paid_keeps (encodes : bool) (e : Editor) :
  isPaid e = true ->
  storage (download_or_paywall encodes e) = storage e /\
  isPaid (download_or_paywall encodes e) = true /\
  verifications (download_or_paywall encodes e) = verifications e.
Proof.
  intros Hp. unfold download_or_paywall. rewrite Hp. simpl negb. cbv iota.
  cbn [andb]. destruct (canvasRef e); repeat split; reflexivity.
Qed.

Lemma cached_download_asks_nothing (verify : string -> Verification)
    (dateNow : Z) (encodes : bool) (e : Editor) :
  isPaid e = true ->
  isVerificationCached dateNow (storage e) = true ->
  verifications (handleDownload verify dateNow encodes e) = verifications e.
Proof.
  intros Hp Hv. unfold handleDownload. rewrite Hp, Hv. cbn [negb].
  destruct (getSubscriptionId (storage e)); rewrite ?andb_false_r;
    apply download_paid_keeps; assumption.
Qed.

(** X14. Once the server has confirmed the subscription, the downloads
    of the following hour do not ask it again. *)
Theorem verified_download_is_not_repeated (verify verify' : string -> Verification)
    (t t' : Z) (encodes : bool) (e : Editor) (sub : string) :
  isPaid e = true ->
  window_defined (storage e) = true ->
  getItem SUBSCRIPTION_ID (storage e) = Some sub ->
  sub <> "" ->
  isVerificationCached t (storage e) = false ->
  verify sub = VerifyData true ->
  t' - 3600000 < t ->
  let e1 := handleDownload verify t encodes e in
  verifications e1 = verifications e ++ [sub] /\
  verifications (handleDownload verify' t' encodes e1) = verifications e1.
Proof.
  intros Hp Hw Hs Hne Hv Hf Ht. cbv zeta.
  set (e0 := {| storage := updateVerificationCache t (storage e);
                isPaid := true; showPaywall := showPaywall e;
                canvasRef := canvasRef e; saved := saved e;
                alerts := alerts e;
                verifications := verifications e ++ [sub] |}).
  assert (He1 : handleDownload verify t encodes e
                = download_or_paywall encodes e0).
  { unfold handleDownload, getSubscriptionId.
    rewrite Hp, Hw. simpl negb. cbv iota. rewrite Hs. cbv beta iota zeta.
    rewrite Hv, Hf, bool_decide_eq_false_2 by assumption. reflexivity. }
  rewrite He1.
  destruct (download_paid_keeps encodes e0 eq_refl) as (Hst & Hpd & Hvf).
  split; [exact Hvf|].
  apply cached_download_asks_nothing; [exact Hpd|].
  rewrite Hst. unfold e0. cbn [storage].
  rewrite verification_window, bool_decide_eq_true_2 by assumption.
  reflexivity.
Qed.

Lemma verified_download_is_not_repeated_witness :
  let e1 :=
    handleDownload (fun _ => VerifyData true) 1700000000000 true
      (editor_on subscriber_browser true) in
  verifications e1 = ["sub_1"] /\
  verifications (handleDownload (fun _ => VerifyData false) 1700003599999 true e1)
  = verifications e1.
Proof.
  apply (verified_download_is_not_repeated (fun _ => VerifyData true)
           (fun _ => VerifyData false) 1700000000000 1700003599999 true
           (editor_on subscriber_browser true) "sub_1");
    try reflexivity.
  discriminate.
Defined.

(** ** Dragging the image *)

Local Open Scope Q_scope.

(** A run of mouse moves. *)
Lemma moves_while_dragging (moves : list MouseEvent) (e : MouseEvent)
    (d : Drag) (startX startY : Q) :
  isTransforming d = true ->
  transformStartRef d = Some (startX, startY) ->
  let d' := fold_left (fun s m => handleMouseMove m s) (moves ++ [e]) d in
  isTransforming d' = true /\
  transformStartRef d' = Some (startX, startY) /\
  scale (imageTransform d') = scale (imageTransform d) /\
  x (imageTransform d') = clientX e - startX /\
  y (imageTransform d') = clientY e - startY.
Proof.
  cbv zeta. revert d. induction moves as [|m moves IH]; intros d Ht Hr.
  - simpl. unfold handleMouseMove. rewrite Hr, Ht. simpl. auto.
  - simpl. 
    assert (Hm : isTransforming (handleMouseMove m d) = true /\
                 transformStartRef (handleMouseMove m d) = Some (startX, startY) /\
                 scale (imageTransform (handleMouseMove m d))
                 = scale (imageTransform d)).
    { unfold handleMouseMove. rewrite Hr, Ht. simpl. auto. }
    destruct Hm as (Ht1 & Hr1 & Hs1).
    destruct (IH (handleMouseMove m d) Ht1 Hr1) as (H1 & H2 & H3 & H4 & H5).
    rewrite <- Hs1. auto.
Qed.

(** X15. While a device is selected, a drag moves the image by the
    displacement of the pointer between the press and the last move,
    whatever path the pointer took, and keeps the zoom. *)
Theorem drag_follows_pointer (selectedTemplate : option Template)
    (press e : MouseEvent) (moves : list MouseEvent) (d : Drag) :
  has_device selectedTemplate = true ->
  let d' :=
    fold_left (fun s m => handleMouseMove m s) (moves ++ [e])
      (handleMouseDown selectedTemplate press d) in
  scale (imageTransform d') = scale (imageTransform d) /\
  x (imageTransform d') == x (imageTransform d) + (clientX e - clientX press) /\
  y (imageTransform d') == y (imageTransform d) + (clientY e - clientY press).
Proof.
  intros Hd. cbv zeta.
  destruct (moves_while_dragging moves e
              (handleMouseDown selectedTemplate press d)
              (clientX press - x (imageTransform d))
              (clientY press - y (imageTransform d)))
    as (_ & _ & Hs & Hx & Hy);
    try (unfold handleMouseDown; rewrite Hd; reflexivity).
  rewrite Hs, Hx, Hy. unfold handleMouseDown. rewrite Hd. cbn.
  repeat split; try reflexivity; ring.
Qed.

Lemma drag_follows_pointer_witness :
  let d' :=
    fold_left (fun s m => handleMouseMove m s)
      ([ {| clientX := 500; clientY := 0 |} ] ++ [ {| clientX := 130; clientY := 90 |} ])
      (handleMouseDown (Some phone_portrait) {| clientX := 100; clientY := 100 |}
         (at_rest {| scale := 2; x := 5; y := 7 |})) in
  scale (imageTransform d') = 2 /\
  x (imageTransform d') == 5 + (130 - 100) /\
  y (imageTransform d') == 7 + (90 - 100).
Proof.
  apply (drag_follows_pointer (Some phone_portrait)
           {| clientX := 100; clientY := 100 |} {| clientX := 130; clientY := 90 |}
           [ {| clientX := 500; clientY := 0 |} ]
           (at_rest {| scale := 2; x := 5; y := 7 |})).
  reflexivity.
Defined.

Lemma moves_at_rest (moves : list MouseEvent) (d : Drag) :
  isTransforming d = false ->
  fold_left (fun s m => handleMouseMove m s) moves d = d.
Proof.
  intros Ht. induction moves as [|m moves IH]; [reflexivity|].
  simpl. assert (Hm : handleMouseMove m d = d).
  { unfold handleMouseMove. rewrite Ht. destruct (transformStartRef d) as [[]|];
      reflexivity. }
  rewrite Hm. exact IH.
Qed.

(** X16. Mouse moves do not move the image when no drag is under way:
    after the button was released, and after a press while no device is
    selected. *)
Theorem no_drag_without_press (selectedTemplate : option Template)
    (press : MouseEvent) (moves : list MouseEvent) (d : Drag) :
  imageTransform
    (fold_left (fun s m => handleMouseMove m s) moves (handleMouseUp d))
  = imageTransform d /\
  (has_device selectedTemplate = false -> isTransforming d = false ->
   fold_left (fun s m => handleMouseMove m s) moves
     (handleMouseDown selectedTemplate press d) = d).
Proof.
  split.
  - rewrite moves_at_rest by reflexivity. reflexivity.
  - intros Hd Ht. unfold handleMouseDown. rewrite Hd. simpl negb. cbv iota.
    apply moves_at_rest. exact Ht.
Qed.

Lemma no_drag_without_press_witness :
  fold_left (fun s m => handleMouseMove m s) [ {| clientX := 9; clientY := 9 |} ]
    (handleMouseDown None {| clientX := 1; clientY := 1 |}
       (at_rest identity_transform))
  = at_rest identity_transform.
Proof.
  apply (proj2 (no_drag_without_press None {| clientX := 1; clientY := 1 |}
                  [ {| clientX := 9; clientY := 9 |} ]
                  (at_rest identity_transform))); reflexivity.
Defined.

(** ** Choosing a template *)

(** X17. Once a device is selected it stays selected, whatever
    background or device is chosen next, and whenever a device is
    selected after a choice there is a background for it. *)
Theorem device_stays_selected (template : Template)
    (selectedTemplate activeBackground : option Template) :
  (forall st,
     selectedTemplate = Some st -> type st = "device" ->
     type template = "gradient" \/ type template = "solid"
     \/ type template = "device" ->
     exists st',
       fst (handleTemplateChange template (selectedTemplate, activeBackground))
       = Some st' /\ type st' = "device") /\
  (forall st',
     fst (handleTemplateChange template (selectedTemplate, activeBackground))
     = Some st' ->
     type st' = "device" ->
     is_Some (snd (handleTemplateChange template
                     (selectedTemplate, activeBackground)))).
Proof.
  unfold handleTemplateChange, is_background. split.
  - intros st -> Hst Hk. rewrite (bool_decide_eq_true_2 _ Hst).
    destruct Hk as [Hk|[Hk|Hk]]; rewrite Hk; cbn.
    + exists st. auto.
    + exists st. auto.
    + exists template. auto.
  - intros st'.
    destruct (bool_decide (type template = "gradient")),
      (bool_decide (type template = "solid")),
      selectedTemplate as [st|], activeBackground as [bg|];
      try destruct (bool_decide (type st = "device"));
      cbn; try case_bool_decide; intros Hf Hd; simplify_eq; eauto.
Qed.

Lemma device_stays_selected_witness :
  (exists st',
     fst (handleTemplateChange default_gradient (Some phone_portrait, None))
     = Some st' /\ type st' = "device") /\
  is_Some (snd (handleTemplateChange browser (None, None))).
Proof.
  split.
  - apply (proj1 (device_stays_selected default_gradient
                    (Some phone_portrait) None) phone_portrait);
      [reflexivity|reflexivity|left; reflexivity].
  - apply (proj2 (device_stays_selected browser None None) browser);
      reflexivity.
Defined.

(** X18. Clicking the selected device again does not take the device
    away: the selector hands the first gradient of its list to the
    editor, which keeps the device and makes that gradient the
    background. *)
Theorem second_click_keeps_device (templates : list Template)
    (phoneOrientation : string) (st template g : Template)
    (activeBackground : option Template) :
  type st = "device" ->
  id st = id template ->
  type template = "device" ->
  List.find (fun t => bool_decide (type t = "gradient")) templates = Some g ->
  handleTemplateSelect templates phoneOrientation (Some st) template = Some g /\
  handleTemplateChange g (Some st, activeBackground) = (Some st, Some g).
Proof.
  intros Hst Hid Ht Hg. split.
  - unfold handleTemplateSelect. rewrite Ht.
    rewrite (bool_decide_eq_true_2 _ Hid). cbn. exact Hg.
  - apply find_some in Hg as [_ Hg]. apply bool_decide_eq_true in Hg.
    unfold handleTemplateChange, is_background. rewrite Hg, Hst. reflexivity.
Qed.

Lemma second_click_keeps_device_witness :
  handleTemplateSelect [default_gradient; browser; phone_portrait] "portrait"
    (Some browser) browser = Some default_gradient /\
  handleTemplateChange default_gradient (Some browser, None)
  = (Some browser, Some default_gradient).
Proof.
  apply (second_click_keeps_device [default_gradient; browser; phone_portrait]
           "portrait" browser browser default_gradient None); reflexivity.
Defined.

(** ** The fill presets *)

Lemma getScreenDimensions_captured (t : Template) (d : Size) :
  has_device (Some t) = true -> getScreenDimensions (Some t) (Some d) = d.
Proof. intros Hd. unfold getScreenDimensions. rewrite Hd. reflexivity. Qed.

(** The transform of a preset is centred, and its scale is positive and
    at most 1. *)
Lemma preset_transform (t : Template) (img : HTMLImageElement)
    (d : Size) (tr : ImageTransform) :
  has_device (Some t) = true ->
  0 < image_width img -> 0 < image_height img ->
  0 < width d -> 0 < height d ->
  handleFillScreen (Some t) (Some img) = Some tr \/
  Double.handleFillHorizontal (Some t) (Some img) (Some d) = Some tr \/
  Double.handleFillVertical (Some t) (Some img) (Some d) = Some tr ->
  x tr == 0 /\ y tr == 0 /\ 0 < scale tr /\ scale tr <= 1.
Proof.
  intros Hd Hiw Hih Hsw Hsh Hp.
  destruct (share_bounds (Double.round (width d / image_width img))
              (Double.round (height d / image_height img)))
    as ((H1 & H2) & (H3 & H4));
    try (apply round_positive, ratio_positive; assumption).
  unfold handleFillScreen, Double.handleFillHorizontal,
    Double.handleFillVertical, Double.div in Hp.
  rewrite (getScreenDimensions_captured t d Hd), Hd in Hp.
  simpl negb in Hp. cbv iota zeta in Hp.
  destruct Hp as [[= <-]|[[= <-]|[= <-]]]; cbn [x y scale];
    repeat split; try reflexivity; try assumption; discriminate.
Qed.

(** X19. None of the three fill presets crops, up to the rounding of the
    arithmetic: each one hands over a centred transform whose scale is
    positive and at most 1, and the image that the renderer computes from
    it exceeds the width and the height of the screen whose dimensions
    the last render stored by at most the relative [Double.tolerance]
    [2^-51]. *)
Theorem fill_presets_never_crop (t : Template) (img : HTMLImageElement)
    (d : Size) (tr : ImageTransform) (cx cy : Q) :
  has_device (Some t) = true ->
  Double.moderate (image_width img) -> Double.moderate (image_height img) ->
  Double.moderate (width d) -> Double.moderate (height d) ->
  handleFillScreen (Some t) (Some img) = Some tr \/
  Double.handleFillHorizontal (Some t) (Some img) (Some d) = Some tr \/
  Double.handleFillVertical (Some t) (Some img) (Some d) = Some tr ->
  x tr == 0 /\ y tr == 0 /\ 0 < scale tr /\ scale tr <= 1 /\
  screen_width (Double.scaledImage img (width d) (height d) tr cx cy)
  <= width d * (1 + Double.tolerance) /\
  screen_height (Double.scaledImage img (width d) (height d) tr cx cy)
  <= height d * (1 + Double.tolerance).
Proof.
  intros Hd Hiw Hih Hsw Hsh Hp.
  apply moderate_positive in Hiw, Hih, Hsw, Hsh.
  destruct (preset_transform t img d tr Hd Hiw Hih Hsw Hsh Hp)
    as (Hx & Hy & Hs0 & Hs1).
  destruct (scaledImage_upper img (width d) (height d) tr cx cy);
    try assumption; [apply Qlt_le_weak; exact Hs0|]. auto 10.
Qed.

Lemma fill_presets_never_crop_witness :
  exists tr,
    Double.handleFillVertical (Some phone_portrait) (Some Double.photo)
      (Some {| width := 396; height := 836 |}) = Some tr /\
    scale tr <= 1 /\
    screen_height (Double.scaledImage Double.photo 396 836 tr 0 0)
    <= 836 * (1 + Double.tolerance).
Proof.
  eexists. split; [reflexivity|].
  destruct (fill_presets_never_crop phone_portrait Double.photo
              {| width := 396; height := 836 |}
              {| scale :=
                   Double.div (Double.div 836 2436)
                     (Qmax (Double.div 396 1125) (Double.div 836 2436));
                 x := 0; y := 0 |} 0 0)
    as (_ & _ & _ & H1 & _ & H2);
    [reflexivity|split; vm_compute; discriminate..|right; right; reflexivity|].
  split; [exact H1|exact H2].
Defined.

(** X20. After "Fill Vertical" the image is as high as the screen, up to
    the rounding of the arithmetic, when the image and the screen have
    the same proportions, and it is lower than the screen when their
    proportions differ by more than the relative [Double.margin]
    [2^-50]; in no case is it higher than the screen by more than the
    relative [Double.tolerance]. *)
Theorem fill_vertical_reaches_height (t : Template) (img : HTMLImageElement)
    (d : Size) (tr : ImageTransform) (cx cy : Q) :
  has_device (Some t) = true ->
  Double.moderate (image_width img) -> Double.moderate (image_height img) ->
  Double.moderate (width d) -> Double.moderate (height d) ->
  Double.handleFillVertical (Some t) (Some img) (Some d) = Some tr ->
  let h :=
    screen_height (Double.scaledImage img (width d) (height d) tr cx cy) in
  h <= height d * (1 + Double.tolerance) /\
  (width d / image_width img == height d / image_height img ->
   height d * (1 - Double.tolerance) <= h) /\
  (Qmin (width d / image_width img) (height d / image_height img)
   * (1 + Double.margin)
   <= Qmax (width d / image_width img) (height d / image_height img) ->
   h < height d).
Proof.
  intros Hd Hiw Hih Hsw Hsh Hp.
  apply moderate_positive in Hiw, Hih, Hsw, Hsh.
  unfold Double.handleFillVertical in Hp.
  rewrite (getScreenDimensions_captured t d Hd), Hd in Hp.
  simpl negb in Hp. cbv iota zeta in Hp. injection Hp as <-.
  unfold Double.scaledImage, Double.mul, Double.div.
  cbn [screen_height scale].
  exact (vertical_height (image_width img) (image_height img) (width d)
           (height d) Hiw Hih Hsw Hsh).
Qed.

Lemma fill_vertical_reaches_height_witness :
  exists tr,
    Double.handleFillVertical (Some phone_portrait) (Some screenshot)
      (Some {| width := 396; height := 836 |}) = Some tr /\
    screen_height (Double.scaledImage screenshot 396 836 tr 0 0) < 836.
Proof.
  eexists. split; [reflexivity|].
  apply (fill_vertical_reaches_height phone_portrait screenshot
           {| width := 396; height := 836 |}
           {| scale :=
                Double.div (Double.div 836 1000)
                  (Qmax (Double.div 396 1000) (Double.div 836 1000));
              x := 0; y := 0 |} 0 0);
    [reflexivity|split; vm_compute; discriminate..|reflexivity|].
  vm_compute. discriminate.
Defined.

(** ** The branches of the renderer *)

(** [drawBackground] throws for a gradient of exactly one colour and for
    nothing else. *)
Lemma drawBackground_throws (t : Template) (c : HTMLCanvasElement) :
  drawBackground t c = Throw <->
  type t = "gradient" /\ List.length (colors (config t)) = 1%nat.
Proof.
  unfold drawBackground. cbv zeta.
  repeat case_bool_decide; split; try discriminate; intuition congruence.
Qed.

(** When it returns, it has filled the whole canvas, and has left the
    size of the canvas alone. *)
Lemma drawBackground_normal (t : Template) (c c1 : HTMLCanvasElement) :
  drawBackground t c = Normal c1 ->
  canvas_width c1 = canvas_width c /\ canvas_height c1 = canvas_height c /\
  exists p,
    painted c1 = painted c ++ [p] /\
    paint_shape p = FillRect 0 0 (canvas_width c) (canvas_height c) /\
    paint_clip p = None /\ paint_rotate p = None.
Proof.
  unfold drawBackground. cbv zeta.
  repeat case_bool_decide; try discriminate; intros [= <-];
    (split; [reflexivity|split; [reflexivity|]]);
    eexists; repeat split; reflexivity.
Qed.

(** The branch that [applyTemplate] takes on a canvas with a context. *)
Lemma applyTemplate_cases (net : Network) (cache : gmap string DeviceFrame)
    (c : HTMLCanvasElement) (img : HTMLImageElement) (t : Template)
    (wm : string) (tr : ImageTransform) (paid : bool) :
  has_context c = true ->
  let r := applyTemplate net cache c img t wm tr paid in
  (type t <> "device" /\ r = applyFlat cache c img t wm tr paid) \/
  (type t = "device" /\
   exists cache',
     (device (config t) = Some "phone" /\
      ((exists df,
          fst (loadDeviceFrame net cache phone_frame_path) = Resolved (Some df) /\
          r = applyPhoneReal df cache' c img t wm tr paid) \/
       (fst (loadDeviceFrame net cache phone_frame_path) = Resolved None /\
        r = applyPhoneFallback cache' c img t wm tr paid))) \/
     (device (config t) <> Some "phone" /\ device (config t) = Some "ipad" /\
      ((exists df,
          fst (loadDeviceFrame net cache ipad_frame_path) = Resolved (Some df) /\
          r = applyIpadReal df cache' c img t wm tr paid) \/
       (fst (loadDeviceFrame net cache ipad_frame_path) = Resolved None /\
        r = applyIpadFallback cache' c img t wm tr paid))) \/
     (device (config t) = Some "macbook" /\
      r = applyMacbook cache c img t wm tr paid) \/
     (device (config t) <> Some "phone" /\ device (config t) <> Some "ipad" /\
      device (config t) <> Some "macbook" /\
      r = applyBrowser cache c img t wm tr paid)).
Proof.
  intros Hctx. unfold applyTemplate, phone_frame_path, ipad_frame_path.
  rewrite Hctx. simpl negb. cbv iota zeta.
  case_bool_decide as Ht; [right|left; split; [assumption|reflexivity]].
  split; [assumption|].
  case_bool_decide as Hp.
  { destruct (loadDeviceFrame_resolves net cache
                "/device-frames/iphone-16-pro-max-black.png") as [o Ho].
    destruct (loadDeviceFrame net cache _) as [q cache'].
    cbn [fst] in Ho. subst q. exists cache'. left. split; [assumption|].
    destruct o as [df|]; [left; exists df|right]; split; reflexivity. }
  case_bool_decide as Hi.
  { destruct (loadDeviceFrame_resolves net cache
                "/device-frames/ipad-pro-13-landscape-silver.png") as [o Ho].
    destruct (loadDeviceFrame net cache _) as [q cache'].
    cbn [fst] in Ho. subst q. exists cache'. right. left.
    split; [assumption|]. split; [assumption|].
    destruct o as [df|]; [left; exists df|right]; split; reflexivity. }
  exists cache.
  case_bool_decide as Hm; right; right; [left|right]; auto.
Qed.

Section Outcomes.

Variables (cache : gmap string DeviceFrame) (c : HTMLCanvasElement)
  (img : HTMLImageElement) (t : Template) (wm : string)
  (tr : ImageTransform) (paid : bool).

Let single := type t = "gradient" /\ List.length (colors (config t)) = 1%nat.

Ltac outcomes :=
  cbv zeta; cbn [type config colors set_realScreenDimensions];
  repeat case_bool_decide; cbn [outcome applied];
  split; try discriminate; intuition congruence.

Lemma applyFlat_outcome :
  outcome (applyFlat cache c img t wm tr paid) = Rejected <-> single.
Proof. unfold single, applyFlat, drawBackground. outcomes. Qed.

Lemma applyBrowser_outcome :
  outcome (applyBrowser cache c img t wm tr paid) = Rejected <-> single.
Proof. unfold single, applyBrowser, drawBackground. outcomes. Qed.

Lemma applyMacbook_outcome :
  outcome (applyMacbook cache c img t wm tr paid) = Rejected <-> single.
Proof. unfold single, applyMacbook, drawBackground. outcomes. Qed.

Lemma applyIpadFallback_outcome :
  outcome (applyIpadFallback cache c img t wm tr paid) = Rejected <-> single.
Proof. unfold single, applyIpadFallback, drawBackground. outcomes. Qed.

Lemma applyIpadReal_outcome (df : DeviceFrame) :
  outcome (applyIpadReal df cache c img t wm tr paid) = Rejected <-> single.
Proof. unfold single, applyIpadReal, drawBackground. outcomes. Qed.

Lemma applyPhoneFallback_outcome :
  outcome (applyPhoneFallback cache c img t wm tr paid) = Rejected <-> single.
Proof. unfold single, applyPhoneFallback, drawBackground. outcomes. Qed.

Lemma applyPhoneReal_outcome (df : DeviceFrame) :
  outcome (applyPhoneReal df cache c img t wm tr paid) = Rejected <-> single.
Proof. unfold single, applyPhoneReal, drawBackground. outcomes. Qed.

End Outcomes.

(** With colours that are CSS colours, a render on a canvas with a
    context is rejected for a gradient of exactly one colour and for
    nothing else. *)
Lemma applyTemplate_rejects (net : Network) (cache : gmap string DeviceFrame)
    (c : HTMLCanvasElement) (img : HTMLImageElement) (t : Template)
    (wm : string) (tr : ImageTransform) (paid : bool) :
  has_context c = true ->
  outcome (applyTemplate net cache c img t wm tr paid) = Rejected <->
  type t = "gradient" /\ List.length (colors (config t)) = 1%nat.
Proof.
  intros Hctx.
  destruct (applyTemplate_cases net cache c img t wm tr paid Hctx)
    as [[Ht ->]|[Ht [cache' H]]].
  - apply applyFlat_outcome.
  - assert (Hn : ~ (type t = "gradient" /\
                    List.length (colors (config t)) = 1%nat))
      by (rewrite Ht; intros [? _]; discriminate).
    destruct H as [(_ & [(df & _ & ->)| [_ ->]])
                  |[(_ & _ & [(df & _ & ->)| [_ ->]])
                  |[[_ ->]|(_ & _ & _ & ->)]]];
      rewrite ?applyPhoneReal_outcome, ?applyPhoneFallback_outcome,
        ?applyIpadReal_outcome, ?applyIpadFallback_outcome,
        ?applyMacbook_outcome, ?applyBrowser_outcome; tauto.
Qed.

Lemma applyTemplate_device_resolves (net : Network)
    (cache : gmap string DeviceFrame) (c : HTMLCanvasElement)
    (img : HTMLImageElement) (t : Template) (wm : string)
    (tr : ImageTransform) (paid : bool) :
  has_context c = true -> type t = "device" ->
  outcome (applyTemplate net cache c img t wm tr paid) = Resolved tt.
Proof.
  intros Hctx Ht.
  destruct (outcome (applyTemplate net cache c img t wm tr paid))
    as [[]|] eqn:E; [reflexivity|].
  apply applyTemplate_rejects in E as [E _]; [|assumption]. congruence.
Qed.

Lemma applyTemplate_rejected_blank (net : Network)
    (cache : gmap string DeviceFrame) (c : HTMLCanvasElement)
    (img : HTMLImageElement) (t : Template) (wm : string)
    (tr : ImageTransform) (paid : bool) :
  has_context c = true ->
  outcome (applyTemplate net cache c img t wm tr paid) = Rejected ->
  painted (out_canvas (applyTemplate net cache c img t wm tr paid)) = [].
Proof.
  intros Hctx Hr.
  destruct (decide (type t = "device")) as [Ht|Ht].
  - rewrite applyTemplate_device_resolves in Hr by assumption. discriminate.
  - revert Hr.
    destruct (applyTemplate_cases net cache c img t wm tr paid Hctx)
      as [[_ ->]|[Hd _]]; [|contradiction].
    unfold applyFlat. cbv zeta.
    destruct (drawBackground _ _); cbn [outcome applied out_canvas];
      [discriminate|reflexivity].
Qed.

(** X21. A gradient of exactly one colour cannot be rendered: on a
    canvas with a context the render is rejected, the only colour stop
    [0 / 0] being refused, and the canvas, resized and cleared, has
    nothing drawn on it.  A template that is not a gradient is never
    rejected, and neither is a render on a canvas without a context,
    which returns at once.  The template, the image and the frame
    descriptors are of their declared types. *)
Theorem render_rejects_single_colour (net : Network)
    (cache : gmap string DeviceFrame) (c : HTMLCanvasElement)
    (img : HTMLImageElement) (t : Template) (wm : string)
    (tr : ImageTransform) (paid : bool) :
  let r := applyTemplate net cache c img t wm tr paid in
  (has_context c = true -> type t = "gradient" ->
   List.length (colors (config t)) = 1%nat ->
   outcome r = Rejected /\ painted (out_canvas r) = []) /\
  (type t <> "gradient" -> outcome r = Resolved tt) /\
  (has_context c = false -> outcome r = Resolved tt).
Proof.
  intros r. subst r. split; [|split].
  - intros Hctx Ht Hn.
    assert (Hr : outcome (applyTemplate net cache c img t wm tr paid) = Rejected)
      by (apply applyTemplate_rejects; [exact Hctx|split; assumption]).
    split; [exact Hr|]. apply applyTemplate_rejected_blank; assumption.
  - intros Ht. destruct (has_context c) eqn:Hctx.
    + destruct (outcome (applyTemplate net cache c img t wm tr paid))
        as [[]|] eqn:E; [reflexivity|].
      apply applyTemplate_rejects in E as [E _]; [contradiction|exact Hctx].
    + unfold applyTemplate. rewrite Hctx. reflexivity.
  - intros Hctx. unfold applyTemplate. rewrite Hctx. reflexivity.
Qed.

Lemma render_rejects_single_colour_witness :
  outcome (applyTemplate net_down ∅ blank_canvas screenshot single_colour ""
             identity_transform false) = Rejected /\
  painted (out_canvas (applyTemplate net_down ∅ blank_canvas screenshot
                         single_colour "" identity_transform false)) = [].
Proof.
  destruct (render_rejects_single_colour net_down ∅ blank_canvas screenshot
              single_colour "" identity_transform false) as [H _].
  apply H; reflexivity.
Defined.

(** What the drawing calls do to the size of the canvas and to the list
    of paints. *)
Lemma painted_paint (cl : option RoundRect) (rot : option (Q * Q)) (s : Shape)
    (c : HTMLCanvasElement) :
  painted (paint cl rot s c)
  = painted c ++ [ {| paint_state := ctx c; paint_clip := cl;
                      paint_rotate := rot; paint_shape := s |} ].
Proof. reflexivity. Qed.

Lemma width_paint (cl : option RoundRect) (rot : option (Q * Q)) (s : Shape)
    (c : HTMLCanvasElement) :
  canvas_width (paint cl rot s c) = canvas_width c.
Proof. reflexivity. Qed.

Lemma height_paint (cl : option RoundRect) (rot : option (Q * Q)) (s : Shape)
    (c : HTMLCanvasElement) :
  canvas_height (paint cl rot s c) = canvas_height c.
Proof. reflexivity. Qed.

Lemma painted_with_ctx (f : Context2D -> Context2D) (c : HTMLCanvasElement) :
  painted (with_ctx f c) = painted c.
Proof. reflexivity. Qed.

Lemma width_with_ctx (f : Context2D -> Context2D) (c : HTMLCanvasElement) :
  canvas_width (with_ctx f c) = canvas_width c.
Proof. reflexivity. Qed.

Lemma height_with_ctx (f : Context2D -> Context2D) (c : HTMLCanvasElement) :
  canvas_height (with_ctx f c) = canvas_height c.
Proof. reflexivity. Qed.

Lemma painted_set_width (w : Q) (c : HTMLCanvasElement) :
  painted (set_width w c) = [].
Proof. reflexivity. Qed.

Lemma painted_set_height (h : Q) (c : HTMLCanvasElement) :
  painted (set_height h c) = [].
Proof. reflexivity. Qed.

Lemma width_set_width (w : Q) (c : HTMLCanvasElement) :
  canvas_width (set_width w c) = w.
Proof. reflexivity. Qed.

Lemma height_set_width (w : Q) (c : HTMLCanvasElement) :
  canvas_height (set_width w c) = canvas_height c.
Proof. reflexivity. Qed.

Lemma width_set_height (h : Q) (c : HTMLCanvasElement) :
  canvas_width (set_height h c) = canvas_width c.
Proof. reflexivity. Qed.

Lemma height_set_height (h : Q) (c : HTMLCanvasElement) :
  canvas_height (set_height h c) = h.
Proof. reflexivity. Qed.

Create Rewrite HintDb strokes.

#[local] Hint Rewrite painted_paint width_paint height_paint painted_with_ctx
  width_with_ctx height_with_ctx painted_set_width painted_set_height
  width_set_width height_set_width width_set_height height_set_height
  : strokes.

(** Unfolding the drawing calls down to the list of paints. *)
Ltac strokes :=
  unfold drawImageInPhoneReal, drawImageInDeviceScreen, drawImageInPhone,
    drawScaled, drawPhoneFrame, drawMacBookFrame, drawBrowserFrame, restore,
    set_fillStyle, set_strokeStyle, set_lineWidth, set_font, set_shadowColor,
    set_shadowBlur, set_shadowOffsetY in *;
  autorewrite with strokes in *.

(** A branch up to the point where its backdrop has been drawn. *)
Ltac backdrop E :=
  cbv zeta;
  match goal with
  | |- context [drawBackground ?t0 ?c0] =>
      destruct (drawBackground t0 c0) as [?c1|] eqn:E
  end; cbn [outcome applied out_canvas out_template]; [|discriminate];
  intros _;
  apply drawBackground_normal in E;
  branches; cbn [applied out_canvas out_template];
  rewrite ?addWatermark_width, ?addWatermark_height;
  match goal with
  | |- context [addWatermark ?w ?p ?c'] =>
      let rest := fresh "rest" in
      destruct (addWatermark_keeps w p c') as [rest ->]
  end.

Section Backdrop.

Variables (cache : gmap string DeviceFrame) (c : HTMLCanvasElement)
  (img : HTMLImageElement) (t : Template) (wm : string)
  (tr : ImageTransform) (paid : bool).

Let covered (r : Applied) : Prop :=
  outcome r = Resolved tt ->
  exists p rest,
    painted (out_canvas r) = p :: rest /\
    paint_shape p
    = FillRect 0 0 (canvas_width (out_canvas r)) (canvas_height (out_canvas r)) /\
    paint_clip p = None /\ paint_rotate p = None.

Ltac covers :=
  let E := fresh "E" in
  backdrop E; destruct E as (Hw & Hh & p & Hp & Hs & Hc & Hr);
  strokes; rewrite Hp, <- ?app_assoc; cbn [app];
  eexists p, _; (split; [reflexivity|]);
  rewrite Hs, Hw, Hh; repeat split; assumption.

Lemma applyFlat_backdrop : covered (applyFlat cache c img t wm tr paid).
Proof. unfold covered, applyFlat. covers. Qed.

Lemma applyBrowser_backdrop : covered (applyBrowser cache c img t wm tr paid).
Proof. unfold covered, applyBrowser. covers. Qed.

Lemma applyMacbook_backdrop : covered (applyMacbook cache c img t wm tr paid).
Proof. unfold covered, applyMacbook. covers. Qed.

Lemma applyIpadFallback_backdrop :
  covered (applyIpadFallback cache c img t wm tr paid).
Proof. unfold covered, applyIpadFallback. covers. Qed.

Lemma applyIpadReal_backdrop (df : DeviceFrame) :
  covered (applyIpadReal df cache c img t wm tr paid).
Proof. unfold covered, applyIpadReal. covers. Qed.

Lemma applyPhoneFallback_backdrop :
  covered (applyPhoneFallback cache c img t wm tr paid).
Proof. unfold covered, applyPhoneFallback. covers. Qed.

Lemma applyPhoneReal_backdrop (df : DeviceFrame) :
  covered (applyPhoneReal df cache c img t wm tr paid).
Proof. unfold covered, applyPhoneReal. covers. Qed.

End Backdrop.

(** X22. Every render that completes starts by filling the whole of the
    resized canvas, without clip or rotation: the backdrop is the first
    paint, from the corner [(0, 0)] over the full width and height that
    the exported canvas has. *)
Theorem backdrop_covers_canvas (net : Network) (cache : gmap string DeviceFrame)
    (c : HTMLCanvasElement) (img : HTMLImageElement) (t : Template)
    (wm : string) (tr : ImageTransform) (paid : bool) :
  has_context c = true ->
  let r := applyTemplate net cache c img t wm tr paid in
  outcome r = Resolved tt ->
  exists p rest,
    painted (out_canvas r) = p :: rest /\
    paint_shape p
    = FillRect 0 0 (canvas_width (out_canvas r)) (canvas_height (out_canvas r)) /\
    paint_clip p = None /\ paint_rotate p = None.
Proof.
  intros Hctx r. subst r.
  destruct (applyTemplate_cases net cache c img t wm tr paid Hctx)
    as [[Ht ->]|[Ht [cache' H]]].
  - apply applyFlat_backdrop.
  - destruct H as [(_ & [(df & _ & ->)| [_ ->]])
                  |[(_ & _ & [(df & _ & ->)| [_ ->]])
                  |[[_ ->]|(_ & _ & _ & ->)]]].
    + apply applyPhoneReal_backdrop.
    + apply applyPhoneFallback_backdrop.
    + apply applyIpadReal_backdrop.
    + apply applyIpadFallback_backdrop.
    + apply applyMacbook_backdrop.
    + apply applyBrowser_backdrop.
Qed.

Lemma backdrop_covers_canvas_witness :
  exists p rest,
    painted (out_canvas (applyTemplate net_down ∅ blank_canvas screenshot
                           default_gradient "" identity_transform false))
    = p :: rest /\
    paint_shape p = FillRect 0 0 1200 1200.
Proof.
  destruct (backdrop_covers_canvas net_down ∅ blank_canvas screenshot
              default_gradient "" identity_transform false eq_refl eq_refl)
    as (p & rest & H1 & H2 & _).
  exists p, rest. split; [exact H1|]. rewrite H2. reflexivity.
Defined.

Section Placement.

Variables (cache : gmap string DeviceFrame) (c : HTMLCanvasElement)
  (img : HTMLImageElement) (t : Template) (wm : string)
  (tr : ImageTransform) (paid : bool).

(** What a branch with a device settles: the dimensions [d] that it
    stores for the fill buttons, the rectangle the image is drawn into,
    and the clip, which has the stored dimensions. *)
Let settled (unclipped : Size -> Prop) (r : Applied) : Prop :=
  outcome r = Resolved tt ->
  exists d rect oclip,
    _realScreenDimensions (config (out_template r)) = Some d /\
    drawn img (painted (out_canvas r)) = Some (rect, oclip) /\
    match oclip with
    | Some clip => clip_width clip = width d /\ clip_height clip = height d
    | None => unclipped d
    end.

Ltac settles :=
  let E := fresh "E" in
  backdrop E; destruct E as (Hw & Hh & p & Hp & Hs & Hc & Hr);
  destruct p as [pst pcl prot psh];
  cbn [paint_shape paint_clip paint_rotate] in Hs, Hc, Hr; subst psh pcl prot;
  strokes; rewrite Hp, <- ?app_assoc; cbn [app];
  cbn [drawn paint_shape];
  rewrite String.eqb_refl.

Ltac clipped :=
  eexists _, _, _; (split; [reflexivity|split; [reflexivity|]]);
  cbv iota; unfold roundRect; cbn [clip_width clip_height width height];
  split; reflexivity.

Lemma applyMacbook_settles :
  settled (fun _ => False) (applyMacbook cache c img t wm tr paid).
Proof. unfold settled, applyMacbook. settles. clipped. Qed.

Lemma applyBrowser_settles :
  settled (fun _ => False) (applyBrowser cache c img t wm tr paid).
Proof. unfold settled, applyBrowser. settles. clipped. Qed.

Lemma applyIpadReal_settles (df : DeviceFrame) :
  settled (fun _ => False) (applyIpadReal df cache c img t wm tr paid).
Proof. unfold settled, applyIpadReal. settles. clipped. Qed.

Lemma applyPhoneFallback_settles :
  settled (fun _ => False) (applyPhoneFallback cache c img t wm tr paid).
Proof. unfold settled, applyPhoneFallback. settles; clipped. Qed.

Lemma applyPhoneReal_settles (df : DeviceFrame) :
  settled (fun _ => False) (applyPhoneReal df cache c img t wm tr paid).
Proof. unfold settled, applyPhoneReal. settles; clipped. Qed.

Lemma applyIpadFallback_settles :
  settled (fun d => d = fallback_tablet)
    (applyIpadFallback cache c img t wm tr paid).
Proof.
  unfold settled, applyIpadFallback. settles.
  eexists _, _, _. split; [reflexivity|split; [reflexivity|]].
  reflexivity.
Qed.

End Placement.

(** The branches put together. *)
Lemma applyTemplate_settles (net : Network)
    (cache : gmap string DeviceFrame) (c : HTMLCanvasElement)
    (img : HTMLImageElement) (t : Template) (wm : string)
    (tr : ImageTransform) (paid : bool) :
  has_context c = true ->
  type t = "device" ->
  let r := applyTemplate net cache c img t wm tr paid in
  exists d rect oclip,
    _realScreenDimensions (config (out_template r)) = Some d /\
    drawn img (painted (out_canvas r)) = Some (rect, oclip) /\
    match oclip with
    | Some clip => clip_width clip = width d /\ clip_height clip = height d
    | None => device (config t) = Some "ipad" /\ d = fallback_tablet
    end.
Proof.
  intros Hctx Ht r. subst r.
  assert (Hr : outcome (applyTemplate net cache c img t wm tr paid) = Resolved tt)
    by (apply applyTemplate_device_resolves; assumption).
  revert Hr.
  destruct (applyTemplate_cases net cache c img t wm tr paid Hctx)
    as [[Hn _]|[_ [cache' H]]]; [contradiction|].
  assert (Hs : forall r : Applied,
    (exists d rect oclip,
       _realScreenDimensions (config (out_template r)) = Some d /\
       drawn img (painted (out_canvas r)) = Some (rect, oclip) /\
       match oclip with
       | Some clip => clip_width clip = width d /\ clip_height clip = height d
       | None => False
       end) ->
    exists d rect oclip,
       _realScreenDimensions (config (out_template r)) = Some d /\
       drawn img (painted (out_canvas r)) = Some (rect, oclip) /\
       match oclip with
       | Some clip => clip_width clip = width d /\ clip_height clip = height d
       | None => device (config t) = Some "ipad" /\ d = fallback_tablet
       end).
  { intros r (d & rect & [clip|] & H1 & H2 & H3); [|contradiction].
    exists d, rect, (Some clip). auto. }
  destruct H as [(_ & [(df & _ & ->)| [_ ->]])
                |[(_ & Hi & [(df & _ & ->)| [_ ->]])
                |[[_ ->]|(_ & _ & _ & ->)]]]; intros Hr.
  - apply Hs, applyPhoneReal_settles, Hr.
  - apply Hs, applyPhoneFallback_settles, Hr.
  - apply Hs, applyIpadReal_settles, Hr.
  - destruct (applyIpadFallback_settles cache' c img t wm tr paid Hr)
      as (d & rect & [clip|] & H1 & H2 & H3);
      eexists d, rect, _; (split; [exact H1|split; [exact H2|]]);
      [exact H3|split; [exact Hi|exact H3]].
  - apply Hs, applyMacbook_settles, Hr.
  - apply Hs, applyBrowser_settles, Hr.
Qed.

(** X23. Every device render stores, for the fill buttons, the
    dimensions of the very region it draws the screenshot into: the
    screenshot is drawn once the render has completed, and the clip it
    is drawn under has the stored width and height.  The one render
    without a clip is the tablet fallback, which stores 1024 by 768. *)
Theorem device_render_stores_clip_size (net : Network)
    (cache : gmap string DeviceFrame) (c : HTMLCanvasElement)
    (img : HTMLImageElement) (t : Template) (wm : string)
    (tr : ImageTransform) (paid : bool) :
  has_context c = true ->
  type t = "device" ->
  let r := applyTemplate net cache c img t wm tr paid in
  exists d rect oclip,
    _realScreenDimensions (config (out_template r)) = Some d /\
    drawn img (painted (out_canvas r)) = Some (rect, oclip) /\
    match oclip with
    | Some clip => clip_width clip = width d /\ clip_height clip = height d
    | None => device (config t) = Some "ipad" /\ d = fallback_tablet
    end.
Proof. intros Hctx Ht. exact (applyTemplate_settles _ _ _ _ _ _ _ _ Hctx Ht). Qed.

Lemma device_render_stores_clip_size_witness :
  exists d rect oclip,
    _realScreenDimensions
      (config (out_template (applyTemplate net_down ∅ blank_canvas screenshot
                               macbook "" identity_transform false)))
    = Some d /\
    drawn screenshot
      (painted (out_canvas (applyTemplate net_down ∅ blank_canvas screenshot
                              macbook "" identity_transform false)))
    = Some (rect, oclip) /\
    match oclip with
    | Some clip => clip_width clip = width d /\ clip_height clip = height d
    | None => device (config macbook) = Some "ipad" /\ d = fallback_tablet
    end.
Proof.
  apply (device_render_stores_clip_size net_down ∅ blank_canvas screenshot
           macbook "" identity_transform false); reflexivity.
Defined.

(** ** The render without a device *)

Lemma flat_scale (iw : Q) :
  0 < iw -> iw <= 1600 -> Qmin (1600 / iw) 1 == 1.
Proof.
  intros Hiw Hle. apply Q.min_r. apply Qle_shift_div_l; [assumption|].
  rewrite Qmult_1_l. assumption.
Qed.

Lemma applyFlat_size (cache : gmap string DeviceFrame)
    (c : HTMLCanvasElement) (img : HTMLImageElement) (t : Template)
    (wm : string) (tr : ImageTransform) (paid : bool) :
  let r := applyFlat cache c img t wm tr paid in
  outcome r = Resolved tt ->
  exists w h clip,
    drawn img (painted (out_canvas r))
    = Some ({| screen_x := 100; screen_y := 100;
               screen_width := w; screen_height := h |}, Some clip) /\
    clip_screen clip
    = {| screen_x := 100; screen_y := 100;
         screen_width := w; screen_height := h |} /\
    clip_radius clip = 12 /\
    (0 < image_width img -> image_width img <= 1600 ->
     w == image_width img /\ h == image_height img /\
     canvas_width (out_canvas r) == image_width img + 200 /\
     canvas_height (out_canvas r) == image_height img + 200).
Proof.
  intros r. subst r.
  unfold applyFlat.
  backdrop E. destruct E as (Hw & Hh & p & Hp & Hs & Hc & Hr).
  destruct p as [pst pcl prot psh].
  cbn [paint_shape paint_clip paint_rotate] in Hs, Hc, Hr. subst psh pcl prot.
  strokes. rewrite Hp, <- ?app_assoc. cbn [app].
  cbn [drawn paint_shape]. rewrite String.eqb_refl.
  eexists _, _, _. split; [reflexivity|]. split; [reflexivity|].
  split; [reflexivity|].
  intros Hiw Hle. rewrite Hw, Hh. unfold padding.
  rewrite (flat_scale (image_width img) Hiw Hle). repeat split; ring.
Qed.

(** X25. Without a device the screenshot is drawn at [(100, 100)] under
    a rounded clip of radius 12 that is the very rectangle it is drawn
    into, and the transform of the editor plays no part.  An image that
    is at most 1600 wide is drawn at its native size, on a canvas that
    is 200 wider and 200 higher than the image.  The width and the
    height of an image are whole numbers, for which the arithmetic of
    this case is exact, and the sizes assigned to the canvas are within
    the range of a canvas dimension. *)
Theorem flat_render_size (net : Network) (cache : gmap string DeviceFrame)
    (c : HTMLCanvasElement) (img : HTMLImageElement) (t : Template)
    (wm : string) (tr : ImageTransform) (paid : bool) :
  has_context c = true ->
  type t <> "device" ->
  let r := applyTemplate net cache c img t wm tr paid in
  outcome r = Resolved tt ->
  exists w h clip,
    drawn img (painted (out_canvas r))
    = Some ({| screen_x := 100; screen_y := 100;
               screen_width := w; screen_height := h |}, Some clip) /\
    clip_screen clip
    = {| screen_x := 100; screen_y := 100;
         screen_width := w; screen_height := h |} /\
    clip_radius clip = 12 /\
    (whole (image_width img) -> whole (image_height img) ->
     0 < image_width img -> image_width img <= 1600 ->
     0 < image_height img -> image_height img + 200 <= 2147483647 ->
     w == image_width img /\ h == image_height img /\
     canvas_width (out_canvas r) == image_width img + 200 /\
     canvas_height (out_canvas r) == image_height img + 200) /\
    forall tr',
      out_canvas (applyTemplate net cache c img t wm tr' paid) = out_canvas r.
Proof.
  intros Hctx Ht r. subst r.
  assert (Htr : forall tr',
    applyTemplate net cache c img t wm tr' paid
    = applyFlat cache c img t wm tr paid).
  { intros tr'.
    destruct (applyTemplate_cases net cache c img t wm tr' paid Hctx)
      as [[_ ->]|[Hd _]]; [reflexivity|contradiction]. }
  rewrite (Htr tr). intros Hr.
  destruct (applyFlat_size cache c img t wm tr paid Hr)
    as (w & h & clip & H1 & H2 & H3 & H4).
  exists w, h, clip. repeat (split; [assumption|]).
  split; [intros _ _ Hiw Hle _ _; exact (H4 Hiw Hle)|].
  intros tr'. rewrite (Htr tr'). reflexivity.
Qed.

Lemma flat_render_size_witness :
  exists w h clip,
    drawn screenshot
      (painted (out_canvas (applyTemplate net_down ∅ blank_canvas screenshot
                              default_gradient "" identity_transform false)))
    = Some ({| screen_x := 100; screen_y := 100;
               screen_width := w; screen_height := h |}, Some clip) /\
    w == 1000 /\ h == 1000 /\
    canvas_width
      (out_canvas (applyTemplate net_down ∅ blank_canvas screenshot
                     default_gradient "" identity_transform false)) == 1200.
Proof.
  destruct (flat_render_size net_down ∅ blank_canvas screenshot
              default_gradient "" identity_transform false)
    as (w & h & clip & H1 & _ & _ & H2 & _);
    [reflexivity|discriminate|reflexivity|].
  destruct H2 as (Ew & Eh & Ecw & _);
    [reflexivity|reflexivity|reflexivity|discriminate|reflexivity
    |discriminate|].
  exists w, h, clip. split; [exact H1|]. split; [exact Ew|].
  split; [exact Eh|]. rewrite Ecw. reflexivity.
Defined.

(** ** The drawn frames *)

(** X26. The laptop: the clip of the screenshot is the screen area that
    [drawMacBookFrame] blackens, for the very frame that was drawn, on a
    canvas of 1588 by 1122. *)
Theorem laptop_clip_is_frame_screen (net : Network)
    (cache : gmap string DeviceFrame) (c : HTMLCanvasElement)
    (img : HTMLImageElement) (t : Template) (wm : string)
    (tr : ImageTransform) (paid : bool) :
  has_context c = true ->
  type t = "device" ->
  device (config t) = Some "macbook" ->
  let r := applyTemplate net cache c img t wm tr paid in
  canvas_width (out_canvas r) == 1588 /\
  canvas_height (out_canvas r) == 1122 /\
  exists cx cy w h rect clip,
    In (MacBookFrame cx cy w h) (shapes (out_canvas r)) /\
    drawn img (painted (out_canvas r)) = Some (rect, Some clip) /\
    clip_screen clip = macBookScreen cx cy w h.
Proof.
  intros Hctx Ht Hd r. subst r.
  destruct (applyTemplate_cases net cache c img t wm tr paid Hctx)
    as [[Hn _]|[_ [cache' H]]]; [contradiction|].
  destruct H as [(Hp & _)|[(_ & Hi & _)|[[_ ->]|(_ & _ & Hm & _)]]];
    try congruence.
  unfold applyMacbook. rewrite (drawBackground_device t _ Ht).
  cbv zeta. cbn [out_canvas applied].
  rewrite addWatermark_width, addWatermark_height. unfold shapes.
  match goal with
  | |- context [addWatermark wm paid ?c'] =>
      destruct (addWatermark_keeps wm paid c') as [rest ->]
  end.
  strokes. unfold padding.
  split; [reflexivity|]. split; [reflexivity|].
  eexists _, _, _, _, _, _. split; [|split].
  - rewrite List.map_app. apply in_or_app. left. cbn. right. left. reflexivity.
  - rewrite <- ?app_assoc. cbn. rewrite String.eqb_refl. reflexivity.
  - reflexivity.
Qed.

Lemma laptop_clip_is_frame_screen_witness :
  canvas_width (out_canvas (applyTemplate net_down ∅ blank_canvas screenshot
                              macbook "" identity_transform false)) == 1588 /\
  canvas_height (out_canvas (applyTemplate net_down ∅ blank_canvas screenshot
                               macbook "" identity_transform false)) == 1122.
Proof.
  destruct (laptop_clip_is_frame_screen net_down ∅ blank_canvas screenshot
              macbook "" identity_transform false eq_refl eq_refl eq_refl)
    as (H1 & H2 & _).
  split; [exact H1|exact H2].
Defined.

(** X27. The browser window: the window that [drawBrowserFrame] draws
    keeps a margin of 100 to every edge of the canvas, and the screenshot
    is clipped to the part of the window below its title bar. *)
Theorem browser_clip_is_below_title_bar (net : Network)
    (cache : gmap string DeviceFrame) (c : HTMLCanvasElement)
    (img : HTMLImageElement) (t : Template) (wm : string)
    (tr : ImageTransform) (paid : bool) :
  has_context c = true ->
  type t = "device" ->
  device (config t) = Some "browser" ->
  let r := applyTemplate net cache c img t wm tr paid in
  exists wx wy w h rect clip,
    In (BrowserFrame wx wy w h) (shapes (out_canvas r)) /\
    drawn img (painted (out_canvas r)) = Some (rect, Some clip) /\
    let bar := browserTitleBar wx wy w h in
    let border := browserBorder wx wy w h in
    clip_x clip == screen_x border /\
    clip_width clip == screen_width border /\
    clip_y clip == screen_y bar + screen_height bar /\
    clip_y clip + clip_height clip == screen_y border + screen_height border /\
    screen_x border == 100 /\ screen_y border == 100 /\
    screen_x border + screen_width border == canvas_width (out_canvas r) - 100 /\
    screen_y border + screen_height border == canvas_height (out_canvas r) - 100.
Proof.
  intros Hctx Ht Hd r. subst r.
  destruct (applyTemplate_cases net cache c img t wm tr paid Hctx)
    as [[Hn _]|[_ [cache' H]]]; [contradiction|].
  destruct H as [(Hp & _)|[(_ & Hi & _)|[[Hm _]|(_ & _ & _ & ->)]]];
    try congruence.
  unfold applyBrowser. rewrite (drawBackground_device t _ Ht).
  cbv zeta. cbn [out_canvas applied].
  rewrite addWatermark_width, addWatermark_height. unfold shapes.
  match goal with
  | |- context [addWatermark wm paid ?c'] =>
      destruct (addWatermark_keeps wm paid c') as [rest ->]
  end.
  strokes. unfold padding.
  eexists _, _, _, _, _, _. split; [|split].
  - rewrite List.map_app. apply in_or_app. left. cbn. right. left. reflexivity.
  - rewrite <- ?app_assoc. cbn. rewrite String.eqb_refl. reflexivity.
  - cbn. repeat split; reflexivity.
Qed.

Lemma browser_clip_is_below_title_bar_witness :
  exists wx wy w h rect clip,
    In (BrowserFrame wx wy w h)
       (shapes (out_canvas (applyTemplate net_down ∅ blank_canvas screenshot
                              browser "" identity_transform false))) /\
    drawn screenshot
      (painted (out_canvas (applyTemplate net_down ∅ blank_canvas screenshot
                              browser "" identity_transform false)))
    = Some (rect, Some clip) /\
    clip_y clip == wy + 40.
Proof.
  destruct (browser_clip_is_below_title_bar net_down ∅ blank_canvas screenshot
              browser "" identity_transform false eq_refl eq_refl eq_refl)
    as (wx & wy & w & h & rect & clip & H1 & H2 & H3).
  exists wx, wy, w, h, rect, clip. split; [exact H1|]. split; [exact H2|].
  cbv zeta in H3. destruct H3 as (_ & _ & H3 & _). exact H3.
Defined.

Lemma applyTemplate_phone_cached (net : Network)
    (cache : gmap string DeviceFrame) (c : HTMLCanvasElement)
    (img : HTMLImageElement) (t : Template) (wm : string)
    (tr : ImageTransform) (paid : bool) (df : DeviceFrame) :
  has_context c = true -> type t = "device" ->
  device (config t) = Some "phone" ->
  cache !! phone_frame_path = Some df ->
  applyTemplate net cache c img t wm tr paid
  = applyPhoneReal df cache c img t wm tr paid.
Proof.
  intros Hctx Ht Hd Hc. unfold applyTemplate, phone_frame_path in *.
  rewrite Hctx, Ht, Hd. simpl negb. cbv iota zeta.
  rewrite !bool_decide_eq_true_2 by reflexivity.
  unfold loadDeviceFrame. rewrite Hc. reflexivity.
Qed.

Lemma applyTemplate_ipad_cached (net : Network)
    (cache : gmap string DeviceFrame) (c : HTMLCanvasElement)
    (img : HTMLImageElement) (t : Template) (wm : string)
    (tr : ImageTransform) (paid : bool) (df : DeviceFrame) :
  has_context c = true -> type t = "device" ->
  device (config t) = Some "ipad" ->
  cache !! ipad_frame_path = Some df ->
  applyTemplate net cache c img t wm tr paid
  = applyIpadReal df cache c img t wm tr paid.
Proof.
  intros Hctx Ht Hd Hc. unfold applyTemplate, ipad_frame_path in *.
  rewrite Hctx, Ht, Hd. simpl negb. cbv iota zeta.
  rewrite bool_decide_eq_true_2 by reflexivity.
  rewrite bool_decide_eq_false_2 by discriminate.
  rewrite bool_decide_eq_true_2 by reflexivity.
  unfold loadDeviceFrame. rewrite Hc. reflexivity.
Qed.

(** X28. An upright bitmap frame and the screenshot line up: for the
    phone in portrait and for the tablet, the clip of the screenshot is
    the screen of the frame as the bitmap is drawn on the canvas. *)
Theorem upright_frame_lines_up (net : Network)
    (cache : gmap string DeviceFrame) (c : HTMLCanvasElement)
    (img : HTMLImageElement) (t : Template) (wm : string)
    (tr : ImageTransform) (paid : bool) (df : DeviceFrame) :
  has_context c = true ->
  type t = "device" ->
  (device (config t) = Some "phone" /\
   orientation_or_portrait t = "portrait" /\
   cache !! phone_frame_path = Some df) \/
  (device (config t) = Some "ipad" /\
   cache !! ipad_frame_path = Some df) ->
  src img <> src (image df) ->
  0 < width (frameSize (template df)) ->
  0 < height (frameSize (template df)) ->
  let r := applyTemplate net cache c img t wm tr paid in
  exists rect clip hole,
    drawn img (painted (out_canvas r)) = Some (rect, Some clip) /\
    frame_screen df (painted (out_canvas r)) = Some hole /\
    same_screen (clip_screen clip) hole.
Proof.
  intros Hctx Ht Hd Hsrc Hfw Hfh r. subst r.
  apply String.eqb_neq in Hsrc.
  apply positive_nonzero in Hfw, Hfh.
  destruct Hd as [(Hd & Ho & Hc)|(Hd & Hc)].
  - rewrite (applyTemplate_phone_cached net cache c img t wm tr paid df)
      by assumption.
    unfold applyPhoneReal. rewrite (drawBackground_device t _ Ht).
    rewrite Ho. rewrite bool_decide_eq_true_2 by reflexivity.
    cbv zeta. cbn [out_canvas applied].
    match goal with
    | |- context [addWatermark wm paid ?c'] =>
        destruct (addWatermark_keeps wm paid c') as [rest ->]
    end.
    strokes. unfold padding, roundRect. rewrite <- ?app_assoc.
    cbn [app drawn frame_screen paint_shape paint_rotate paint_clip].
    rewrite Hsrc, !String.eqb_refl.
    eexists _, _, _. split; [reflexivity|]. split; [reflexivity|].
    unfold same_screen, clip_screen, drawn_screen.
    cbn [screen_x screen_y screen_width screen_height
         clip_x clip_y clip_width clip_height].
    repeat split; field; assumption.
  - rewrite (applyTemplate_ipad_cached net cache c img t wm tr paid df)
      by assumption.
    unfold applyIpadReal. rewrite (drawBackground_device t _ Ht).
    cbv zeta. cbn [out_canvas applied].
    match goal with
    | |- context [addWatermark wm paid ?c'] =>
        destruct (addWatermark_keeps wm paid c') as [rest ->]
    end.
    strokes. unfold padding, roundRect. rewrite <- ?app_assoc.
    cbn [app drawn frame_screen paint_shape paint_rotate paint_clip].
    rewrite Hsrc, !String.eqb_refl.
    eexists _, _, _. split; [reflexivity|]. split; [reflexivity|].
    unfold same_screen, clip_screen, drawn_screen.
    cbn [screen_x screen_y screen_width screen_height
         clip_x clip_y clip_width clip_height].
    repeat split; field; assumption.
Qed.

Lemma upright_frame_lines_up_witness :
  exists rect clip hole,
    drawn screenshot
      (painted (out_canvas (applyTemplate net_down (phone_cache sample_descriptor)
                              blank_canvas screenshot phone_portrait ""
                              identity_transform false)))
    = Some (rect, Some clip) /\
    frame_screen (frame_of sample_descriptor)
      (painted (out_canvas (applyTemplate net_down (phone_cache sample_descriptor)
                              blank_canvas screenshot phone_portrait ""
                              identity_transform false)))
    = Some hole /\
    same_screen (clip_screen clip) hole.
Proof.
  apply (upright_frame_lines_up net_down (phone_cache sample_descriptor)
           blank_canvas screenshot phone_portrait "" identity_transform false
           (frame_of sample_descriptor)); try reflexivity.
  - left. repeat split; reflexivity.
  - discriminate.
Defined.

(** X29. A bitmap frame that is turned for landscape lines up with the
    screenshot only when its screen sits in the middle of the frame.
    The clip of the screenshot has the size of the turned screen of the
    bitmap, and the two rectangles coincide exactly when the margins of
    the screen are equal left and right, and equal top and bottom. *)
Theorem turned_frame_lines_up_iff_centred (net : Network)
    (cache : gmap string DeviceFrame) (c : HTMLCanvasElement)
    (img : HTMLImageElement) (t : Template) (wm : string)
    (tr : ImageTransform) (paid : bool) (df : DeviceFrame) :
  has_context c = true ->
  type t = "device" ->
  device (config t) = Some "phone" ->
  orientation_or_portrait t <> "portrait" ->
  cache !! phone_frame_path = Some df ->
  src img <> src (image df) ->
  0 < width (frameSize (template df)) ->
  0 < height (frameSize (template df)) ->
  let r := applyTemplate net cache c img t wm tr paid in
  exists rect clip hole,
    drawn img (painted (out_canvas r)) = Some (rect, Some clip) /\
    frame_screen df (painted (out_canvas r)) = Some hole /\
    clip_width clip == screen_width hole /\
    clip_height clip == screen_height hole /\
    (same_screen (clip_screen clip) hole <-> centred (template df)).
Proof.
  intros Hctx Ht Hd Ho Hc Hsrc Hfw Hfh r. subst r.
  apply String.eqb_neq in Hsrc.
  apply positive_nonzero in Hfw, Hfh.
  rewrite (applyTemplate_phone_cached net cache c img t wm tr paid df)
    by assumption.
  unfold applyPhoneReal. rewrite (drawBackground_device t _ Ht).
  rewrite (bool_decide_eq_false_2 _ Ho).
  cbv zeta. cbn [out_canvas applied].
  match goal with
  | |- context [addWatermark wm paid ?c'] =>
      destruct (addWatermark_keeps wm paid c') as [rest ->]
  end.
  strokes. unfold padding, roundRect, rotatedScreen. rewrite <- ?app_assoc.
  cbn [app drawn frame_screen paint_shape paint_rotate paint_clip
       screen_x screen_y screen_width screen_height].
  rewrite Hsrc, !String.eqb_refl.
  eexists _, _, _. split; [reflexivity|]. split; [reflexivity|].
  unfold same_screen, clip_screen, turned, drawn_screen, centred.
  cbn [screen_x screen_y screen_width screen_height
       clip_x clip_y clip_width clip_height].
  set (sx := screen_x (screen (template df))).
  set (sy := screen_y (screen (template df))).
  set (sw := screen_width (screen (template df))).
  set (sh := screen_height (screen (template df))).
  set (FW := width (frameSize (template df))) in *.
  set (FH := height (frameSize (template df))) in *.
  match goal with
  | |- _ /\ _ /\ ((?A1 == ?B1 /\ ?A2 == ?B2 /\ ?A3 == ?B3 /\ ?A4 == ?B4) <-> _) =>
      assert (E1 : A1 - B1 == 0.28 * (sy + sh + sy - FH)) by (field; auto);
      assert (E2 : A2 - B2 == 0.28 * (FW - (sx + sw + sx))) by (field; auto);
      assert (E3 : A3 == B3) by (field; auto);
      assert (E4 : A4 == B4) by (field; auto);
      set (a1 := A1) in *; set (b1 := B1) in *;
      set (a2 := A2) in *; set (b2 := B2) in *;
      set (a3 := A3) in *; set (b3 := B3) in *;
      set (a4 := A4) in *; set (b4 := B4) in *
  end.
  clearbody a1 b1 a2 b2 a3 b3 a4 b4 sx sy sw sh FW FH.
  split; [exact E3|]. split; [exact E4|].
  split.
  - intros (H1 & H2 & _ & _). split; lra.
  - intros (H1 & H2). repeat split; lra.
Qed.

Lemma turned_frame_lines_up_iff_centred_witness :
  exists rect clip hole,
    drawn screenshot
      (painted (out_canvas (applyTemplate net_down (phone_cache lopsided_descriptor)
                              blank_canvas screenshot phone_landscape ""
                              identity_transform false)))
    = Some (rect, Some clip) /\
    frame_screen (frame_of lopsided_descriptor)
      (painted (out_canvas (applyTemplate net_down (phone_cache lopsided_descriptor)
                              blank_canvas screenshot phone_landscape ""
                              identity_transform false)))
    = Some hole /\
    ~ same_screen (clip_screen clip) hole.
Proof.
  destruct (turned_frame_lines_up_iff_centred net_down
              (phone_cache lopsided_descriptor) blank_canvas screenshot
              phone_landscape "" identity_transform false
              (frame_of lopsided_descriptor))
    as (rect & clip & hole & H1 & H2 & _ & _ & H3); try reflexivity;
    try discriminate.
  exists rect, clip, hole. split; [exact H1|]. split; [exact H2|].
  intros H. apply H3 in H. destruct H as [_ H]. vm_compute in H. discriminate H.
Defined.

(** ** The gradient *)

Lemma stop_in_range (n i : nat) (col : string) :
  (i < n)%nat ->
  0 <= fst (stop n i col) /\ fst (stop n i col) <= 1 /\
  (i = 0%nat -> fst (stop n i col) == 0) /\
  (S i = n -> n <> 1%nat -> fst (stop n i col) == 1).
Proof.
  intros Hi. unfold stop. cbn [fst].
  destruct (decide (n = 1%nat)) as [->|Hn].
  - assert (i = 0%nat) as -> by lia. cbn.
    repeat split; try discriminate; try reflexivity. intros _ H. contradiction.
  - assert (Hpos : 0 < inject_Z (Z.of_nat n - 1)).
    { change 0 with (inject_Z 0). rewrite <- Zlt_Qlt. lia. }
    repeat split.
    + apply Qle_shift_div_l; [assumption|]. rewrite Qmult_0_l.
      change 0 with (inject_Z 0). rewrite <- Zle_Qle. lia.
    + apply Qle_shift_div_r; [assumption|]. rewrite Qmult_1_l.
      rewrite <- Zle_Qle. lia.
    + intros ->. cbn. unfold Qdiv. rewrite Qmult_0_l. reflexivity.
    + intros <- _. replace (Z.of_nat (S i) - 1)%Z with (Z.of_nat i) in * by lia.
      field. apply positive_nonzero. assumption.
Qed.

Lemma map_snd_imap (f : nat -> string -> Q * string) (l : list string) :
  (forall i col, snd (f i col) = col) -> List.map snd (imap f l) = l.
Proof.
  revert f. induction l as [|col l IH]; intros f Hf; cbn; [reflexivity|].
  rewrite Hf. f_equal. apply IH. intros i c. apply Hf.
Qed.

(** X30. The colour stops of a gradient are well placed.  When
    [drawBackground] returns for a gradient template, the fill style is
    a gradient that has the colours of the template in their order, each
    at an offset between 0 and 1, the first at 0 and the last at 1. *)
Theorem gradient_stops_in_range (t : Template) (c c1 : HTMLCanvasElement) :
  type t = "gradient" ->
  drawBackground t c = Normal c1 ->
  exists stops,
    fillStyle (ctx c1)
    = AngleGradient (canvas_width c) (canvas_height c) (angle (config t)) stops /\
    List.map snd stops = colors (config t) /\
    forall (i : nat) (q : Q) (col : string),
      stops !! i = Some (q, col) ->
      0 <= q /\ q <= 1 /\
      (i = 0%nat -> q == 0) /\ (S i = List.length stops -> q == 1).
Proof.
  intros Ht. unfold drawBackground. cbv zeta. rewrite Ht.
  rewrite bool_decide_eq_true_2 by reflexivity.
  case_bool_decide as Hn; [discriminate|]. intros [= <-].
  eexists. split; [reflexivity|]. split.
  - apply map_snd_imap. reflexivity.
  - intros i q col Hl. rewrite list_lookup_imap in Hl.
    destruct (colors (config t) !! i) as [col'|] eqn:Hi; [|discriminate].
    cbn in Hl. injection Hl as Hq Hcol.
    apply lookup_lt_Some in Hi.
    destruct (stop_in_range (List.length (colors (config t))) i col' Hi)
      as (H1 & H2 & H3 & H4).
    unfold stop in H1, H2, H3, H4. cbn [fst] in H1, H2, H3, H4.
    rewrite Hq in H1, H2, H3, H4.
    rewrite length_imap. repeat split; auto.
Qed.

Lemma gradient_stops_in_range_witness :
  exists c1 stops,
    drawBackground default_gradient blank_canvas = Normal c1 /\
    fillStyle (ctx c1) = AngleGradient 300 150 135 stops /\
    List.map snd stops = ["#4c1d95"; "#ec4899"; "#fce7f3"].
Proof.
  eexists.
  destruct (gradient_stops_in_range default_gradient blank_canvas _
              eq_refl eq_refl) as (stops & H1 & H2 & _).
  exists stops. split; [reflexivity|]. split; [exact H1|exact H2].
Defined.
